(** * Order execution and portfolio valuation of cocos-trading-api

    Shallow embedding of [OrderService] (order execution, cash operations,
    cancellation), [OrderRepository] (ledger queries, cursor pagination) and
    [PortfolioService] (position replay and valuation).

    Monetary values are [Q].  Decimal.js is used with its default
    configuration (precision 20, rounding ROUND_HALF_UP): every [plus],
    [minus], [times] and [dividedBy] result is rounded to 20 significant
    digits, ties away from zero; construction, comparison, [floor] and
    [toDecimalPlaces] are exact or round as written below.  PostgreSQL
    [NUMERIC] aggregates are exact. *)

From Stdlib Require Import ZArith QArith Qabs Qround Qreduction Qpower Qfield List Ascii String Bool Lia Lqa.
From Stdlib Require Import DecimalString Sorting.Sorted Sorting.Permutation.
Import ListNotations.
Open Scope Z_scope.

(** ** Decimal.js *)
Module Dec.

(** [n / d] for [n >= 0], [d > 0], rounded to an integer, ties upwards. *)
Definition round_half_up_pos (n d : Z) : Z := (2 * n + d) / (2 * d).

(** [floor (log10 n)] for [n > 0]. *)
Fixpoint log10_fuel (fuel : nat) (n : Z) : Z :=
  match fuel with
  | O => 0
  | S f => if n <? 10 then 0 else 1 + log10_fuel f (n / 10)
  end.
Definition log10 (n : Z) : Z := log10_fuel (Z.to_nat (Z.log2 n + 1)) n.

(** [n / d] multiplied by [10^k], as a fraction of integers. *)
Definition scale (n d k : Z) : Z * Z :=
  if 0 <=? k then (n * 10 ^ k, d) else (n, d * 10 ^ (- k)).

(** The exponent [k] with [10^19 <= n * 10^k / d < 10^20] ([n, d > 0]):
    [floor (log10 (n/d))] is [log10 n - log10 d] or one less. *)
Definition sig_shift (n d : Z) : Z :=
  let k0 := 19 - (log10 n - log10 d) in
  let '(a, b) := scale n d k0 in
  if 10 ^ 19 <=? a / b then k0 else k0 + 1.

(** The value [m * 10^-k]. *)
Definition of_scaled (m k : Z) : Q :=
  if 0 <=? k then Qred (Qmake m (Z.to_pos (10 ^ k)))
  else inject_Z (m * 10 ^ (- k)).

(** Rounding to [precision = 20] significant digits, ROUND_HALF_UP. *)
Definition round_sig (x : Q) : Q :=
  let n := Qnum x in
  let d := Zpos (Qden x) in
  if n =? 0 then 0%Q
  else
    let k := sig_shift (Z.abs n) d in
    let '(a, b) := scale (Z.abs n) d k in
    of_scaled (Z.sgn n * round_half_up_pos a b) k.

(** [x.toDecimalPlaces(dp)], ROUND_HALF_UP. *)
Definition toDecimalPlaces (dp : Z) (x : Q) : Q :=
  let n := Qnum x in
  let d := Zpos (Qden x) in
  of_scaled (Z.sgn n * round_half_up_pos (Z.abs n * 10 ^ dp) d) dp.

Definition plus (a b : Q) : Q := round_sig (a + b).
Definition minus (a b : Q) : Q := round_sig (a - b).
Definition times (a b : Q) : Q := round_sig (a * b).
(** [dividedBy]; a zero divisor never reaches it in the modelled paths
    (the replay guards [quantity === 0], see [executeOrder] for prices). *)
Definition dividedBy (a b : Q) : Q := round_sig (a / b).
Definition floor (a : Q) : Z := Qfloor a.
Definition lessThan (a b : Q) : bool := negb (Qle_bool b a).
Definition greaterThan (a b : Q) : bool := negb (Qle_bool a b).

End Dec.

(** A PostgreSQL [NUMERIC(12, 2)] column rounds to 2 decimals, ties away
    from zero (the [orders.price] column, migration in database/). *)
Definition numeric_12_2 (x : Q) : Q := Dec.toDecimalPlaces 2 x.

Definition Z_to_string (z : Z) : string := NilZero.string_of_int (Z.to_int z).

(** The text of a double quote, for messages that quote a value. *)
Definition dq : string := String (ascii_of_nat 34) EmptyString.

(** ** JavaScript numbers

    [Decimal.prototype.toNumber] converts the exact decimal value to the
    nearest IEEE 754 binary64 number (ties to even), and a JavaScript number
    is read back ([String(x)], [JSON.stringify], [new Decimal(x)]) through
    its shortest decimal form: the fewest significant digits that still
    convert to the same double, the one closest to the double among them
    (ties to an even last digit).  A JavaScript number is represented here
    by the value of that decimal form.  Magnitudes of [2^1024] and more,
    [Infinity] in JavaScript, are far beyond the values of the ledger's
    NUMERIC(12, 2) and INTEGER columns and are not singled out. *)
Module Double.

Definition pow2 (e : Z) : Q :=
  if 0 <=? e then inject_Z (2 ^ e) else 1 # Z.to_pos (2 ^ (- e)).
Definition pow10 (j : Z) : Q :=
  if 0 <=? j then inject_Z (10 ^ j) else 1 # Z.to_pos (10 ^ (- j)).

(** [floor (log2 (n / d))] and [floor (log10 (n / d))] for [n, d > 0]. *)
Definition log2_floor (n d : Z) : Z :=
  let t := Z.log2 n - Z.log2 d in
  if 0 <=? t then (if d * 2 ^ t <=? n then t else t - 1)
  else (if d <=? n * 2 ^ (- t) then t else t - 1).

Definition log10_floor (n d : Z) : Z :=
  let t := Dec.log10 n - Dec.log10 d in
  if 0 <=? t then (if d * 10 ^ t <=? n then t else t - 1)
  else (if d <=? n * 10 ^ (- t) then t else t - 1).

(** [n / d] rounded to an integer, ties to even ([n >= 0], [d > 0]). *)
Definition round_half_even (n d : Z) : Z :=
  let q := n / d in
  let r := n mod d in
  if 2 * r <? d then q
  else if d <? 2 * r then q + 1
  else if Z.even q then q else q + 1.

(** The double nearest to [n / d] ([n, d > 0]) as [(m, e)], value
    [m * 2^e], with [2^52 <= m < 2^53], or [e = -1074] for a subnormal. *)
Definition round_pos (n d : Z) : Z * Z :=
  let e := Z.max (-1074) (log2_floor n d - 52) in
  let m := if 0 <=? e then round_half_even n (d * 2 ^ e)
           else round_half_even (n * 2 ^ (- e)) d in
  if m =? 2 ^ 53 then (2 ^ 52, e + 1) else (m, e).

Definition value (m e : Z) : Q := (inject_Z m * pow2 e)%Q.

(** [c] converts to the double [m * 2^e]: it lies within half a gap of it,
    the bounds included when [m] is even. *)
Definition in_interval (m e : Z) (c : Q) : bool :=
  let v := value m e in
  let lo := (v - (if (m =? 2 ^ 52) && (-1074 <? e) then pow2 (e - 2) else pow2 (e - 1)))%Q in
  let hi := (v + pow2 (e - 1))%Q in
  if Z.even m then Qle_bool lo c && Qle_bool c hi
  else negb (Qle_bool c lo) && negb (Qle_bool hi c).

(** The decimals of the double [m * 2^e] with [k] significant digits, for
    [k = 1, 2, ...]: at scale [10^j] the two nearest to the double. *)
Fixpoint search (fuel : nat) (m e j : Z) : Z * Z :=
  match fuel with
  | O => if 0 <=? e then (m * 2 ^ e, 0) else (m * 5 ^ (- e), e)
  | S f =>
      let v := value m e in
      let a := Qfloor (v / pow10 j)%Q in
      let ca := (inject_Z a * pow10 j)%Q in
      let cb := (inject_Z (a + 1) * pow10 j)%Q in
      let ok_a := (0 <? a) && in_interval m e ca in
      let ok_b := in_interval m e cb in
      if ok_a && ok_b then
        match Qcompare (v - ca)%Q (cb - v)%Q with
        | Lt => (a, j)
        | Gt => (a + 1, j)
        | Eq => if Z.even a then (a, j) else (a + 1, j)
        end
      else if ok_a then (a, j)
      else if ok_b then (a + 1, j)
      else search f m e (j - 1)
  end.

(** The shortest decimal [(s, j)], value [s * 10^j], of a positive double;
    the search starts at [floor (log10 v)], one significant digit. *)
Definition shortest (m e : Z) : Z * Z :=
  let p := if 0 <=? e then log10_floor (m * 2 ^ e) 1 else log10_floor m (2 ^ (- e)) in
  search (Z.to_nat (p - Z.min e 0 + 1)) m e p.

(** The signed digits of [x.toNumber()]; a carry such as [9.99 -> 10]
    leaves one trailing zero, dropped here. *)
Definition digits (x : Q) : option (Z * Z) :=
  let n := Qnum x in
  if n =? 0 then None
  else
    let '(m, e) := round_pos (Z.abs n) (Zpos (Qden x)) in
    let '(s, j) := shortest m e in
    if s mod 10 =? 0 then Some (Z.sgn n * (s / 10), j + 1) else Some (Z.sgn n * s, j).

(** [x.toNumber()]. *)
Definition to_number (x : Q) : Q :=
  match digits x with
  | None => 0%Q
  | Some (s, j) => Qred (inject_Z s * pow10 j)
  end.

Fixpoint zeros (n : nat) : string :=
  match n with O => EmptyString | S k => String (ascii_of_nat 48) (zeros k) end.

(** [Number::toString] of [x.toNumber()]. *)
Local Open Scope string_scope.
Definition js_text (x : Q) : string :=
  match digits x with
  | None => "0"
  | Some (s, j) =>
      let sign := if (s <? 0)%Z then "-" else EmptyString in
      let ds := Z_to_string (Z.abs s) in
      let k := Z.of_nat (String.length ds) in
      let n := (j + k)%Z in
      let body :=
        if ((k <=? n) && (n <=? 21))%Z then ds ++ zeros (Z.to_nat (n - k))
        else if ((0 <? n) && (n <=? 21))%Z then
          substring 0 (Z.to_nat n) ds ++ "." ++ substring (Z.to_nat n) (Z.to_nat (k - n)) ds
        else if ((-6 <? n) && (n <=? 0))%Z then "0." ++ zeros (Z.to_nat (- n)) ++ ds
        else
          let ex := (if (n - 1 <? 0)%Z then "-" else "+") ++ Z_to_string (Z.abs (n - 1)) in
          if (k =? 1)%Z then ds ++ "e" ++ ex
          else substring 0 1 ds ++ "." ++ substring 1 (Z.to_nat (k - 1)) ds ++ "e" ++ ex in
      sign ++ body
  end.

End Double.

(** ** Data model (src/models, src/constants/instruments) *)

Inductive OrderSide := BUY | SELL | CASH_IN | CASH_OUT.
Inductive OrderType := MARKET | LIMIT.
Inductive OrderStatus := NEW | FILLED | REJECTED | CANCELLED.

Scheme Equality for OrderSide.
Scheme Equality for OrderType.
Scheme Equality for OrderStatus.

Definition status_string (s : OrderStatus) : string :=
  match s with
  | NEW => "NEW" | FILLED => "FILLED"
  | REJECTED => "REJECTED" | CANCELLED => "CANCELLED"
  end.

Definition side_string (s : OrderSide) : string :=
  match s with
  | BUY => "BUY" | SELL => "SELL" | CASH_IN => "CASH_IN" | CASH_OUT => "CASH_OUT"
  end.

(** [ARS_INSTRUMENT_ID]: the cash instrument. *)
Definition ARS_INSTRUMENT_ID : Z := 66.

Record Instrument := mkInstrument {
  ins_id : Z;
  ins_ticker : string;
  ins_name : string
}.

(** A [marketdata] row: [close] and [previousclose] are NUMERIC. *)
Record MarketData := mkMarketData {
  md_instrumentId : Z;
  md_close : Q;
  md_previousClose : Q;
  md_date : Z
}.

(** A row of the [orders] ledger. *)
Record Order := mkOrder {
  o_id : Z;
  o_instrumentId : Z;
  o_userId : Z;
  o_size : Z;
  o_price : Q;
  o_type : OrderType;
  o_side : OrderSide;
  o_status : OrderStatus;
  o_datetime : Z
}.

(** [CreateOrderInput]: [size], [amount] and [price] are optional. *)
Record CreateOrderInput := mkInput {
  in_userId : Z;
  in_instrumentId : Z;
  in_side : OrderSide;
  in_type : OrderType;
  in_size : option Z;
  in_amount : option Q;
  in_price : option Q
}.

(** A price as the text handed to Decimal.js and to PostgreSQL:
    [String(input.price)] of an absent price is the text ["undefined"]. *)
Inductive PriceText := PDec (q : Q) | PUndefined.

(** The database: reference tables, price snapshots and the ledger;
    [db_next_id] is the [orders.id] sequence, [db_now] the value of [NOW()]. *)
Record DB := mkDB {
  db_users : list Z;
  db_instruments : list Instrument;
  db_marketdata : list MarketData;
  db_orders : list Order;
  db_next_id : Z;
  db_now : Z
}.

(** Errors: [NotFoundError], [BusinessRuleError] (src/errors), the
    exception Decimal.js raises on a non-numeric argument, an error raised
    by PostgreSQL, and a JavaScript [TypeError]. *)
Inductive AppError :=
| NotFoundError (msg : string)
| BusinessRuleError (msg : string)
| DecimalError (msg : string)
| DatabaseError (msg : string)
| TypeError (msg : string).

(** ** State and error monad over the database *)

Inductive Outcome (A : Type) :=
| Done (a : A) (s : DB)
| Raise (e : AppError).
Arguments Done {A} a s.
Arguments Raise {A} e.

Definition M (A : Type) := DB -> Outcome A.

Definition ret {A} (a : A) : M A := fun s => Done a s.
Definition bind {A B} (m : M A) (k : A -> M B) : M B :=
  fun s => match m s with Done a s' => k a s' | Raise e => Raise e end.
Definition throw {A} (e : AppError) : M A := fun _ => Raise e.
Definition get_db : M DB := fun s => Done s s.

Notation "x <- m ;; k" := (bind m (fun x => k))
  (at level 61, m at next level, right associativity).

(** [transaction(body)] (src/config/database): commit on return; on an
    exception roll back, i.e. no change of the database survives. *)
Definition transaction {A} (body : M A) : M A :=
  fun s => match body s with
           | Done a s' => Done a s'
           | Raise e => Raise e
           end.

(** [new Decimal(text)]. *)
Definition decimal_of_text (p : PriceText) : M Q :=
  match p with
  | PDec q => ret q
  | PUndefined => throw (DecimalError "[DecimalError] Invalid argument: undefined")
  end.

(** [new Decimal(input.amount!)]. *)
Definition decimal_of_amount (a : option Q) : M Q :=
  match a with
  | Some q => ret q
  | None => throw (DecimalError "[DecimalError] Invalid argument: undefined")
  end.

(** ** Ledger access (src/src/repositories, src/unnamed/part_006, part_008) *)
Module Repo.

Definition findUserById (u : Z) : M bool :=
  fun s => Done (existsb (Z.eqb u) (db_users s)) s.

Definition findInstrumentById (i : Z) : M (option Instrument) :=
  fun s => Done (find (fun x => ins_id x =? i) (db_instruments s)) s.

(** [ORDER BY date DESC LIMIT 1]: the first row of greatest date. *)
Fixpoint latest_of (best : option MarketData) (rows : list MarketData)
  : option MarketData :=
  match rows with
  | [] => best
  | r :: rs =>
      match best with
      | Some b => latest_of (if md_date b <? md_date r then Some r else Some b) rs
      | None => latest_of (Some r) rs
      end
  end.

Definition latest_market_data (rows : list MarketData) (i : Z) : option MarketData :=
  latest_of None (filter (fun r => md_instrumentId r =? i) rows).

Definition getLatestMarketDataForInstrument (i : Z) : M (option MarketData) :=
  fun s => Done (latest_market_data (db_marketdata s) i) s.

(** The fields passed to [createOrder]. *)
Record OrderFields := mkFields {
  f_instrumentId : Z;
  f_userId : Z;
  f_size : Z;
  f_price : PriceText;
  f_type : OrderType;
  f_side : OrderSide;
  f_status : OrderStatus
}.

(** [INTEGER] columns hold the integers from [-2^31] to [2^31 - 1]. *)
Definition int4_ok (n : Z) : bool := (-2147483648 <=? n) && (n <=? 2147483647).

(** [int4in] on [String(size)] (node-postgres sends a number as its text):
    an integer text out of range, or a text in exponent form. *)
Definition int4_input_error (n : Z) : AppError :=
  let t := Double.js_text (inject_Z n) in
  if Qle_bool (inject_Z (10 ^ 21)) (Qabs (Double.to_number (inject_Z n)))
  then DatabaseError ("invalid input syntax for type integer: " ++ dq ++ t ++ dq)
  else DatabaseError ("value " ++ dq ++ t ++ dq ++ " is out of range for type integer").

(** [numeric_in] on the text ["undefined"]. *)
Definition undefined_numeric_error : AppError :=
  DatabaseError ("invalid input syntax for type numeric: " ++ dq ++ "undefined" ++ dq).

(** [int4in] on the text ["Infinity"]. *)
Definition infinity_size_error : AppError :=
  DatabaseError ("invalid input syntax for type integer: " ++ dq ++ "Infinity" ++ dq).

(** [NUMERIC(12, 2)] holds values that round to 2 decimals below [10^10]
    in absolute value; beyond, the cast fails with ["numeric field overflow"]. *)
Definition numeric_12_2_ok (p : Q) : bool :=
  negb (Qle_bool (inject_Z (10 ^ 10)) (Qabs (numeric_12_2 p))).

(** [createOrder]: [INSERT ... RETURNING]; the id comes from the sequence,
    [datetime] is [NOW()].  The parameters are converted in order when the
    statement is bound: the size into [INTEGER], then the price text into
    [numeric] (the text ["undefined"] is refused); the price is then cast to
    the column's [NUMERIC(12, 2)].  The instrument and user ids are those of
    rows the transaction has just read by these ids, so they fit their
    [INTEGER] columns. *)
Definition createOrder (f : OrderFields) : M Order :=
  fun s =>
    if negb (int4_ok (f_size f)) then Raise (int4_input_error (f_size f))
    else
      match f_price f with
      | PUndefined => Raise undefined_numeric_error
      | PDec p =>
          if negb (numeric_12_2_ok p) then Raise (DatabaseError "numeric field overflow")
          else
            let o := mkOrder (db_next_id s) (f_instrumentId f) (f_userId f) (f_size f)
                       (numeric_12_2 p) (f_type f) (f_side f) (f_status f) (db_now s) in
            Done o (mkDB (db_users s) (db_instruments s) (db_marketdata s)
                      (db_orders s ++ [o]) (db_next_id s + 1) (db_now s))
      end.

Definition size_times_price (o : Order) : Q := inject_Z (o_size o) * o_price o.

(** The [CASE] of [getUserAvailableCash]. *)
Definition cash_effect (ars : Z) (o : Order) : Q :=
  if (o_instrumentId o =? ars) && OrderSide_beq (o_side o) CASH_IN
  then size_times_price o
  else if (o_instrumentId o =? ars) && OrderSide_beq (o_side o) CASH_OUT
  then - size_times_price o
  else if OrderSide_beq (o_side o) BUY then - size_times_price o
  else if OrderSide_beq (o_side o) SELL then size_times_price o
  else 0.

Definition filled_of (u : Z) (o : Order) : bool :=
  (o_userId o =? u) && OrderStatus_beq (o_status o) FILLED.

(** [COALESCE(SUM(CASE ...), 0)] over the FILLED rows of the user. *)
Definition available_cash (u ars : Z) (orders : list Order) : Q :=
  fold_right Qplus 0%Q (map (cash_effect ars) (filter (filled_of u) orders)).

(** [getUserAvailableCash]: the same sum with or without [FOR UPDATE]. *)
Definition getUserAvailableCash (u ars : Z) : M Q :=
  fun s => Done (available_cash u ars (db_orders s)) s.

Definition position_effect (o : Order) : Z :=
  match o_side o with BUY => o_size o | SELL => - o_size o | _ => 0 end.

Definition position_of (u i : Z) (orders : list Order) : Z :=
  fold_right Z.add 0
    (map position_effect
       (filter (fun o => filled_of u o && (o_instrumentId o =? i)
                         && (OrderSide_beq (o_side o) BUY || OrderSide_beq (o_side o) SELL))
          orders)).

Definition getUserPositionForInstrument (u i : Z) : M Z :=
  fun s => Done (position_of u i (db_orders s)) s.

(** [ORDER BY datetime DESC], rows of equal timestamp in ledger order. *)
Fixpoint insert_desc (x : Order) (l : list Order) : list Order :=
  match l with
  | [] => [x]
  | y :: l' => if o_datetime y <? o_datetime x then x :: y :: l' else y :: insert_desc x l'
  end.
Definition sort_desc (l : list Order) : list Order :=
  fold_left (fun acc x => insert_desc x acc) l [].

(** [ORDER BY datetime ASC], rows of equal timestamp in ledger order. *)
Fixpoint insert_asc (x : Order) (l : list Order) : list Order :=
  match l with
  | [] => [x]
  | y :: l' => if o_datetime x <? o_datetime y then x :: y :: l' else y :: insert_asc x l'
  end.
Definition sort_asc (l : list Order) : list Order :=
  fold_left (fun acc x => insert_asc x acc) l [].

(** [getFilledOrdersByUserId]. *)
Definition filled_orders (u : Z) (orders : list Order) : list Order :=
  sort_asc (filter (filled_of u) orders).

Definition getFilledOrdersByUserId (u : Z) : M (list Order) :=
  fun s => Done (filled_orders u (db_orders s)) s.

(** The page query: [WHERE userid = $1 [AND datetime < $3]
    ORDER BY datetime DESC LIMIT $2].  The cursor is the ISO timestamp of
    the request ([None] when absent). *)
Definition cursor_ok (cursor : option Z) (o : Order) : bool :=
  match cursor with Some c => o_datetime o <? c | None => true end.

Definition select_page (orders : list Order) (u : Z) (cursor : option Z) (n : Z)
  : list Order :=
  firstn (Z.to_nat n)
    (sort_desc (filter (fun o => (o_userId o =? u) && cursor_ok cursor o) orders)).

Record Page := mkPage {
  pg_orders : list Order;
  pg_nextCursor : option Z;
  pg_hasMore : bool
}.

(** [getOrdersByUserId(userId, limit = 50, cursor?)]. *)
Definition getOrdersByUserId (u : Z) (limit : option Z) (cursor : option Z) : M Page :=
  fun s =>
    let safeLimit := Z.min (match limit with Some l => l | None => 50 end) 200 in
    if safeLimit + 1 <? 0 then Raise (DatabaseError "LIMIT must not be negative")
    else
      let rows := select_page (db_orders s) u cursor (safeLimit + 1) in
      let hasMore := safeLimit <? Z.of_nat (List.length rows) in
      let orders := if hasMore then removelast rows else rows in
      let nextCursor :=
        if hasMore && (0 <? List.length orders)%nat
        then match rev orders with x :: _ => Some (o_datetime x) | [] => None end
        else None in
      Done (mkPage orders nextCursor hasMore) s.

End Repo.

(** ** Order execution engine ([OrderService], src/unnamed/part_005) *)
Module OrderService.
Import Repo.

(** An order returned to the caller with its [totalAmount]
    ([new Decimal(size).times(price).toDecimalPlaces(2)]; the final
    [.toNumber()] is not modelled). *)
Record OrderResponse := mkResponse {
  r_order : Order;
  r_totalAmount : Q
}.

Definition totalAmount (o : Order) : Q :=
  Dec.toDecimalPlaces 2 (Dec.times (inject_Z (o_size o)) (o_price o)).

Definition respond (o : Order) : OrderResponse := mkResponse o (totalAmount o).

(** [validateOrder]: [true] when it returns an error message (the message
    itself is only logged). *)
Definition validateOrder (u i : Z) (sd : OrderSide) (size : Z) (price : PriceText)
  : M bool :=
  match sd with
  | BUY =>
      availableCash <- getUserAvailableCash u ARS_INSTRUMENT_ID ;;
      p <- decimal_of_text price ;;
      ret (Dec.lessThan availableCash (Dec.times (inject_Z size) p))
  | SELL =>
      currentPosition <- getUserPositionForInstrument u i ;;
      ret (currentPosition <? size)
  | _ => ret false
  end.

(** [validateCashOutFunds]: a REJECTED order when the funds are short. *)
Definition validateCashOutFunds (u size : Z) : M (option OrderResponse) :=
  availableCash <- getUserAvailableCash u ARS_INSTRUMENT_ID ;;
  let cashOutAmount := Dec.times (inject_Z size) 1 in
  if Dec.lessThan availableCash cashOutAmount then
    rejectedOrder <- createOrder (mkFields ARS_INSTRUMENT_ID u size (PDec 1)
                                    MARKET CASH_OUT REJECTED) ;;
    ret (Some (respond rejectedOrder))
  else ret None.

(** [executeCashOperation]. *)
Definition executeCashOperation (input : CreateOrderInput) : M OrderResponse :=
  if negb (in_instrumentId input =? ARS_INSTRUMENT_ID) then
    throw (BusinessRuleError (side_string (in_side input)
             ++ " operations must use ARS instrument (ID "
             ++ Z_to_string ARS_INSTRUMENT_ID ++ ")"))
  else
    orderSize <- (match in_size input with
                  | Some n => ret n
                  | None => a <- decimal_of_amount (in_amount input) ;;
                            ret (Dec.floor (Dec.dividedBy a 1))
                  end) ;;
    validationError <- (if OrderSide_beq (in_side input) CASH_OUT
                        then validateCashOutFunds (in_userId input) orderSize
                        else ret None) ;;
    match validationError with
    | Some rejected => ret rejected
    | None =>
        order <- createOrder (mkFields (in_instrumentId input) (in_userId input)
                                orderSize (PDec 1) (in_type input) (in_side input)
                                FILLED) ;;
        ret (respond order)
    end.

Definition fields_of (input : CreateOrderInput) (size : Z) (price : PriceText)
  (st : OrderStatus) : OrderFields :=
  mkFields (in_instrumentId input) (in_userId input) size price (in_type input)
    (in_side input) st.

(** Steps 7 to 9 of [executeOrder]: validation, status, insertion. *)
Definition validateAndCreate (input : CreateOrderInput) (orderSize : Z)
  (executionPrice : PriceText) : M OrderResponse :=
  validationError <- validateOrder (in_userId input) (in_instrumentId input)
                       (in_side input) orderSize executionPrice ;;
  if validationError then
    rejectedOrder <- createOrder (fields_of input orderSize executionPrice REJECTED) ;;
    ret (respond rejectedOrder)
  else
    let orderStatus := match in_type input with MARKET => FILLED | LIMIT => NEW end in
    order <- createOrder (fields_of input orderSize executionPrice orderStatus) ;;
    ret (respond order).

(** Step 6 of [executeOrder]: the size, given or [floor(amount / price)].
    A zero price makes the quotient [Infinity]: [orderSize === 0] fails,
    validation passes a BUY ([lessThan(NaN)] is false) and rejects a SELL,
    and either way the insertion of the integer [Infinity] fails. *)
Definition executeStockOrder (input : CreateOrderInput) (executionPrice : PriceText)
  : M OrderResponse :=
  match in_size input with
  | Some n => validateAndCreate input n executionPrice
  | None =>
      amount <- decimal_of_amount (in_amount input) ;;
      p <- decimal_of_text executionPrice ;;
      if Qeq_bool p 0 then
        throw infinity_size_error
      else
        let orderSize := Dec.floor (Dec.dividedBy amount p) in
        if orderSize =? 0 then
          rejectedOrder <- createOrder (fields_of input 0 executionPrice REJECTED) ;;
          ret (respond rejectedOrder)
        else validateAndCreate input orderSize executionPrice
  end.

(** [String(input.price)]. *)
Definition price_text (p : option Q) : PriceText :=
  match p with Some q => PDec q | None => PUndefined end.

(** [executeOrder]. *)
Definition executeOrder (input : CreateOrderInput) : M OrderResponse :=
  transaction (
    user <- findUserById (in_userId input) ;;
    if negb user then
      throw (NotFoundError ("User with ID " ++ Z_to_string (in_userId input) ++ " not found"))
    else
      instrument <- findInstrumentById (in_instrumentId input) ;;
      match instrument with
      | None =>
          throw (NotFoundError ("Instrument with ID " ++ Z_to_string (in_instrumentId input)
                                  ++ " not found"))
      | Some ins =>
          if OrderSide_beq (in_side input) CASH_IN || OrderSide_beq (in_side input) CASH_OUT
          then executeCashOperation input
          else
            marketData <- getLatestMarketDataForInstrument (in_instrumentId input) ;;
            match in_type input with
            | MARKET =>
                match marketData with
                | None => throw (BusinessRuleError ("No market data available for instrument "
                                                      ++ ins_ticker ins))
                | Some md => executeStockOrder input (PDec (md_close md))
                end
            | LIMIT => executeStockOrder input (price_text (in_price input))
            end
      end).

(** [cancelOrder]. *)
Record CancelResponse := mkCancel {
  c_message : string;
  c_order : Order;
  c_ticker : string;
  c_name : string;
  c_totalAmount : Q
}.

Definition find_order (oid : Z) (orders : list Order) : option Order :=
  find (fun o => o_id o =? oid) orders.

Definition with_status (st : OrderStatus) (o : Order) : Order :=
  mkOrder (o_id o) (o_instrumentId o) (o_userId o) (o_size o) (o_price o)
    (o_type o) (o_side o) st (o_datetime o).

(** [UPDATE orders SET status = $1 WHERE id = $2 RETURNING ...]. *)
Definition update_status (oid : Z) (st : OrderStatus) : M (list Order) :=
  fun s =>
    let upd o := if o_id o =? oid then with_status st o else o in
    Done (map (with_status st) (filter (fun o => o_id o =? oid) (db_orders s)))
      (mkDB (db_users s) (db_instruments s) (db_marketdata s)
         (map upd (db_orders s)) (db_next_id s) (db_now s)).

Definition cancelOrder (oid uid : Z) : M CancelResponse :=
  transaction (
    s <- get_db ;;
    match find_order oid (db_orders s) with
    | None => throw (NotFoundError ("Order with ID " ++ Z_to_string oid ++ " not found"))
    | Some existingOrder =>
        if negb (o_userId existingOrder =? uid) then
          throw (BusinessRuleError "Order not found or not owned by user")
        else if negb (OrderStatus_beq (o_status existingOrder) NEW) then
          throw (BusinessRuleError ("Only NEW orders can be cancelled. Current status: "
                                      ++ status_string (o_status existingOrder)))
        else
          updated <- update_status oid CANCELLED ;;
          match updated with
          | [] => throw (TypeError "Cannot read properties of undefined (reading 'instrumentId')")
          | cancelledOrder :: _ =>
              instrument <- findInstrumentById (o_instrumentId cancelledOrder) ;;
              match instrument with
              | None => throw (TypeError "Cannot read properties of undefined (reading 'ticker')")
              | Some ins =>
                  ret (mkCancel "Order cancelled successfully" cancelledOrder
                         (ins_ticker ins) (ins_name ins) (totalAmount cancelledOrder))
              end
          end
    end).

End OrderService.

(** ** Portfolio valuation ([PortfolioService], src/src/services) *)
Module PortfolioService.
Import Repo.

(** The running [(quantity, totalCost)] of one instrument. *)
Definition Running := (Z * Q)%type.

(** The body of the replay loop for one order and its instrument's entry. *)
Definition apply_order (o : Order) (pos : Running) : Running :=
  let '(quantity, totalCost) := pos in
  match o_side o with
  | BUY => (quantity + o_size o,
            Dec.plus totalCost (Dec.times (inject_Z (o_size o)) (o_price o)))
  | SELL =>
      if quantity =? 0 then (quantity, totalCost)
      else
        let avgCost := Dec.dividedBy totalCost (inject_Z quantity) in
        (quantity - o_size o,
         Dec.minus totalCost (Dec.times (inject_Z (o_size o)) avgCost))
  | _ => (quantity, totalCost)
  end.

(** [internalMap]: a JavaScript [Map], iterated in insertion order. *)
Definition InternalMap := list (Z * Running).

Fixpoint lookup (k : Z) (m : InternalMap) : option Running :=
  match m with
  | [] => None
  | (k', v) :: m' => if k' =? k then Some v else lookup k m'
  end.

Definition update (k : Z) (f : Running -> Running) (m : InternalMap) : InternalMap :=
  map (fun kv => if fst kv =? k then (fst kv, f (snd kv)) else kv) m.

(** [if (!internalMap.has(id)) internalMap.set(id, {quantity: 0, totalCost: 0})]. *)
Definition ensure (k : Z) (m : InternalMap) : InternalMap :=
  match lookup k m with
  | Some _ => m
  | None => m ++ [(k, (0, 0%Q))]
  end.

Definition replay_step (m : InternalMap) (o : Order) : InternalMap :=
  update (o_instrumentId o) (apply_order o) (ensure (o_instrumentId o) m).

Definition replay (orders : list Order) : InternalMap :=
  fold_left replay_step orders [].

Record PositionCalculation := mkCalc {
  pc_instrumentId : Z;
  pc_quantity : Z;
  pc_totalCost : Q
}.

(** [calculatePositions]: the entries of positive quantity, the cost
    converted with [pos.totalCost.toNumber()]. *)
Definition calculatePositions (orders : list Order) : list PositionCalculation :=
  map (fun kv => mkCalc (fst kv) (fst (snd kv)) (Double.to_number (snd (snd kv))))
    (filter (fun kv => 0 <? fst (snd kv)) (replay orders)).

Record Position := mkPosition {
  p_instrumentId : Z;
  p_ticker : string;
  p_name : string;
  p_quantity : Z;
  p_averageBuyPrice : Q;
  p_currentPrice : Q;
  p_marketValue : Q;
  p_totalReturn : Q;
  p_dailyReturn : Q
}.

(** One iteration of [enrichPositions]; [None] for a skipped position.
    [marketValue] and [averageBuyPrice] are JavaScript numbers
    ([.toNumber()]), read back exactly by [new Decimal(...)]; so is each
    field of the result. *)
Definition enrich_one (marketData : list MarketData) (instruments : list Instrument)
  (c : PositionCalculation) : option Position :=
  match latest_market_data marketData (pc_instrumentId c),
        find (fun i => ins_id i =? pc_instrumentId c) instruments with
  | Some md, Some ins =>
      let currentPrice := md_close md in
      let previousPrice := md_previousClose md in
      let quantity := inject_Z (pc_quantity c) in
      let marketValue := Double.to_number (Dec.times quantity currentPrice) in
      let averageBuyPrice := Double.to_number (Dec.dividedBy (pc_totalCost c) quantity) in
      let totalReturn :=
        if Dec.greaterThan averageBuyPrice 0 then
          Double.to_number
            (Dec.toDecimalPlaces 2
               (Dec.times (Dec.dividedBy (Dec.minus currentPrice averageBuyPrice)
                             averageBuyPrice) 100))
        else 0%Q in
      let dailyReturn :=
        if Dec.greaterThan previousPrice 0 then
          Double.to_number
            (Dec.toDecimalPlaces 2
               (Dec.times (Dec.dividedBy (Dec.minus currentPrice previousPrice)
                             previousPrice) 100))
        else 0%Q in
      Some (mkPosition (pc_instrumentId c) (ins_ticker ins) (ins_name ins)
              (pc_quantity c) (Double.to_number (Dec.toDecimalPlaces 2 averageBuyPrice))
              (Double.to_number (Dec.toDecimalPlaces 2 currentPrice))
              (Double.to_number (Dec.toDecimalPlaces 2 marketValue))
              totalReturn dailyReturn)
  | _, _ => None
  end.

(** [positions.sort((a, b) => b.marketValue - a.marketValue)] (stable). *)
Fixpoint insert_by_value (x : Position) (l : list Position) : list Position :=
  match l with
  | [] => [x]
  | y :: l' =>
      if Dec.lessThan (p_marketValue y) (p_marketValue x) then x :: y :: l'
      else y :: insert_by_value x l'
  end.

Definition sort_by_value (l : list Position) : list Position :=
  fold_left (fun acc x => insert_by_value x acc) l [].

Definition enrichPositions (marketData : list MarketData) (instruments : list Instrument)
  (cs : list PositionCalculation) : list Position :=
  sort_by_value
    (fold_right (fun c acc => match enrich_one marketData instruments c with
                              | Some p => p :: acc
                              | None => acc
                              end) [] cs).

Record Portfolio := mkPortfolio {
  pf_userId : Z;
  pf_totalBalance : Q;
  pf_availableCash : Q;
  pf_positions : list Position
}.

(** [getUserPortfolio]. *)
Definition getUserPortfolio (u : Z) : M Portfolio :=
  user <- findUserById u ;;
  if negb user then
    throw (NotFoundError ("User with ID " ++ Z_to_string u ++ " not found"))
  else
    orders <- getFilledOrdersByUserId u ;;
    availableCash <- getUserAvailableCash u ARS_INSTRUMENT_ID ;;
    let stockOrders := filter (fun o => negb (o_instrumentId o =? ARS_INSTRUMENT_ID)) orders in
    match calculatePositions stockOrders with
    | [] => ret (mkPortfolio u (Double.to_number availableCash) (Double.to_number availableCash) [])
    | positionCalculations =>
        s <- get_db ;;
        let enriched := enrichPositions (db_marketdata s) (db_instruments s)
                          positionCalculations in
        let portfolioValue :=
          fold_left (fun sum p => Double.to_number (Dec.plus sum (p_marketValue p)))
            enriched 0%Q in
        ret (mkPortfolio u (Double.to_number (Dec.plus availableCash portfolioValue))
               (Double.to_number availableCash) enriched)
    end.

End PortfolioService.

(** * Properties *)

Import OrderService.

(** ** General facts about the ledger insertion and the monad *)

Definition inserted_row (s : DB) (f : Repo.OrderFields) (p : Q) : Order :=
  mkOrder (db_next_id s) (Repo.f_instrumentId f) (Repo.f_userId f) (Repo.f_size f)
    (numeric_12_2 p) (Repo.f_type f) (Repo.f_side f) (Repo.f_status f) (db_now s).

Definition after_insert (s : DB) (o : Order) : DB :=
  mkDB (db_users s) (db_instruments s) (db_marketdata s) (db_orders s ++ [o])
    (db_next_id s + 1) (db_now s).

(** ** Claim-side notions of the order engine *)

(** The execution price of a BUY or SELL input when it can be resolved. *)
Definition execution_price (s : DB) (input : CreateOrderInput) : option Q :=
  match in_type input with
  | MARKET => option_map md_close
                (Repo.latest_market_data (db_marketdata s) (in_instrumentId input))
  | LIMIT => in_price input
  end.

(** The size an input resolves to at execution price [p]. *)
Definition resolved_size (input : CreateOrderInput) (p : Q) : option Z :=
  match in_size input with
  | Some n => Some n
  | None => option_map (fun a => Dec.floor (Dec.dividedBy a p)) (in_amount input)
  end.

Definition status_after_validation (t : OrderType) : OrderStatus :=
  match t with MARKET => FILLED | LIMIT => NEW end.

(** The input with its [price] field replaced. *)
Definition with_price (input : CreateOrderInput) (p : option Q) : CreateOrderInput :=
  mkInput (in_userId input) (in_instrumentId input) (in_side input) (in_type input)
    (in_size input) (in_amount input) p.

(** Whether an order of size [n] at price [p] fits the [orders] columns,
    and the error of its insertion when it does not (the size is bound
    first). *)
Definition insert_fits (n : Z) (p : Q) : bool := Repo.int4_ok n && Repo.numeric_12_2_ok p.

Definition insert_error (n : Z) (p : Q) : AppError :=
  if Repo.int4_ok n then DatabaseError "numeric field overflow" else Repo.int4_input_error n.

Definition undefined_price_error (e : AppError) : Prop :=
  e = DecimalError "[DecimalError] Invalid argument: undefined"
  \/ e = Repo.undefined_numeric_error.

(** The errors a refusal by the engine's own checks raises. *)
Definition rule_error (e : AppError) : Prop :=
  exists msg, e = NotFoundError msg \/ e = BusinessRuleError msg.

(** The ledger after [UPDATE orders SET status = st WHERE id = oid]. *)
Definition after_update (s : DB) (oid : Z) (st : OrderStatus) : DB :=
  mkDB (db_users s) (db_instruments s) (db_marketdata s)
    (map (fun o => if o_id o =? oid then with_status st o else o) (db_orders s))
    (db_next_id s) (db_now s).

(** Newest first, the order of [ORDER BY datetime DESC]. *)
Definition newer_first (a b : Order) : Prop := o_datetime b <= o_datetime a.

(** The rows the page query may return: the user's orders older than the
    cursor. *)
Definition page_candidates (s : DB) (u : Z) (cursor : option Z) : list Order :=
  filter (fun o => (o_userId o =? u) && Repo.cursor_ok cursor o) (db_orders s).

(** The FILLED non-cash orders of a user in replay order. *)
Definition stock_orders (u : Z) (s : DB) : list Order :=
  filter (fun o => negb (o_instrumentId o =? ARS_INSTRUMENT_ID))
    (Repo.filled_orders u (db_orders s)).

(** Oldest first, the order of [ORDER BY datetime ASC]. *)
Definition older_first (a b : Order) : Prop := o_datetime a <= o_datetime b.

(** The replay of one instrument: the loop body applied to that
    instrument's orders only, from quantity 0 and cost 0. *)
Definition instrument_fold (i : Z) (orders : list Order) : PortfolioService.Running :=
  fold_left (fun acc o => PortfolioService.apply_order o acc)
    (filter (fun o => o_instrumentId o =? i) orders) (0, 0%Q).

(** ** Sample data *)

Definition ars_instrument : Instrument := mkInstrument 66 "ARS" "Peso argentino".
Definition ggal : Instrument := mkInstrument 47 "GGAL" "Grupo Financiero Galicia".

(** User 1 has deposited 10000 pesos; GGAL last closed at 150. *)
Definition sample_db : DB :=
  mkDB [1] [ars_instrument; ggal] [mkMarketData 47 150 145 1]
    [mkOrder 1 66 1 10000 1 MARKET CASH_IN FILLED 1] 2 2.

Definition buy_by_amount : CreateOrderInput := mkInput 1 47 BUY MARKET None (Some 1000%Q) None.
Definition cash_in_ars : CreateOrderInput := mkInput 1 66 CASH_IN MARKET (Some 500) None None.
(** A LIMIT BUY of 1 share at 10^10, and one of 10^8 pesos at that price:
    both pass the schema, and 10^10 does not fit [NUMERIC(12, 2)]. *)
Definition limit_buy_overpriced : CreateOrderInput :=
  mkInput 1 47 BUY LIMIT (Some 1) None (Some (inject_Z (10 ^ 10))).
Definition cash_out_limit : CreateOrderInput :=
  mkInput 1 66 CASH_OUT LIMIT (Some 20000) None None.
Definition limit_sell_no_price : CreateOrderInput := mkInput 1 47 SELL LIMIT (Some 1) None None.

(** Three orders of user 1 at times 1, 2 and 3. *)
Definition paged_db : DB :=
  mkDB [1] [ars_instrument; ggal] [mkMarketData 47 150 145 1]
    [mkOrder 1 66 1 10000 1 MARKET CASH_IN FILLED 1;
     mkOrder 2 47 1 5 150 MARKET BUY FILLED 2;
     mkOrder 3 47 1 2 150 MARKET SELL FILLED 3] 4 4.

(** BUY 10 GGAL at 100, then SELL 4 at 120. *)
Definition buy_then_sell : list Order :=
  [mkOrder 2 47 1 10 100 MARKET BUY FILLED 2; mkOrder 3 47 1 4 120 MARKET SELL FILLED 3].

(** BUY 1 at 1, BUY 1 at 1, BUY 1 at 2, then SELL 1: a cost of 4 over 3
    shares. *)
Definition thirds_history : list Order :=
  [mkOrder 2 47 1 1 1 MARKET BUY FILLED 2; mkOrder 3 47 1 1 1 MARKET BUY FILLED 3;
   mkOrder 4 47 1 1 2 MARKET BUY FILLED 4; mkOrder 5 47 1 1 2 MARKET SELL FILLED 5].

Definition ypf : Instrument := mkInstrument 48 "YPF" "YPF S.A.".

(** User 1 bought 5 GGAL and sold 10, then bought 3 YPF. *)
Definition oversold_db : DB :=
  mkDB [1] [ars_instrument; ggal; ypf] [mkMarketData 47 150 145 1; mkMarketData 48 60 50 1]
    [mkOrder 1 66 1 10000 1 MARKET CASH_IN FILLED 1;
     mkOrder 2 47 1 5 100 MARKET BUY FILLED 2;
     mkOrder 3 47 1 10 100 MARKET SELL FILLED 3;
     mkOrder 4 48 1 3 50 MARKET BUY FILLED 4] 5 5.

(** ** Order reads ([OrderRepository.findOrderById], [OrderService.getOrderById]
    and [OrderService.getUserOrders]) *)
Module OrderRead.

(** [SELECT ... FROM orders o JOIN instruments i ON o.instrumentid = i.id
    WHERE o.id = $1], then [rows[0]]: the first ledger row with that id
    whose instrument exists, with the instrument. *)
Fixpoint join_first (oid : Z) (instruments : list Instrument) (orders : list Order)
  : option (Order * Instrument) :=
  match orders with
  | [] => None
  | o :: os =>
      if o_id o =? oid then
        match find (fun x => ins_id x =? o_instrumentId o) instruments with
        | Some ins => Some (o, ins)
        | None => join_first oid instruments os
        end
      else join_first oid instruments os
  end.

Definition findOrderById (oid : Z) : M (option (Order * Instrument)) :=
  fun s => Done (join_first oid (db_instruments s) (db_orders s)) s.

(** [{...order, totalAmount}]: the row, its instrument's ticker and name. *)
Record OrderView := mkOrderView {
  ov_order : Order;
  ov_ticker : string;
  ov_name : string;
  ov_totalAmount : Q
}.

(** [getOrderById]. *)
Definition getOrderById (oid : Z) : M OrderView :=
  row <- findOrderById oid ;;
  match row with
  | None => throw (NotFoundError ("Order with ID " ++ Z_to_string oid ++ " not found"))
  | Some (o, ins) => ret (mkOrderView o (ins_ticker ins) (ins_name ins) (totalAmount o))
  end.

Record UserOrders := mkUserOrders {
  uo_orders : list (Order * Q);
  uo_nextCursor : option Z;
  uo_hasMore : bool
}.

(** [getUserOrders]: each order of the page with its [totalAmount]. *)
Definition getUserOrders (u : Z) (limit cursor : option Z) : M UserOrders :=
  user <- Repo.findUserById u ;;
  if negb user then
    throw (NotFoundError ("User with ID " ++ Z_to_string u ++ " not found"))
  else
    result <- Repo.getOrdersByUserId u limit cursor ;;
    ret (mkUserOrders (map (fun o => (o, totalAmount o)) (Repo.pg_orders result))
           (Repo.pg_nextCursor result) (Repo.pg_hasMore result)).

End OrderRead.

(** ** Request validation ([createOrderSchema], src/unnamed/part_003, with
    [ORDER_LIMITS] of part_014).  A body already has the types of
    [CreateOrderInput]; the checks are those of the fields and of the three
    refinements. *)
Module OrderValidator.

Definition MIN_ORDER_SIZE : Z := 1.
Definition MAX_ORDER_SIZE : Z := 1000000.
Definition MAX_ORDER_AMOUNT : Q := 100000000.

(** [z.number().positive()]. *)
Definition positive (q : Q) : bool := negb (Qle_bool q 0).

Definition is_defined {A} (x : option A) : bool :=
  match x with Some _ => true | None => false end.

Definition createOrderSchema (d : CreateOrderInput) : bool :=
  (0 <? in_userId d) && (0 <? in_instrumentId d)
  && match in_size d with
     | Some n => (MIN_ORDER_SIZE <=? n) && (n <=? MAX_ORDER_SIZE)
     | None => true
     end
  && match in_amount d with
     | Some a => positive a && Qle_bool a MAX_ORDER_AMOUNT
     | None => true
     end
  && match in_price d with Some p => positive p | None => true end
  (* exactly one of [size] and [amount] *)
  && xorb (is_defined (in_size d)) (is_defined (in_amount d))
  (* [type === LIMIT && !price] fails: an absent or zero price *)
  && match in_type d, in_price d with
     | LIMIT, None => false
     | LIMIT, Some p => negb (Qeq_bool p 0)
     | MARKET, _ => true
     end
  (* [type === MARKET && price !== undefined] fails *)
  && match in_type d, in_price d with
     | MARKET, Some _ => false
     | _, _ => true
     end.

End OrderValidator.

(** ** Controllers (src/unnamed/part_012, part_013).  A route parameter is
    the integer [parseInt] gives; a [NaN] is not modelled.  A failure is a
    [ValidationError] of the controller or an error of the service, which
    the error middleware turns into the response. *)
Inductive HttpError :=
| ValidationError (msg : string)
| ServiceError (e : AppError).

Definition lift {A} (r : Outcome A) : HttpError + (A * DB) :=
  match r with
  | Done a s => inr (a, s)
  | Raise e => inl (ServiceError e)
  end.

Module OrdersController.

(** [POST /api/orders]. *)
Definition createOrder (body : CreateOrderInput) (s : DB)
  : HttpError + (OrderResponse * DB) :=
  if OrderValidator.createOrderSchema body then lift (executeOrder body s)
  else inl (ValidationError "Invalid order data").

(** [GET /api/orders/:orderId]. *)
Definition getOrder (orderId : Z) (s : DB) : HttpError + (OrderRead.OrderView * DB) :=
  if orderId <=? 0 then inl (ValidationError "Invalid order ID")
  else lift (OrderRead.getOrderById orderId s).

(** [PATCH /api/orders/:orderId/cancel]; [userId] a number of the body. *)
Definition cancelOrder (orderId userId : Z) (s : DB) : HttpError + (CancelResponse * DB) :=
  if orderId <=? 0 then inl (ValidationError "Invalid order ID")
  else if userId <=? 0 then inl (ValidationError "Valid userId is required")
  else lift (OrderService.cancelOrder orderId userId s).

End OrdersController.

Module UsersController.

(** [GET /api/users/:userId/portfolio]. *)
Definition getPortfolio (userId : Z) (s : DB)
  : HttpError + (PortfolioService.Portfolio * DB) :=
  if userId <=? 0 then inl (ValidationError "Invalid user ID")
  else lift (PortfolioService.getUserPortfolio userId s).

(** [GET /api/users/:userId/orders?limit&cursor]. *)
Definition getUserOrders (userId : Z) (limit cursor : option Z) (s : DB)
  : HttpError + (OrderRead.UserOrders * DB) :=
  if userId <=? 0 then inl (ValidationError "Invalid user ID")
  else if match limit with Some l => (l <=? 0) || (200 <? l) | None => false end
  then inl (ValidationError "Invalid limit. Must be between 1 and 200")
  else lift (OrderRead.getUserOrders userId limit cursor s).

End UsersController.

(** ** Instrument search pattern ([searchStockInstruments], src/unnamed/part_008)

    [replace(/[%_\\]/g, '\\$&')] puts a backslash before each LIKE wildcard
    and before the escape character itself; [toUpperCase()] follows, and the
    query compares [UPPER(i.ticker)] and [UPPER(i.name)] with the pattern.
    Strings are byte strings and the case mapping is the ASCII one (the one
    of both JavaScript and PostgreSQL on ASCII text). *)
Module InstrumentSearch.

Section Text.

(** The characters of a query and of a column value (code points), their
    equality, the three characters [LIKE] treats specially, JavaScript's
    upper case of one character (one or more characters: [ß] gives [SS];
    [toUpperCase] does not depend on the locale or on the neighbouring
    characters) and PostgreSQL's [UPPER], which follows the collation of
    the database and need not agree with JavaScript's. *)
Variable char : Type.
Variable char_eqb : char -> char -> bool.
Variables percent underscore backslash : char.
Variable upper_js : char -> list char.
Variable UPPER : list char -> list char.

Definition is_like_special (c : char) : bool :=
  char_eqb c percent || char_eqb c underscore || char_eqb c backslash.

(** [_searchQuery.replace(/[%_\\]/g, '\\$&')]. *)
Fixpoint escape_like (q : list char) : list char :=
  match q with
  | [] => []
  | c :: q' =>
      if is_like_special c then backslash :: c :: escape_like q'
      else c :: escape_like q'
  end.

(** [String.prototype.toUpperCase]. *)
Fixpoint toUpperCase (s : list char) : list char :=
  match s with
  | [] => []
  | c :: s' => upper_js c ++ toUpperCase s'
  end.

(** [`%${escapedQuery.toUpperCase()}%`]. *)
Definition search_term (q : list char) : list char :=
  percent :: toUpperCase (escape_like q) ++ [percent].

(** PostgreSQL [LIKE] with the default escape character [\]: [%] matches
    any sequence, [_] any one character, [\c] the character [c]; the whole
    text must match.  A pattern ending in a lone [\] is an error of
    PostgreSQL, a non-match here (the patterns above never end so). *)
Fixpoint like (p t : list char) {struct p} : bool :=
  match p with
  | [] => match t with [] => true | _ :: _ => false end
  | c :: p' =>
      if char_eqb c percent then
        (fix any (t : list char) : bool :=
           like p' t || match t with [] => false | _ :: t' => any t' end) t
      else if char_eqb c underscore then
        match t with [] => false | _ :: t' => like p' t' end
      else if char_eqb c backslash then
        match p' with
        | [] => false
        | e :: p'' =>
            match t with
            | d :: t' => char_eqb e d && like p'' t'
            | [] => false
            end
        end
      else
        match t with
        | d :: t' => char_eqb c d && like p' t'
        | [] => false
        end
  end.

(** The condition [UPPER(column) LIKE $2] for one column value. *)
Definition column_matches (q column : list char) : bool :=
  like (search_term q) (UPPER column).

End Text.

(** One instance of the case maps: ASCII letters only. *)
Definition upper_ascii (c : ascii) : ascii :=
  let n := N_of_ascii c in
  if (97 <=? n)%N && (n <=? 122)%N then ascii_of_N (n - 32) else c.

End InstrumentSearch.

(** ** Ledger invariants *)

(** The [orders.id] primary key is unique and below the next value of
    its sequence. *)
Definition ids_fresh (s : DB) : Prop :=
  NoDup (map o_id (db_orders s)) /\ Forall (fun o => o_id o < db_next_id s) (db_orders s).

(** Larger market value first, the order of [b.marketValue - a.marketValue]. *)
Definition value_first (a b : PortfolioService.Position) : Prop :=
  (PortfolioService.p_marketValue b <= PortfolioService.p_marketValue a)%Q.

(** A whole number of cents. *)
Definition in_cents (q : Q) : Prop := exists m, (q == inject_Z m / 100)%Q.

Lemma createOrder_PDec (f : Repo.OrderFields) (p : Q) (s : DB) :
  Repo.f_price f = PDec p ->
  Repo.int4_ok (Repo.f_size f) = true -> Repo.numeric_12_2_ok p = true ->
  Repo.createOrder f s = Done (inserted_row s f p) (after_insert s (inserted_row s f p)).
Proof.
  intros H Hn Hp. unfold Repo.createOrder. rewrite Hn, H, Hp. reflexivity.
Qed.

(** The insertion of a size that does not fit its column fails first. *)
Lemma createOrder_bad_size (f : Repo.OrderFields) (s : DB) :
  Repo.int4_ok (Repo.f_size f) = false ->
  Repo.createOrder f s = Raise (Repo.int4_input_error (Repo.f_size f)).
Proof. intros Hn. unfold Repo.createOrder. rewrite Hn. reflexivity. Qed.

Lemma createOrder_bad_price (f : Repo.OrderFields) (p : Q) (s : DB) :
  Repo.f_price f = PDec p ->
  Repo.int4_ok (Repo.f_size f) = true -> Repo.numeric_12_2_ok p = false ->
  Repo.createOrder f s = Raise (DatabaseError "numeric field overflow").
Proof. intros H Hn Hp. unfold Repo.createOrder. rewrite Hn, H, Hp. reflexivity. Qed.

Lemma createOrder_fits (f : Repo.OrderFields) (p : Q) (s : DB) :
  Repo.f_price f = PDec p -> insert_fits (Repo.f_size f) p = true ->
  Repo.createOrder f s = Done (inserted_row s f p) (after_insert s (inserted_row s f p)).
Proof.
  intros H Hf. apply andb_true_iff in Hf. destruct Hf as [Hn Hp].
  apply createOrder_PDec; assumption.
Qed.

Lemma createOrder_misfit (f : Repo.OrderFields) (p : Q) (s : DB) :
  Repo.f_price f = PDec p -> insert_fits (Repo.f_size f) p = false ->
  Repo.createOrder f s = Raise (insert_error (Repo.f_size f) p).
Proof.
  intros H Hf. unfold insert_fits in Hf. unfold insert_error.
  destruct (Repo.int4_ok (Repo.f_size f)) eqn:Hn.
  - simpl in Hf. apply (createOrder_bad_price f p); assumption.
  - apply createOrder_bad_size; assumption.
Qed.

Lemma lessThan_iff (a b : Q) : Dec.lessThan a b = true <-> (a < b)%Q.
Proof.
  unfold Dec.lessThan. rewrite negb_true_iff. split.
  - intros H. apply Qnot_le_lt. intros Hle. apply Qle_bool_iff in Hle. congruence.
  - intros H. destruct (Qle_bool b a) eqn:E; [|reflexivity].
    apply Qle_bool_iff in E. exfalso. apply (Qlt_not_le _ _ H E).
Qed.

Lemma findUser_In (u : Z) (us : list Z) : In u us -> existsb (Z.eqb u) us = true.
Proof.
  intros H. apply existsb_exists. exists u. split; [exact H | apply Z.eqb_refl].
Qed.

Lemma dividedBy_zero (a p : Q) : Qeq_bool p 0 = true -> Dec.floor (Dec.dividedBy a p) = 0.
Proof.
  intros H. apply Qeq_bool_iff in H. destruct p as [pn pd]. unfold Qeq in H. simpl in H.
  assert (pn = 0) by lia. subst pn.
  destruct a as [an ad].
  unfold Dec.floor, Dec.dividedBy, Dec.round_sig, Qdiv, Qmult. simpl.
  rewrite Z.mul_0_r. reflexivity.
Qed.

Lemma validateAndCreate_PDec (input : CreateOrderInput) (n : Z) (p : Q) (s : DB) :
  in_side input = BUY \/ in_side input = SELL ->
  let rejected :=
    match in_side input with
    | BUY => Dec.lessThan (Repo.available_cash (in_userId input) ARS_INSTRUMENT_ID (db_orders s))
               (Dec.times (inject_Z n) p)
    | _ => Repo.position_of (in_userId input) (in_instrumentId input) (db_orders s) <? n
    end in
  let f := fields_of input n (PDec p)
             (if rejected then REJECTED else status_after_validation (in_type input)) in
  insert_fits n p = true ->
  validateAndCreate input n (PDec p) s
  = Done (respond (inserted_row s f p)) (after_insert s (inserted_row s f p)).
Proof.
  intros Hside rejected f Hfit. subst rejected f.
  destruct Hside as [Hs | Hs]; unfold validateAndCreate, validateOrder, bind, ret;
    rewrite Hs; cbn -[Dec.lessThan Dec.times Z.ltb Repo.createOrder];
    [ destruct (Dec.lessThan _ _) | destruct (_ <? n) ];
    (rewrite createOrder_fits with (p := p); [reflexivity | reflexivity | exact Hfit]).
Qed.

Lemma validateAndCreate_misfit (input : CreateOrderInput) (n : Z) (p : Q) (s : DB) :
  in_side input = BUY \/ in_side input = SELL ->
  insert_fits n p = false ->
  validateAndCreate input n (PDec p) s = Raise (insert_error n p).
Proof.
  intros Hside Hfit.
  destruct Hside as [Hs | Hs]; unfold validateAndCreate, validateOrder, bind, ret;
    rewrite Hs; cbn -[Dec.lessThan Dec.times Z.ltb Repo.createOrder];
    [ destruct (Dec.lessThan _ _) | destruct (_ <? n) ];
    (rewrite createOrder_misfit with (p := p); [reflexivity | reflexivity | exact Hfit]).
Qed.

Lemma executeStockOrder_resolved (input : CreateOrderInput) (p : Q) (n : Z) (s : DB) :
  resolved_size input p = Some n -> n <> 0 ->
  executeStockOrder input (PDec p) s = validateAndCreate input n (PDec p) s.
Proof.
  intros Hn Hn0. unfold resolved_size in Hn. unfold executeStockOrder.
  destruct (in_size input) as [m|].
  - injection Hn as <-. reflexivity.
  - destruct (in_amount input) as [a|]; [|discriminate]. simpl in Hn. injection Hn as Hn.
    unfold bind, decimal_of_amount, decimal_of_text, ret.
    destruct (Qeq_bool p 0) eqn:Hp.
    + exfalso. rewrite (dividedBy_zero a p Hp) in Hn. lia.
    + rewrite Hn. destruct (n =? 0) eqn:E; [apply Z.eqb_eq in E; lia | reflexivity].
Qed.

(** A BUY or SELL input of an existing user and instrument whose
    execution price resolves reaches [executeStockOrder] at that price. *)
Lemma executeOrder_stock_path (input : CreateOrderInput) (p : Q) (s : DB) (ins : Instrument) :
  in_side input = BUY \/ in_side input = SELL ->
  In (in_userId input) (db_users s) ->
  find (fun x => ins_id x =? in_instrumentId input) (db_instruments s) = Some ins ->
  execution_price s input = Some p ->
  executeOrder input s = executeStockOrder input (PDec p) s.
Proof.
  intros Hside Hu Hins Hp.
  unfold executeOrder, transaction, bind, ret, Repo.findUserById, Repo.findInstrumentById,
    Repo.getLatestMarketDataForInstrument.
  rewrite (findUser_In _ _ Hu). change (negb true) with false. cbv beta iota.
  rewrite Hins. cbv beta iota.
  assert (Hcash : (OrderSide_beq (in_side input) CASH_IN
                   || OrderSide_beq (in_side input) CASH_OUT) = false)
    by (destruct Hside as [-> | ->]; reflexivity).
  rewrite Hcash. unfold execution_price in Hp.
  destruct (in_type input).
  - destruct (Repo.latest_market_data _ _) as [md|]; [|discriminate].
    injection Hp as <-.
    destruct (executeStockOrder input (PDec (md_close md)) s); reflexivity.
  - unfold price_text. rewrite Hp.
    destruct (executeStockOrder input (PDec p) s); reflexivity.
Qed.

(** ** C2: outcome of a BUY or SELL order *)

(** Claim C2 (amended).  For a BUY or SELL input of an existing user and
    instrument whose execution price [p] resolves and whose resolved size
    [n] is at least 1: when [n] fits the INTEGER [size] column and [p]
    rounded to cents fits the NUMERIC(12, 2) [price] column,
    [executeOrder] returns normally and appends one order of size [n]; its
    status is REJECTED exactly when (BUY and [n × p] exceeds the available
    cash read inside the transaction) or (SELL and [n] exceeds the position
    read inside the transaction); otherwise it is FILLED for a MARKET and
    NEW for a LIMIT order.  [×] is Decimal.js [times].  When [n] or [p] does
    not fit, the insertion fails with a database error, whatever the
    validation decided, and nothing is persisted. *)
Theorem executeOrder_stock_status (s : DB) (input : CreateOrderInput) (ins : Instrument)
  (p : Q) (n : Z) :
  in_side input = BUY \/ in_side input = SELL ->
  In (in_userId input) (db_users s) ->
  find (fun x => ins_id x =? in_instrumentId input) (db_instruments s) = Some ins ->
  execution_price s input = Some p ->
  resolved_size input p = Some n ->
  1 <= n ->
  (insert_fits n p = true ->
   exists resp s',
     executeOrder input s = Done resp s' /\
     db_orders s' = db_orders s ++ [r_order resp] /\
     o_size (r_order resp) = n /\
     (o_status (r_order resp) = REJECTED <->
        (in_side input = BUY /\
         (Repo.available_cash (in_userId input) ARS_INSTRUMENT_ID (db_orders s)
          < Dec.times (inject_Z n) p)%Q) \/
        (in_side input = SELL /\
         Repo.position_of (in_userId input) (in_instrumentId input) (db_orders s) < n)) /\
     (o_status (r_order resp) <> REJECTED ->
        o_status (r_order resp) = status_after_validation (in_type input))) /\
  (insert_fits n p = false -> executeOrder input s = Raise (insert_error n p)).
Proof.
  intros Hside Hu Hins Hp Hn Hn1.
  rewrite (executeOrder_stock_path input p s ins Hside Hu Hins Hp).
  rewrite (executeStockOrder_resolved input p n s Hn ltac:(lia)).
  split; [|intros Hfit; exact (validateAndCreate_misfit input n p s Hside Hfit)].
  intros Hfit.
  rewrite (validateAndCreate_PDec input n p s Hside Hfit).
  eexists. eexists. split; [reflexivity|].
  cbn [r_order respond inserted_row o_size o_status fields_of Repo.f_size Repo.f_status
       after_insert db_orders].
  split; [reflexivity|]. split; [reflexivity|].
  destruct Hside as [Hs | Hs]; rewrite Hs.
  - destruct (Dec.lessThan _ _) eqn:E; split.
    + apply lessThan_iff in E. split; [intros _; left; auto | intros _; reflexivity].
    + intros H; congruence.
    + split.
      * unfold status_after_validation. destruct (in_type input); discriminate.
      * intros [[_ H] | [H _]]; [apply lessThan_iff in H; congruence | discriminate].
    + intros _; reflexivity.
  - destruct (_ <? n) eqn:E; split.
    + apply Z.ltb_lt in E. split; [intros _; right; auto | intros _; reflexivity].
    + intros H; congruence.
    + split.
      * unfold status_after_validation. destruct (in_type input); discriminate.
      * intros [[H _] | [_ H]]; [discriminate | apply Z.ltb_lt in H; congruence].
    + intros _; reflexivity.
Qed.

(** ** Cash operations *)

Lemma executeOrder_cash_path (input : CreateOrderInput) (s : DB) (ins : Instrument) :
  in_side input = CASH_IN \/ in_side input = CASH_OUT ->
  In (in_userId input) (db_users s) ->
  find (fun x => ins_id x =? in_instrumentId input) (db_instruments s) = Some ins ->
  executeOrder input s = executeCashOperation input s.
Proof.
  intros Hside Hu Hins.
  unfold executeOrder, transaction, bind, ret, Repo.findUserById, Repo.findInstrumentById.
  rewrite (findUser_In _ _ Hu). change (negb true) with false. cbv beta iota.
  rewrite Hins. cbv beta iota.
  assert (Hcash : (OrderSide_beq (in_side input) CASH_IN
                   || OrderSide_beq (in_side input) CASH_OUT) = true)
    by (destruct Hside as [-> | ->]; reflexivity).
  rewrite Hcash. destruct (executeCashOperation input s); reflexivity.
Qed.

Lemma cash_size_step (input : CreateOrderInput) (n : Z) (s : DB) :
  resolved_size input 1 = Some n ->
  (match in_size input with
   | Some n0 => ret n0
   | None => a <- decimal_of_amount (in_amount input) ;; ret (Dec.floor (Dec.dividedBy a 1))
   end) s = Done n s.
Proof.
  intros Hn. unfold resolved_size in Hn. destruct (in_size input) as [m|].
  - injection Hn as <-. reflexivity.
  - destruct (in_amount input) as [a|]; [|discriminate]. injection Hn as <-. reflexivity.
Qed.

Lemma executeCashOperation_ars (input : CreateOrderInput) (n : Z) (s : DB) :
  in_instrumentId input = ARS_INSTRUMENT_ID ->
  resolved_size input 1 = Some n ->
  Repo.int4_ok n = true ->
  let rejected :=
    OrderSide_beq (in_side input) CASH_OUT
    && Dec.lessThan (Repo.available_cash (in_userId input) ARS_INSTRUMENT_ID (db_orders s))
         (Dec.times (inject_Z n) 1) in
  let f :=
    if rejected
    then Repo.mkFields ARS_INSTRUMENT_ID (in_userId input) n (PDec 1) MARKET CASH_OUT REJECTED
    else Repo.mkFields (in_instrumentId input) (in_userId input) n (PDec 1) (in_type input)
           (in_side input) FILLED in
  executeCashOperation input s
  = Done (respond (inserted_row s f 1)) (after_insert s (inserted_row s f 1)).
Proof.
  intros Hars Hn Hfit rejected f. subst rejected f.
  unfold executeCashOperation. rewrite Hars. change (negb (ARS_INSTRUMENT_ID =? ARS_INSTRUMENT_ID)) with false.
  cbv iota.
  unfold bind at 1. rewrite (cash_size_step input n s Hn).
  destruct (in_side input); unfold bind, ret, validateCashOutFunds, bind, ret;
    cbn -[Dec.lessThan Dec.times Repo.createOrder];
    try (destruct (Dec.lessThan _ _));
    (rewrite createOrder_PDec with (p := 1%Q); [reflexivity | reflexivity | exact Hfit | reflexivity]).
Qed.

(** A cash operation whose size does not fit the INTEGER column fails. *)
Lemma executeCashOperation_ars_misfit (input : CreateOrderInput) (n : Z) (s : DB) :
  in_instrumentId input = ARS_INSTRUMENT_ID ->
  resolved_size input 1 = Some n ->
  Repo.int4_ok n = false ->
  executeCashOperation input s = Raise (Repo.int4_input_error n).
Proof.
  intros Hars Hn Hfit.
  unfold executeCashOperation. rewrite Hars. change (negb (ARS_INSTRUMENT_ID =? ARS_INSTRUMENT_ID)) with false.
  cbv iota.
  unfold bind at 1. rewrite (cash_size_step input n s Hn).
  destruct (in_side input); unfold bind, ret, validateCashOutFunds, bind, ret;
    cbn -[Dec.lessThan Dec.times Repo.createOrder];
    try (destruct (Dec.lessThan _ _));
    (rewrite createOrder_bad_size; [reflexivity | exact Hfit]).
Qed.

Lemma numeric_12_2_one : numeric_12_2 1 = 1%Q.
Proof. reflexivity. Qed.

(** ** BUY and SELL orders sized by an amount *)


(** ** LIMIT orders without a price *)

Lemma executeStockOrder_undefined (input : CreateOrderInput) (s : DB) :
  in_side input = BUY \/ in_side input = SELL ->
  exists e, executeStockOrder input PUndefined s = Raise e /\
    (undefined_price_error e \/
     exists n, in_size input = Some n /\ Repo.int4_ok n = false /\ e = Repo.int4_input_error n).
Proof.
  intros Hside. unfold executeStockOrder, undefined_price_error.
  destruct (in_size input) as [n|].
  - unfold validateAndCreate, validateOrder, bind, ret.
    destruct Hside as [Hs | Hs]; rewrite Hs; cbn -[Z.ltb Repo.createOrder].
    + eexists; split; [reflexivity | left; left; reflexivity].
    + unfold Repo.createOrder. cbn -[Z.ltb Repo.int4_ok Repo.int4_input_error].
      destruct (Repo.int4_ok n) eqn:Hn; destruct (_ <? n); cbn;
        eexists; (split; [reflexivity|]).
      all: first [left; right; reflexivity | right; exists n; auto].
  - unfold bind, decimal_of_amount. destruct (in_amount input) as [a|];
      eexists; (split; [reflexivity | left; left; reflexivity]).
Qed.

(** ** Requests that pass [createOrderSchema] *)

Lemma positive_spec (q : Q) : OrderValidator.positive q = true <-> (0 < q)%Q.
Proof.
  unfold OrderValidator.positive. rewrite negb_true_iff. split.
  - intros H. apply Qnot_le_lt. intros Hle. apply Qle_bool_iff in Hle. congruence.
  - intros H. destruct (Qle_bool q 0) eqn:E; [|reflexivity].
    apply Qle_bool_iff in E. exfalso. exact (Qlt_not_le _ _ H E).
Qed.

Lemma schema_facts (d : CreateOrderInput) :
  OrderValidator.createOrderSchema d = true ->
  0 < in_userId d /\ 0 < in_instrumentId d /\
  (forall n, in_size d = Some n -> 1 <= n <= 1000000) /\
  (forall a, in_amount d = Some a -> (0 < a)%Q /\ (a <= 100000000)%Q) /\
  (in_size d = None -> exists a, in_amount d = Some a) /\
  (in_type d = LIMIT -> exists p, in_price d = Some p /\ (0 < p)%Q) /\
  (in_type d = MARKET -> in_price d = None).
Proof.
  intros H. unfold OrderValidator.createOrderSchema in H.
  destruct d as [u i sd t sz am pr]; simpl in *.
  rewrite !andb_true_iff in H.
  destruct H as [[[[[[[Hu Hi] Hsz] Ham] Hpr] Hx] Hl] Hm].
  apply Z.ltb_lt in Hu. apply Z.ltb_lt in Hi.
  split; [exact Hu|]. split; [exact Hi|]. split.
  { intros n E. subst sz. apply andb_true_iff in Hsz. destruct Hsz as [H1 H2].
    apply Z.leb_le in H1. apply Z.leb_le in H2. unfold OrderValidator.MIN_ORDER_SIZE,
      OrderValidator.MAX_ORDER_SIZE in *. lia. }
  split.
  { intros a E. subst am. apply andb_true_iff in Ham. destruct Ham as [H1 H2].
    apply positive_spec in H1. apply Qle_bool_iff in H2. auto. }
  split.
  { intros E. subst sz. destruct am as [a|]; [eauto|discriminate]. }
  split.
  { intros E. subst t. destruct pr as [p|]; [|discriminate].
    exists p. split; [reflexivity|]. apply positive_spec. exact Hpr. }
  intros E. subst t. destruct pr; [discriminate|reflexivity].
Qed.

(** ** Sizes derived from an amount *)

Lemma of_scaled_nonneg (m k : Z) : 0 <= m -> (0 <= Dec.of_scaled m k)%Q.
Proof.
  intros Hm. unfold Dec.of_scaled. destruct (0 <=? k).
  - rewrite Qred_correct. unfold Qle. simpl. lia.
  - unfold Qle. simpl. assert (0 <= 10 ^ (- k)) by (apply Z.pow_nonneg; lia). nia.
Qed.

Lemma scale_nonneg (n d k : Z) :
  0 <= n -> 0 < d -> 0 <= fst (Dec.scale n d k) /\ 0 < snd (Dec.scale n d k).
Proof.
  intros Hn Hd. unfold Dec.scale. destruct (0 <=? k) eqn:Hk; simpl.
  - apply Z.leb_le in Hk. split; [|exact Hd]. apply Z.mul_nonneg_nonneg; [exact Hn|].
    apply Z.pow_nonneg; lia.
  - split; [exact Hn|]. apply Z.mul_pos_pos; [exact Hd|]. apply Z.pow_pos_nonneg; lia.
Qed.

Lemma round_sig_nonneg (x : Q) : (0 <= x)%Q -> (0 <= Dec.round_sig x)%Q.
Proof.
  intros Hx. destruct x as [n d]. unfold Qle in Hx. simpl in Hx.
  unfold Dec.round_sig. simpl. destruct (n =? 0) eqn:E; [apply Qle_refl|].
  apply Z.eqb_neq in E.
  destruct (Dec.scale (Z.abs n) (Z.pos d) (Dec.sig_shift (Z.abs n) (Z.pos d))) as [a b] eqn:Hs.
  assert (Hab : 0 <= a /\ 0 < b).
  { pose proof (scale_nonneg (Z.abs n) (Z.pos d) (Dec.sig_shift (Z.abs n) (Z.pos d))
                  ltac:(lia) ltac:(lia)) as Hsc.
    rewrite Hs in Hsc. exact Hsc. }
  apply of_scaled_nonneg. rewrite Z.sgn_pos by lia. rewrite Z.mul_1_l.
  unfold Dec.round_half_up_pos. apply Z.div_pos; lia.
Qed.

Lemma floor_nonneg (x : Q) : (0 <= x)%Q -> 0 <= Dec.floor x.
Proof.
  intros Hx. destruct x as [n d]. unfold Qle in Hx. simpl in Hx.
  unfold Dec.floor, Qfloor. apply Z.div_pos; lia.
Qed.

Lemma amount_size_nonneg (a p : Q) : (0 < a)%Q -> (0 < p)%Q -> 0 <= Dec.floor (Dec.dividedBy a p).
Proof.
  intros Ha Hp. apply floor_nonneg, round_sig_nonneg.
  apply Qle_shift_div_l; [exact Hp|]. rewrite Qmult_0_l. apply Qlt_le_weak. exact Ha.
Qed.

Lemma log10_fuel_spec (fuel : nat) (n : Z) :
  1 <= n -> n < 10 ^ Z.of_nat fuel ->
  0 <= Dec.log10_fuel fuel n /\
  10 ^ Dec.log10_fuel fuel n <= n < 10 ^ (Dec.log10_fuel fuel n + 1).
Proof.
  revert n. induction fuel as [|f IH]; intros n H1 H2.
  - simpl in H2. lia.
  - cbn [Dec.log10_fuel]. destruct (n <? 10) eqn:E.
    + apply Z.ltb_lt in E. simpl. lia.
    + apply Z.ltb_ge in E.
      rewrite Nat2Z.inj_succ, Z.pow_succ_r in H2 by lia.
      pose proof (Z.div_mod n 10 ltac:(lia)) as Hdm.
      pose proof (Z.mod_pos_bound n 10 ltac:(lia)) as Hmb.
      assert (Hq1 : 1 <= n / 10) by lia.
      assert (Hq2 : n / 10 < 10 ^ Z.of_nat f) by lia.
      destruct (IH (n / 10) Hq1 Hq2) as (H0 & Hlo & Hhi).
      set (L := Dec.log10_fuel f (n / 10)) in *.
      rewrite Z.pow_add_r in Hhi by lia.
      rewrite <- Z.add_assoc, !Z.pow_add_r by lia. simpl (10 ^ 1) in *.
      lia.
Qed.

Lemma log10_spec (n : Z) :
  1 <= n -> 0 <= Dec.log10 n /\ 10 ^ Dec.log10 n <= n < 10 ^ (Dec.log10 n + 1).
Proof.
  intros Hn. unfold Dec.log10. pose proof (Z.log2_nonneg n) as Hl.
  apply log10_fuel_spec; [exact Hn|].
  rewrite Z2Nat.id by lia.
  destruct (Z.log2_spec n ltac:(lia)) as [_ H]. rewrite <- Z.add_1_r in H.
  eapply Z.lt_le_trans; [exact H|]. apply Z.pow_le_mono_l. lia.
Qed.

(** For [n / d <= 10^8] the 20 significant digits reach below the unit. *)
Lemma sig_shift_nonneg (n d : Z) :
  1 <= n -> 1 <= d -> n <= 100000000 * d -> 0 <= Dec.sig_shift n d.
Proof.
  intros Hn Hd Hnd.
  destruct (log10_spec n Hn) as (Ln0 & Ln1 & Ln2).
  destruct (log10_spec d Hd) as (Ld0 & Ld1 & Ld2).
  assert (Hlt : Dec.log10 n < Dec.log10 d + 9).
  { apply (Z.pow_lt_mono_r_iff 10); [lia | lia |].
    rewrite Z.pow_add_r in Ld2 |- * by lia. simpl (10 ^ 1) in Ld2.
    change (10 ^ 9) with 1000000000. lia. }
  unfold Dec.sig_shift. destruct (Dec.scale _ _ _) as [a b]. destruct (_ <=? _); lia.
Qed.

Lemma round_sig_floor_le (x : Q) :
  (0 < x)%Q -> (x <= inject_Z 100000000)%Q -> Dec.floor (Dec.round_sig x) <= 100000000.
Proof.
  intros H0 H1. destruct x as [n d]. unfold Qlt, Qle in *. simpl in H0, H1.
  unfold Dec.round_sig. cbn [Qnum Qden].
  destruct (n =? 0) eqn:E; [apply Z.eqb_eq in E; lia|].
  pose proof (sig_shift_nonneg (Z.abs n) (Z.pos d) ltac:(lia) ltac:(lia) ltac:(lia)) as Hk.
  set (k := Dec.sig_shift (Z.abs n) (Z.pos d)) in *.
  unfold Dec.scale. destruct (0 <=? k) eqn:Ek; [|apply Z.leb_gt in Ek; lia].
  rewrite Z.abs_eq, Z.sgn_pos, Z.mul_1_l by lia.
  unfold Dec.of_scaled. rewrite Ek. unfold Dec.floor.
  rewrite (Qfloor_comp _ _ (Qred_correct _)).
  assert (HK : 0 < 10 ^ k) by (apply Z.pow_pos_nonneg; lia).
  unfold Qfloor. cbn [Qnum Qden]. rewrite Z2Pos.id by exact HK.
  apply Z.div_le_upper_bound; [exact HK|].
  unfold Dec.round_half_up_pos.
  set (r := (2 * (n * 10 ^ k) + Z.pos d) / (2 * Z.pos d)).
  pose proof (Z.mul_div_le (2 * (n * 10 ^ k) + Z.pos d) (2 * Z.pos d) ltac:(lia)) as Hr.
  fold r in Hr.
  assert (HnK : n * 10 ^ k <= 100000000 * Z.pos d * 10 ^ k) by nia.
  nia.
Qed.

Lemma schema_cash_size_fits (input : CreateOrderInput) (n : Z) :
  OrderValidator.createOrderSchema input = true ->
  resolved_size input 1 = Some n -> Repo.int4_ok n = true.
Proof.
  intros Hs Hn. destruct (schema_facts input Hs) as (_ & _ & Hsz & Ham & _).
  assert (Hb : 0 <= n <= 100000000).
  { unfold resolved_size in Hn. destruct (in_size input) as [m|].
    - injection Hn as <-. specialize (Hsz m eq_refl). lia.
    - destruct (in_amount input) as [a|]; [|discriminate]. injection Hn as <-.
      destruct (Ham a eq_refl) as [Ha0 Ha1].
      split; [apply (amount_size_nonneg a 1 Ha0); reflexivity|].
      assert (Ha : (a / 1 == a)%Q) by (unfold Qdiv; apply Qmult_1_r).
      apply round_sig_floor_le; rewrite Ha; [exact Ha0 | exact Ha1]. }
  unfold Repo.int4_ok. apply andb_true_iff. split; apply Z.leb_le; lia.
Qed.

(** ** C4: cash operations *)

(** Claim C4.  For a CASH_IN or CASH_OUT input of an existing user and
    an existing instrument: if the instrument is not the cash instrument
    (ID 66), [executeOrder] fails with a BusinessRule error; otherwise, with
    size [n] the given size or [floor(amount ÷ 1)], it returns normally and
    appends one order of size [n] and price 1, which is REJECTED exactly
    when the side is CASH_OUT and the available cash read inside the
    transaction is below [n × 1], and FILLED otherwise; it is never NEW.
    This holds for every [n] that fits the INTEGER [size] column, and so
    for every request that passes [createOrderSchema] (a size of at most
    10^6, an amount of at most 10^8); a larger [n] makes the insertion fail
    and nothing is persisted. *)
Theorem executeOrder_cash_outcome (s : DB) (input : CreateOrderInput) (ins : Instrument) :
  in_side input = CASH_IN \/ in_side input = CASH_OUT ->
  In (in_userId input) (db_users s) ->
  find (fun x => ins_id x =? in_instrumentId input) (db_instruments s) = Some ins ->
  (in_instrumentId input <> ARS_INSTRUMENT_ID ->
     exists msg, executeOrder input s = Raise (BusinessRuleError msg)) /\
  (in_instrumentId input = ARS_INSTRUMENT_ID ->
   forall n, resolved_size input 1 = Some n ->
   (Repo.int4_ok n = true ->
    exists resp s',
      executeOrder input s = Done resp s' /\
      db_orders s' = db_orders s ++ [r_order resp] /\
      o_size (r_order resp) = n /\
      o_price (r_order resp) = 1%Q /\
      (o_status (r_order resp) = REJECTED <->
         in_side input = CASH_OUT /\
         (Repo.available_cash (in_userId input) ARS_INSTRUMENT_ID (db_orders s)
          < Dec.times (inject_Z n) 1)%Q) /\
      (o_status (r_order resp) <> REJECTED -> o_status (r_order resp) = FILLED) /\
      o_status (r_order resp) <> NEW) /\
   (Repo.int4_ok n = false -> executeOrder input s = Raise (Repo.int4_input_error n)) /\
   (OrderValidator.createOrderSchema input = true -> Repo.int4_ok n = true)).
Proof.
  intros Hside Hu Hins.
  rewrite (executeOrder_cash_path input s ins Hside Hu Hins). split.
  - intros Hne. unfold executeCashOperation.
    destruct (in_instrumentId input =? ARS_INSTRUMENT_ID) eqn:E.
    + apply Z.eqb_eq in E. contradiction.
    + eexists. reflexivity.
  - intros Hars n Hn. split; [|split].
    2: { intros Hfit. exact (executeCashOperation_ars_misfit input n s Hars Hn Hfit). }
    2: { intros Hs. exact (schema_cash_size_fits input n Hs Hn). }
    intros Hfit. rewrite (executeCashOperation_ars input n s Hars Hn Hfit).
    eexists. eexists. split; [reflexivity|].
    split; [reflexivity|]. split; [destruct (_ && _); reflexivity|].
    split; [exact numeric_12_2_one|].
    destruct Hside as [Hs | Hs]; rewrite Hs; cbn [OrderSide_beq andb].
    + cbn. split; [split; [discriminate | intros [H _]; discriminate] |].
      split; [reflexivity | discriminate].
    + destruct (Dec.lessThan _ _) eqn:E; cbn.
      * apply lessThan_iff in E. split; [tauto|]. split; [congruence | discriminate].
      * split; [split; [discriminate|] | split; [reflexivity | discriminate]].
        intros [_ H]. apply lessThan_iff in H. congruence.
Qed.

(** ** C9: the kind of a rejected CASH_OUT *)

(** Claim C9.  For a CASH_OUT input of an existing user on the existing
    cash instrument with resolved size [n], the appended row has price 1;
    when it is REJECTED (available cash below [n × 1]) it has kind MARKET,
    whatever kind the input asked for; otherwise it is FILLED with the
    input's kind.  A row is appended for every [n] that fits the INTEGER
    [size] column, which every request passing [createOrderSchema] has;
    a larger [n] appends nothing. *)
Theorem executeOrder_cash_out_kind (s : DB) (input : CreateOrderInput) (ins : Instrument)
  (n : Z) :
  in_side input = CASH_OUT ->
  In (in_userId input) (db_users s) ->
  find (fun x => ins_id x =? in_instrumentId input) (db_instruments s) = Some ins ->
  in_instrumentId input = ARS_INSTRUMENT_ID ->
  resolved_size input 1 = Some n ->
  (Repo.int4_ok n = true ->
   exists resp s',
     executeOrder input s = Done resp s' /\
     db_orders s' = db_orders s ++ [r_order resp] /\
     o_price (r_order resp) = 1%Q /\
     (o_status (r_order resp) = REJECTED <->
        (Repo.available_cash (in_userId input) ARS_INSTRUMENT_ID (db_orders s)
         < Dec.times (inject_Z n) 1)%Q) /\
     (o_status (r_order resp) = REJECTED -> o_type (r_order resp) = MARKET) /\
     (o_status (r_order resp) <> REJECTED ->
        o_status (r_order resp) = FILLED /\ o_type (r_order resp) = in_type input)) /\
  (Repo.int4_ok n = false -> executeOrder input s = Raise (Repo.int4_input_error n)) /\
  (OrderValidator.createOrderSchema input = true -> Repo.int4_ok n = true).
Proof.
  intros Hs Hu Hins Hars Hn.
  rewrite (executeOrder_cash_path input s ins (or_intror Hs) Hu Hins).
  split; [|split].
  2: { intros Hfit. exact (executeCashOperation_ars_misfit input n s Hars Hn Hfit). }
  2: { intros Hsch. exact (schema_cash_size_fits input n Hsch Hn). }
  intros Hfit.
  rewrite (executeCashOperation_ars input n s Hars Hn Hfit).
  eexists. eexists. split; [reflexivity|]. split; [reflexivity|].
  split; [destruct (_ && _); exact numeric_12_2_one|].
  rewrite Hs. cbn [OrderSide_beq andb].
  destruct (Dec.lessThan _ _) eqn:E; cbn.
  - apply lessThan_iff in E. split; [tauto|]. split; [reflexivity | congruence].
  - split; [split; [discriminate | intros H; apply lessThan_iff in H; congruence]|].
    split; [discriminate | split; reflexivity].
Qed.

(** ** C5: BUY and SELL orders sized by an amount *)


(** ** C8: LIMIT orders without a price *)

(** Claim C8 (amended).  [executeOrder] has no guard for a LIMIT input
    without price: for a BUY or SELL LIMIT input of an existing user and
    instrument with no price, the execution price becomes the text
    ["undefined"] and the call fails with the Decimal.js invalid-argument
    error or the database error of inserting ["undefined"] as a price (or,
    for a given size that does not fit the INTEGER column, of inserting that
    size, which is bound first), so nothing is persisted; and the price of a
    MARKET input is ignored. *)
Theorem executeOrder_limit_without_price :
  (forall (s : DB) (input : CreateOrderInput) (ins : Instrument),
     in_type input = LIMIT ->
     in_price input = None ->
     in_side input = BUY \/ in_side input = SELL ->
     In (in_userId input) (db_users s) ->
     find (fun x => ins_id x =? in_instrumentId input) (db_instruments s) = Some ins ->
     exists e, executeOrder input s = Raise e /\
       (undefined_price_error e \/
        exists n, in_size input = Some n /\ Repo.int4_ok n = false /\
                  e = Repo.int4_input_error n)) /\
  (forall (s : DB) (input : CreateOrderInput) (p : option Q),
     in_type input = MARKET ->
     executeOrder (with_price input p) s = executeOrder input s).
Proof.
  split.
  - intros s input ins Ht Hp Hside Hu Hins.
    unfold executeOrder, transaction, bind, ret, Repo.findUserById, Repo.findInstrumentById,
      Repo.getLatestMarketDataForInstrument.
    rewrite (findUser_In _ _ Hu). change (negb true) with false. cbv beta iota.
    rewrite Hins. cbv beta iota.
    assert (Hcash : (OrderSide_beq (in_side input) CASH_IN
                     || OrderSide_beq (in_side input) CASH_OUT) = false)
      by (destruct Hside as [-> | ->]; reflexivity).
    rewrite Hcash, Ht. unfold price_text. rewrite Hp.
    destruct (executeStockOrder_undefined input s Hside) as [e [He Hu']].
    rewrite He. exists e. split; [reflexivity | exact Hu'].
  - intros s [u i sd t sz am pr] p Ht. cbn in Ht. subst t. reflexivity.
Qed.

(** ** Witnesses and counterexamples of the order engine *)

(** C2 at a sample input: a MARKET BUY of 1000 pesos of GGAL at 150 is
    FILLED with size 6. *)
Lemma executeOrder_stock_status_witness :
  exists resp s',
    executeOrder buy_by_amount sample_db = Done resp s' /\
    db_orders s' = db_orders sample_db ++ [r_order resp] /\
    o_size (r_order resp) = 6 /\ o_status (r_order resp) = FILLED.
Proof.
  destruct (executeOrder_stock_status sample_db buy_by_amount ggal 150 6
              (or_introl eq_refl) ltac:(simpl; tauto) eq_refl
              ltac:(vm_compute; reflexivity) ltac:(vm_compute; reflexivity) ltac:(lia))
    as [Hfits _].
  destruct (Hfits ltac:(vm_compute; reflexivity))
    as (resp & s' & E & Hrows & Hsize & Hrej & Hok).
  exists resp, s'. split; [exact E|]. split; [exact Hrows|]. split; [exact Hsize|].
  apply Hok. intros H. apply Hrej in H.
  destruct H as [[_ H] | [H _]]; [|discriminate].
  revert H. vm_compute. discriminate.
Defined.

(** C2 as first stated fails: a LIMIT BUY of 1 share at 10^10 passes the
    schema and costs more than the 10000 pesos of cash, yet it is not
    persisted REJECTED: its insertion overflows the NUMERIC(12, 2) [price]
    column and the request fails. *)
Lemma executeOrder_overpriced_limit_buy_fails :
  OrderValidator.createOrderSchema limit_buy_overpriced = true /\
  execution_price sample_db limit_buy_overpriced = Some (inject_Z (10 ^ 10)) /\
  resolved_size limit_buy_overpriced (inject_Z (10 ^ 10)) = Some 1 /\
  (Repo.available_cash 1 ARS_INSTRUMENT_ID (db_orders sample_db)
   < Dec.times (inject_Z 1) (inject_Z (10 ^ 10)))%Q /\
  executeOrder limit_buy_overpriced sample_db = Raise (DatabaseError "numeric field overflow") /\
  OrdersController.createOrder limit_buy_overpriced sample_db
  = inl (ServiceError (DatabaseError "numeric field overflow")).
Proof. repeat (split; [vm_compute; reflexivity|]); vm_compute; reflexivity. Qed.

(** C4 at a sample input: a CASH_IN of 500 on the cash instrument is FILLED. *)
Lemma executeOrder_cash_outcome_witness :
  exists resp s',
    executeOrder cash_in_ars sample_db = Done resp s' /\
    db_orders s' = db_orders sample_db ++ [r_order resp] /\
    o_size (r_order resp) = 500 /\ o_status (r_order resp) = FILLED.
Proof.
  destruct (executeOrder_cash_outcome sample_db cash_in_ars ars_instrument
              (or_introl eq_refl) ltac:(simpl; tauto) eq_refl) as [_ H].
  destruct (H eq_refl 500 eq_refl) as [Hfits _].
  destruct (Hfits eq_refl) as (resp & s' & E & Hrows & Hsize & _ & Hrej & Hok & _).
  exists resp, s'. split; [exact E|]. split; [exact Hrows|]. split; [exact Hsize|].
  apply Hok. intros Hr. apply Hrej in Hr. destruct Hr as [Hr _]. discriminate.
Defined.

(** C9 at a sample input: a LIMIT CASH_OUT of 20000 against 10000 pesos of
    cash is recorded as a REJECTED MARKET order. *)
Lemma executeOrder_cash_out_kind_witness :
  in_type cash_out_limit = LIMIT /\
  exists resp s',
    executeOrder cash_out_limit sample_db = Done resp s' /\
    o_status (r_order resp) = REJECTED /\ o_type (r_order resp) = MARKET.
Proof.
  split; [reflexivity|].
  destruct (executeOrder_cash_out_kind sample_db cash_out_limit ars_instrument 20000
              eq_refl ltac:(simpl; tauto) eq_refl eq_refl eq_refl) as [Hfits _].
  destruct (Hfits eq_refl) as (resp & s' & E & _ & _ & Hrej & Hkind & _).
  assert (Hr : o_status (r_order resp) = REJECTED) by (apply Hrej; vm_compute; reflexivity).
  exists resp, s'. split; [exact E|]. split; [exact Hr | apply Hkind, Hr].
Defined.



(** C8 at a sample input: a LIMIT SELL of GGAL without price fails with
    one of the errors and a MARKET input ignores its price. *)
Lemma executeOrder_limit_without_price_witness :
  (exists e, executeOrder limit_sell_no_price sample_db = Raise e /\
     (undefined_price_error e \/
      exists n, in_size limit_sell_no_price = Some n /\ Repo.int4_ok n = false /\
                e = Repo.int4_input_error n)) /\
  executeOrder (with_price buy_by_amount (Some 1%Q)) sample_db
  = executeOrder buy_by_amount sample_db.
Proof.
  destruct executeOrder_limit_without_price as [H1 H2]. split.
  - apply (H1 sample_db limit_sell_no_price ggal eq_refl eq_refl (or_intror eq_refl)
             ltac:(simpl; tauto) eq_refl).
  - apply H2. reflexivity.
Defined.

(** C8 as first stated fails: nothing refuses a LIMIT SELL without price
    before its execution price is computed; the engine carries the text
    ["undefined"] through validation to the INSERT, where the database
    refuses it, and no NotFound or BusinessRule error is raised. *)
Lemma executeOrder_limit_no_price_reaches_insert :
  in_type limit_sell_no_price = LIMIT /\ in_price limit_sell_no_price = None /\
  executeOrder limit_sell_no_price sample_db
  = Raise Repo.undefined_numeric_error /\
  ~ (exists e, executeOrder limit_sell_no_price sample_db = Raise e /\ rule_error e).
Proof.
  split; [reflexivity|]. split; [reflexivity|].
  split; [vm_compute; reflexivity|].
  intros (e & H & msg & [He | He]); vm_compute in H; injection H as <-; discriminate.
Qed.

(** ** Cancellation *)

Lemma find_filter_head {A} (f : A -> bool) (l : list A) (x : A) :
  find f l = Some x -> exists rest, filter f l = x :: rest.
Proof.
  induction l as [|y l IH]; simpl; [discriminate|].
  destruct (f y) eqn:E.
  - intros H. injection H as <-. eexists. reflexivity.
  - exact IH.
Qed.

Lemma cancelOrder_owned_new (oid uid : Z) (s : DB) (o : Order) :
  find_order oid (db_orders s) = Some o -> o_userId o = uid -> o_status o = NEW ->
  cancelOrder oid uid s =
  match find (fun x => ins_id x =? o_instrumentId o) (db_instruments s) with
  | None => Raise (TypeError "Cannot read properties of undefined (reading 'ticker')")
  | Some ins =>
      Done (mkCancel "Order cancelled successfully" (with_status CANCELLED o)
              (ins_ticker ins) (ins_name ins) (totalAmount (with_status CANCELLED o)))
        (after_update s oid CANCELLED)
  end.
Proof.
  intros Hf Hown Hst.
  unfold cancelOrder, transaction, bind, get_db. rewrite Hf.
  rewrite Hown, Z.eqb_refl, Hst. change (negb true) with false.
  change (negb (OrderStatus_beq NEW NEW)) with false.
  cbv beta iota. unfold update_status.
  destruct (find_filter_head _ _ _ Hf) as [rest Hr]. rewrite Hr.
  cbn [map]. unfold Repo.findInstrumentById, ret.
  cbn [o_instrumentId with_status db_instruments].
  destruct (find _ (db_instruments s)); reflexivity.
Qed.

(** ** C6: outcome of a cancellation *)

(** Claim C6.  [cancelOrder oid uid] fails with NotFound when no order has
    id [oid]; fails with the fixed BusinessRule message "Order not found or
    not owned by user" when the order belongs to another user; fails with a
    BusinessRule message ending in the current status when the order is
    owned but not NEW; and it returns normally only when the order exists,
    is owned by [uid] and is NEW, in which case the ledger row's status
    becomes CANCELLED and the returned order is the cancelled row with the
    ticker and name of its instrument; every owned NEW order of an existing
    instrument is cancelled this way. *)
Theorem cancelOrder_outcome (oid uid : Z) (s : DB) :
  (find_order oid (db_orders s) = None ->
   cancelOrder oid uid s
   = Raise (NotFoundError ("Order with ID " ++ Z_to_string oid ++ " not found"))) /\
  (forall o, find_order oid (db_orders s) = Some o -> o_userId o <> uid ->
   cancelOrder oid uid s = Raise (BusinessRuleError "Order not found or not owned by user")) /\
  (forall o, find_order oid (db_orders s) = Some o -> o_userId o = uid -> o_status o <> NEW ->
   cancelOrder oid uid s
   = Raise (BusinessRuleError ("Only NEW orders can be cancelled. Current status: "
                               ++ status_string (o_status o)))) /\
  (forall r s', cancelOrder oid uid s = Done r s' ->
   exists o ins,
     find_order oid (db_orders s) = Some o /\ o_userId o = uid /\ o_status o = NEW /\
     find (fun x => ins_id x =? o_instrumentId o) (db_instruments s) = Some ins /\
     c_order r = with_status CANCELLED o /\
     c_ticker r = ins_ticker ins /\ c_name r = ins_name ins /\
     s' = after_update s oid CANCELLED) /\
  (forall o ins, find_order oid (db_orders s) = Some o -> o_userId o = uid -> o_status o = NEW ->
   find (fun x => ins_id x =? o_instrumentId o) (db_instruments s) = Some ins ->
   exists r, cancelOrder oid uid s = Done r (after_update s oid CANCELLED)).
Proof.
  split; [|split; [|split; [|split]]].
  - intros Hf. unfold cancelOrder, transaction, bind, get_db. rewrite Hf. reflexivity.
  - intros o Hf Hown. unfold cancelOrder, transaction, bind, get_db. rewrite Hf.
    destruct (o_userId o =? uid) eqn:E; [apply Z.eqb_eq in E; contradiction | reflexivity].
  - intros o Hf Hown Hst. unfold cancelOrder, transaction, bind, get_db. rewrite Hf.
    rewrite Hown, Z.eqb_refl. change (negb true) with false. cbv beta iota.
    destruct (o_status o) eqn:E; [contradiction | reflexivity..].
  - intros r s' H.
    destruct (find_order oid (db_orders s)) as [o|] eqn:Hf.
    2:{ unfold cancelOrder, transaction, bind, get_db in H. rewrite Hf in H. discriminate. }
    destruct (Z.eq_dec (o_userId o) uid) as [Hown | Hown].
    2:{ unfold cancelOrder, transaction, bind, get_db in H. rewrite Hf in H.
        destruct (o_userId o =? uid) eqn:E; [apply Z.eqb_eq in E; contradiction | discriminate]. }
    destruct (o_status o) eqn:Hst.
    2-4: unfold cancelOrder, transaction, bind, get_db in H; rewrite Hf, Hown, Z.eqb_refl, Hst in H;
         discriminate.
    rewrite (cancelOrder_owned_new oid uid s o Hf Hown Hst) in H.
    destruct (find _ (db_instruments s)) as [ins|] eqn:Hins; [|discriminate].
    injection H as <- <-.
    exists o, ins. repeat split; auto.
  - intros o ins Hf Hown Hst Hins.
    rewrite (cancelOrder_owned_new oid uid s o Hf Hown Hst), Hins. eexists. reflexivity.
Qed.

(** ** The descending sort of the page query *)

Lemma insert_desc_perm (x : Order) (l : list Order) :
  Permutation (x :: l) (Repo.insert_desc x l).
Proof.
  induction l as [|y l IH]; simpl; [reflexivity|].
  destruct (o_datetime y <? o_datetime x); [reflexivity|].
  eapply perm_trans; [apply perm_swap | constructor; exact IH].
Qed.

Lemma sort_desc_perm_acc (l acc : list Order) :
  Permutation (l ++ acc) (fold_left (fun acc x => Repo.insert_desc x acc) l acc).
Proof.
  revert acc. induction l as [|x l IH]; intros acc; simpl; [reflexivity|].
  eapply perm_trans; [|apply IH].
  eapply perm_trans; [apply Permutation_middle|].
  apply Permutation_app_head, insert_desc_perm.
Qed.

Lemma sort_desc_perm (l : list Order) : Permutation l (Repo.sort_desc l).
Proof.
  unfold Repo.sort_desc. rewrite <- (app_nil_r l) at 1. apply sort_desc_perm_acc.
Qed.

Lemma insert_desc_sorted (x : Order) (l : list Order) :
  Sorted newer_first l -> Sorted newer_first (Repo.insert_desc x l).
Proof.
  induction l as [|y l IH]; intros H; simpl; [repeat constructor|].
  destruct (o_datetime y <? o_datetime x) eqn:E.
  - apply Z.ltb_lt in E. constructor; [exact H | constructor; unfold newer_first; lia].
  - apply Z.ltb_ge in E. inversion H as [|? ? Hs Hhd]; subst.
    constructor; [apply IH, Hs|].
    destruct l as [|z l]; simpl.
    + constructor. unfold newer_first. lia.
    + inversion Hhd; subst.
      destruct (o_datetime z <? o_datetime x); constructor; unfold newer_first in *; lia.
Qed.

Lemma sort_desc_sorted_acc (l acc : list Order) :
  Sorted newer_first acc ->
  Sorted newer_first (fold_left (fun acc x => Repo.insert_desc x acc) l acc).
Proof.
  revert acc. induction l as [|x l IH]; intros acc H; simpl; [exact H|].
  apply IH, insert_desc_sorted, H.
Qed.

Lemma sort_desc_sorted (l : list Order) : Sorted newer_first (Repo.sort_desc l).
Proof. apply sort_desc_sorted_acc. constructor. Qed.

Lemma Sorted_app_l {A} (R : A -> A -> Prop) (l1 l2 : list A) :
  Sorted R (l1 ++ l2) -> Sorted R l1.
Proof.
  induction l1 as [|a l1 IH]; intros H; simpl in *; [constructor|].
  inversion H as [|? ? Hs Hhd]; subst. constructor; [apply IH, Hs|].
  destruct l1 as [|b l1]; constructor. inversion Hhd; assumption.
Qed.

Lemma Sorted_firstn {A} (R : A -> A -> Prop) (n : nat) (l : list A) :
  Sorted R l -> Sorted R (firstn n l).
Proof.
  intros H. apply (Sorted_app_l R _ (skipn n l)). rewrite firstn_skipn. exact H.
Qed.

(** ** C7: cursor pagination *)

(** Claim C7.  For a limit [L] in 1..200 (or the default 50), the page
    query fetches [rows], the first [L + 1] rows of the user's orders older
    than the cursor (all of them without cursor) sorted by creation time,
    newest first; if more than [L] rows come back, [hasMore] is true, the
    returned orders are [rows] without its last row and [nextCursor] is the
    timestamp of the last returned order; otherwise [hasMore] is false, all
    of [rows] is returned and [nextCursor] is null; at most [min(L, 200)]
    orders are returned, newest first. *)
Theorem getOrdersByUserId_page (u : Z) (limit cursor : option Z) (s : DB) :
  (forall l, limit = Some l -> 1 <= l <= 200) ->
  let L := match limit with Some l => l | None => 50 end in
  let rows := Repo.select_page (db_orders s) u cursor (L + 1) in
  Permutation (page_candidates s u cursor) (Repo.sort_desc (page_candidates s u cursor)) /\
  Sorted newer_first (Repo.sort_desc (page_candidates s u cursor)) /\
  rows = firstn (Z.to_nat (L + 1)) (Repo.sort_desc (page_candidates s u cursor)) /\
  exists pg,
    Repo.getOrdersByUserId u limit cursor s = Done pg s /\
    (L < Z.of_nat (List.length rows) ->
       Repo.pg_hasMore pg = true /\ Repo.pg_orders pg = removelast rows /\
       exists pre last, Repo.pg_orders pg = pre ++ [last] /\
                        Repo.pg_nextCursor pg = Some (o_datetime last)) /\
    (Z.of_nat (List.length rows) <= L ->
       Repo.pg_hasMore pg = false /\ Repo.pg_orders pg = rows /\ Repo.pg_nextCursor pg = None) /\
    (List.length (Repo.pg_orders pg) <= Z.to_nat (Z.min L 200))%nat /\
    Sorted newer_first (Repo.pg_orders pg).
Proof.
  intros Hlim L rows.
  assert (HL : 1 <= L <= 200) by (subst L; destruct limit as [l|]; [apply (Hlim l eq_refl) | lia]).
  assert (Hsorted : Sorted newer_first rows)
    by (apply Sorted_firstn, sort_desc_sorted).
  assert (Hlen : (List.length rows <= Z.to_nat (L + 1))%nat) by apply firstn_le_length.
  split; [apply sort_desc_perm|]. split; [apply sort_desc_sorted|]. split; [reflexivity|].
  unfold Repo.getOrdersByUserId. fold L.
  rewrite (Z.min_l L 200) by lia.
  replace (L + 1 <? 0) with false by (symmetry; apply Z.ltb_ge; lia).
  fold rows.
  destruct (L <? Z.of_nat (List.length rows)) eqn:Hm.
  - apply Z.ltb_lt in Hm.
    destruct (exists_last (l := rows)) as [pre [x Hrows]];
      [intros E; rewrite E in Hm; simpl in Hm; lia|].
    rewrite Hrows, removelast_last.
    assert (Hpre : List.length pre = Z.to_nat L).
    { rewrite Hrows, length_app in Hlen, Hm. simpl in Hlen, Hm. lia. }
    destruct (exists_last (l := pre)) as [pre' [y Hpre']];
      [intros E; rewrite E in Hpre; simpl in Hpre; lia|].
    replace (0 <? List.length pre)%nat with true by (symmetry; apply Nat.ltb_lt; lia).
    eexists. split; [reflexivity|]. cbn [Repo.pg_orders Repo.pg_hasMore Repo.pg_nextCursor andb].
    split.
    + intros _. split; [reflexivity|]. split; [reflexivity|]. exists pre', y.
      split; [exact Hpre' | rewrite Hpre', rev_unit; reflexivity].
    + split; [intros H; rewrite Hrows in Hm; lia|]. split; [lia|].
      rewrite Hrows in Hsorted. apply (Sorted_app_l _ _ _ Hsorted).
  - apply Z.ltb_ge in Hm.
    eexists. split; [reflexivity|]. cbn [Repo.pg_orders Repo.pg_hasMore Repo.pg_nextCursor andb].
    split; [intros H; lia|]. split; [auto|]. split; [lia | exact Hsorted].
Qed.

(** ** Facts about the replay map and the enrichment *)

Import PortfolioService.

Lemma update_keys (k : Z) (f : Running -> Running) (m : InternalMap) :
  map fst (update k f m) = map fst m.
Proof.
  induction m as [|[k' v] m IH]; simpl; [reflexivity|].
  destruct (k' =? k); simpl; rewrite IH; reflexivity.
Qed.

Lemma lookup_None_notin (k : Z) (m : InternalMap) :
  lookup k m = None -> ~ In k (map fst m).
Proof.
  induction m as [|[k' v] m IH]; simpl; [auto|].
  destruct (k' =? k) eqn:E; [discriminate|].
  intros H [Heq | Hin]; [subst; rewrite Z.eqb_refl in E; discriminate | exact (IH H Hin)].
Qed.

Lemma ensure_nodup (k : Z) (m : InternalMap) :
  NoDup (map fst m) -> NoDup (map fst (ensure k m)).
Proof.
  intros H. unfold ensure. destruct (lookup k m) eqn:E; [exact H|].
  rewrite map_app. simpl.
  apply (Permutation_NoDup (Permutation_cons_append (map fst m) k)).
  constructor; [apply lookup_None_notin, E | exact H].
Qed.

Lemma replay_nodup_acc (orders : list Order) (m : InternalMap) :
  NoDup (map fst m) -> NoDup (map fst (fold_left replay_step orders m)).
Proof.
  revert m. induction orders as [|o orders IH]; intros m H; simpl; [exact H|].
  apply IH. unfold replay_step. rewrite update_keys. apply ensure_nodup, H.
Qed.

Lemma replay_nodup (orders : list Order) : NoDup (map fst (replay orders)).
Proof. apply replay_nodup_acc. constructor. Qed.

Lemma lookup_In_nodup (k : Z) (v : Running) (m : InternalMap) :
  NoDup (map fst m) -> In (k, v) m -> lookup k m = Some v.
Proof.
  induction m as [|[k' v'] m IH]; simpl; [contradiction|].
  intros Hnd Hin. inversion Hnd as [|? ? Hnotin Hnd']; subst.
  destruct (k' =? k) eqn:E.
  - apply Z.eqb_eq in E. subst k'.
    destruct Hin as [Heq | Hin]; [injection Heq as ->; reflexivity|].
    exfalso. apply Hnotin. apply (in_map fst _ _ Hin).
  - destruct Hin as [Heq | Hin].
    + injection Heq as -> ->. rewrite Z.eqb_refl in E. discriminate.
    + apply IH; assumption.
Qed.

Lemma In_calculatePositions (c : PositionCalculation) (orders : list Order) :
  In c (calculatePositions orders) ->
  exists T, In (pc_instrumentId c, (pc_quantity c, T)) (replay orders) /\ 0 < pc_quantity c.
Proof.
  unfold calculatePositions. intros H. apply in_map_iff in H.
  destruct H as [[k [q T]] [<- Hin]]. apply filter_In in Hin. destruct Hin as [Hin Hpos].
  simpl in *. exists T. split; [exact Hin | apply Z.ltb_lt, Hpos].
Qed.

Lemma In_insert_by_value (x y : Position) (l : list Position) :
  In y (insert_by_value x l) -> y = x \/ In y l.
Proof.
  induction l as [|z l IH]; simpl; [intros [H | []]; left; auto|].
  destruct (Dec.lessThan _ _).
  - intros [H | H]; [left; auto | right; exact H].
  - intros [H | H]; [right; left; exact H|].
    destruct (IH H) as [H' | H']; [left; exact H' | right; right; exact H'].
Qed.

Lemma In_sort_by_value_acc (y : Position) (l acc : list Position) :
  In y (fold_left (fun acc x => insert_by_value x acc) l acc) -> In y l \/ In y acc.
Proof.
  revert acc. induction l as [|x l IH]; intros acc H; simpl in *; [right; exact H|].
  destruct (IH _ H) as [H' | H']; [left; right; exact H'|].
  destruct (In_insert_by_value _ _ _ H') as [-> | H'']; [left; left; reflexivity | right; exact H''].
Qed.

Lemma In_enrichPositions (p : Position) (md : list MarketData) (ins : list Instrument)
  (cs : list PositionCalculation) :
  In p (enrichPositions md ins cs) ->
  exists c, In c cs /\ p_instrumentId p = pc_instrumentId c /\ p_quantity p = pc_quantity c.
Proof.
  unfold enrichPositions, sort_by_value. intros H.
  destruct (In_sort_by_value_acc _ _ _ H) as [H' | []].
  clear H. induction cs as [|c cs IH]; simpl in H'; [contradiction|].
  destruct (enrich_one md ins c) as [q|] eqn:E.
  - destruct H' as [<- | H'].
    + exists c. split; [left; reflexivity|].
      unfold enrich_one in E.
      destruct (Repo.latest_market_data _ _); [|discriminate].
      destruct (find _ _); [|discriminate].
      injection E as <-. split; reflexivity.
    + destruct (IH H') as (c' & Hin & H1 & H2). exists c'. split; [right; exact Hin | auto].
  - destruct (IH H') as (c' & Hin & H1 & H2). exists c'. split; [right; exact Hin | auto].
Qed.

Lemma getUserPortfolio_positions (u : Z) (s s' : DB) (pf : Portfolio) :
  getUserPortfolio u s = Done pf s' ->
  pf_positions pf = []
  \/ pf_positions pf = enrichPositions (db_marketdata s) (db_instruments s)
                         (calculatePositions (stock_orders u s)).
Proof.
  unfold getUserPortfolio, bind, ret, get_db, throw, Repo.findUserById,
    Repo.getFilledOrdersByUserId, Repo.getUserAvailableCash.
  destruct (existsb (Z.eqb u) (db_users s)); cbn [negb]; [|discriminate].
  fold (stock_orders u s).
  destruct (calculatePositions (stock_orders u s)) as [|c cs] eqn:E; intros H;
    injection H as <- <-; [left | right]; reflexivity.
Qed.

(** ** C10: only positive positions are reported *)

(** Claim C10.  Every position of a portfolio returned by
    [getUserPortfolio] has quantity greater than 0, and no position is
    reported for an instrument whose replayed quantity is 0 or negative, an
    over-sold history included. *)
Theorem getUserPortfolio_positive (u : Z) (s s' : DB) (pf : Portfolio) :
  getUserPortfolio u s = Done pf s' ->
  (forall p, In p (pf_positions pf) -> 0 < p_quantity p) /\
  (forall i q T, lookup i (replay (stock_orders u s)) = Some (q, T) -> q <= 0 ->
   forall p, In p (pf_positions pf) -> p_instrumentId p <> i).
Proof.
  intros H.
  assert (Hsrc : forall p, In p (pf_positions pf) ->
            exists T, In (p_instrumentId p, (p_quantity p, T)) (replay (stock_orders u s))
                      /\ 0 < p_quantity p).
  { intros p Hp. destruct (getUserPortfolio_positions u s s' pf H) as [E | E];
      rewrite E in Hp; [contradiction|].
    destruct (In_enrichPositions _ _ _ _ Hp) as (c & Hc & Hid & Hq).
    destruct (In_calculatePositions _ _ Hc) as (T & HinT & Hpos).
    exists T. rewrite Hid, Hq. split; assumption. }
  split.
  - intros p Hp. destruct (Hsrc p Hp) as (T & _ & Hpos). exact Hpos.
  - intros i q T Hl Hq p Hp Hid. destruct (Hsrc p Hp) as (T' & Hin & Hpos).
    rewrite Hid in Hin. rewrite (lookup_In_nodup _ _ _ (replay_nodup _) Hin) in Hl.
    injection Hl as <- _. lia.
Qed.

(** ** Witnesses of the ledger reads and the portfolio *)

(** C7 at a sample input: with limit 2, two of the three orders of user 1
    come back, newest first, with [hasMore] and the cursor of the second. *)
Lemma getOrdersByUserId_page_witness :
  exists pg,
    Repo.getOrdersByUserId 1 (Some 2) None paged_db = Done pg paged_db /\
    Repo.pg_hasMore pg = true /\ map o_id (Repo.pg_orders pg) = [3; 2] /\
    Repo.pg_nextCursor pg = Some 2.
Proof.
  destruct (getOrdersByUserId_page 1 (Some 2) None paged_db
              ltac:(intros l Hl; injection Hl as <-; lia))
    as (_ & _ & _ & pg & E & Hmore & _ & _ & _).
  exists pg. split; [exact E|].
  vm_compute in E. injection E as <-. split; [reflexivity|]. split; reflexivity.
Defined.

(** C10 at a sample input: GGAL, bought 5 and sold 10, replays to
    quantity -5 and is left out; only YPF is reported. *)
Lemma getUserPortfolio_positive_witness :
  exists pf s',
    getUserPortfolio 1 oversold_db = Done pf s' /\
    (exists T, lookup 47 (replay (stock_orders 1 oversold_db)) = Some (-5, T)) /\
    map p_instrumentId (pf_positions pf) = [48] /\
    (forall p, In p (pf_positions pf) -> 0 < p_quantity p /\ p_instrumentId p <> 47).
Proof.
  destruct (getUserPortfolio 1 oversold_db) as [pf s'|e] eqn:E;
    [|vm_compute in E; discriminate].
  destruct (getUserPortfolio_positive 1 oversold_db s' pf E) as [H1 H2].
  destruct (lookup 47 (replay (stock_orders 1 oversold_db))) as [[q T]|] eqn:L;
    vm_compute in L; [|discriminate].
  injection L as Hq HT.
  exists pf, s'. split; [reflexivity|]. split; [exists T; rewrite <- Hq; reflexivity|].
  split; [vm_compute in E; injection E as <- _; reflexivity|].
  intros p Hp. split; [exact (H1 p Hp)|].
  apply (H2 47 (-5) T); [|lia|exact Hp].
  vm_compute. rewrite Hq, HT. reflexivity.
Defined.

(** ** The replay, instrument by instrument *)

Lemma lookup_update (k k' : Z) (f : Running -> Running) (m : InternalMap) :
  lookup k (update k' f m) = if k' =? k then option_map f (lookup k m) else lookup k m.
Proof.
  induction m as [|[j v] m IH]; simpl.
  - destruct (k' =? k); reflexivity.
  - destruct (k' =? k) eqn:E3;
      destruct (j =? k') eqn:E1; destruct (j =? k) eqn:E2; simpl; rewrite ?E2, ?IH;
      try reflexivity; rewrite ?Z.eqb_eq, ?Z.eqb_neq in *; lia.
Qed.

Lemma lookup_app_single (k : Z) (m : InternalMap) (kv : Z * Running) :
  lookup k (m ++ [kv]) = match lookup k m with Some v => Some v | None => lookup k [kv] end.
Proof.
  induction m as [|[j v] m IH]; simpl; [reflexivity|].
  destruct (j =? k); [reflexivity | exact IH].
Qed.

Lemma lookup_replay_step (i : Z) (m : InternalMap) (o : Order) :
  lookup i (replay_step m o)
  = if o_instrumentId o =? i
    then Some (apply_order o (match lookup i m with Some v => v | None => (0, 0%Q) end))
    else lookup i m.
Proof.
  unfold replay_step. rewrite lookup_update.
  destruct (o_instrumentId o =? i) eqn:E.
  - apply Z.eqb_eq in E. subst i. unfold ensure.
    destruct (lookup (o_instrumentId o) m) eqn:L; [rewrite L; reflexivity|].
    rewrite lookup_app_single, L. simpl. rewrite Z.eqb_refl. reflexivity.
  - unfold ensure. destruct (lookup (o_instrumentId o) m); [reflexivity|].
    rewrite lookup_app_single. destruct (lookup i m); [reflexivity|].
    simpl. rewrite E. reflexivity.
Qed.

Lemma lookup_replay_acc (i : Z) (orders : list Order) (m : InternalMap) :
  lookup i (fold_left replay_step orders m)
  = match lookup i m with
    | Some v => Some (fold_left (fun acc o => apply_order o acc)
                        (filter (fun o => o_instrumentId o =? i) orders) v)
    | None =>
        if existsb (fun o => o_instrumentId o =? i) orders
        then Some (fold_left (fun acc o => apply_order o acc)
                     (filter (fun o => o_instrumentId o =? i) orders) (0, 0%Q))
        else None
    end.
Proof.
  revert m. induction orders as [|o orders IH]; intros m; simpl.
  - destruct (lookup i m); reflexivity.
  - rewrite IH, lookup_replay_step.
    destruct (o_instrumentId o =? i) eqn:E; simpl; [destruct (lookup i m); reflexivity|].
    reflexivity.
Qed.

Lemma lookup_In (k : Z) (v : Running) (m : InternalMap) :
  lookup k m = Some v -> In (k, v) m.
Proof.
  induction m as [|[j w] m IH]; simpl; [discriminate|].
  destruct (j =? k) eqn:E.
  - intros H. injection H as <-. apply Z.eqb_eq in E. subst. left. reflexivity.
  - intros H. right. apply IH, H.
Qed.

Lemma In_calculatePositions_iff (c : PositionCalculation) (orders : list Order) :
  In c (calculatePositions orders) <->
  exists T, lookup (pc_instrumentId c) (replay orders) = Some (pc_quantity c, T) /\
            pc_totalCost c = Double.to_number T /\ 0 < pc_quantity c.
Proof.
  split.
  - unfold calculatePositions. intros H. apply in_map_iff in H.
    destruct H as [[k [q T]] [<- Hin]]. apply filter_In in Hin. destruct Hin as [Hin Hpos].
    simpl in *. exists T.
    split; [apply lookup_In_nodup; [apply replay_nodup | exact Hin]|].
    split; [reflexivity | apply Z.ltb_lt, Hpos].
  - intros (T & Hl & Hc & Hpos). unfold calculatePositions. apply in_map_iff.
    exists (pc_instrumentId c, (pc_quantity c, T)).
    split; [destruct c; simpl in *; rewrite Hc; reflexivity|].
    apply filter_In. split; [apply lookup_In, Hl | apply Z.ltb_lt, Hpos].
Qed.

(** ** The ascending sort of the replay input *)

Lemma insert_asc_sorted (x : Order) (l : list Order) :
  Sorted older_first l -> Sorted older_first (Repo.insert_asc x l).
Proof.
  induction l as [|y l IH]; intros H; simpl; [repeat constructor|].
  destruct (o_datetime x <? o_datetime y) eqn:E.
  - apply Z.ltb_lt in E. constructor; [exact H | constructor; unfold older_first; lia].
  - apply Z.ltb_ge in E. inversion H as [|? ? Hs Hhd]; subst.
    constructor; [apply IH, Hs|].
    destruct l as [|z l]; simpl.
    + constructor. unfold older_first. lia.
    + inversion Hhd; subst.
      destruct (o_datetime x <? o_datetime z); constructor; unfold older_first in *; lia.
Qed.

Lemma sort_asc_sorted (l : list Order) : Sorted older_first (Repo.sort_asc l).
Proof.
  unfold Repo.sort_asc. assert (H : Sorted older_first (@nil Order)) by constructor.
  revert H. generalize (@nil Order). induction l as [|x l IH]; intros acc H; simpl; [exact H|].
  apply IH, insert_asc_sorted, H.
Qed.

Lemma StronglySorted_filter {A} (R : A -> A -> Prop) (f : A -> bool) (l : list A) :
  StronglySorted R l -> StronglySorted R (filter f l).
Proof.
  induction l as [|a l IH]; intros H; simpl; [constructor|].
  inversion H as [|? ? Hs Hall]; subst.
  destruct (f a); [|apply IH, Hs].
  constructor; [apply IH, Hs|].
  apply Forall_forall. intros x Hx. apply filter_In in Hx.
  rewrite Forall_forall in Hall. apply Hall, Hx.
Qed.

Lemma stock_orders_sorted (u : Z) (s : DB) : Sorted older_first (stock_orders u s).
Proof.
  unfold stock_orders, Repo.filled_orders.
  apply StronglySorted_Sorted, StronglySorted_filter, Sorted_StronglySorted.
  - unfold older_first. intros x y z; lia.
  - apply sort_asc_sorted.
Qed.

(** ** Average cost across a partial sell *)

Lemma inject_Z_nonzero (z : Z) : z <> 0 -> ~ (inject_Z z == 0)%Q.
Proof. intros Hz H. apply Hz. apply (proj1 (inject_Z_injective z 0)), H. Qed.

Lemma apply_order_sell_exact (o : Order) (q : Z) (T : Q) :
  o_side o = SELL -> q <> 0 -> q - o_size o <> 0 ->
  (Dec.dividedBy T (inject_Z q) == T / inject_Z q)%Q ->
  (Dec.times (inject_Z (o_size o)) (Dec.dividedBy T (inject_Z q))
   == inject_Z (o_size o) * Dec.dividedBy T (inject_Z q))%Q ->
  (Dec.minus T (Dec.times (inject_Z (o_size o)) (Dec.dividedBy T (inject_Z q)))
   == T - Dec.times (inject_Z (o_size o)) (Dec.dividedBy T (inject_Z q)))%Q ->
  fst (apply_order o (q, T)) = q - o_size o /\
  (snd (apply_order o (q, T)) / inject_Z (fst (apply_order o (q, T))) == T / inject_Z q)%Q.
Proof.
  intros Hs Hq Hq' Hdiv Htimes Hminus.
  unfold apply_order. rewrite Hs.
  destruct (q =? 0) eqn:E; [apply Z.eqb_eq in E; contradiction|].
  cbn [fst snd]. split; [reflexivity|].
  rewrite Hminus, Htimes, Hdiv.
  assert (Hd : inject_Z (q - o_size o) = (inject_Z q - inject_Z (o_size o))%Q)
    by (unfold Qminus, Z.sub; rewrite inject_Z_plus, inject_Z_opp; reflexivity).
  pose proof (inject_Z_nonzero _ Hq) as Hq0.
  pose proof (inject_Z_nonzero _ Hq') as Hq0'. rewrite Hd in Hq0' |- *.
  field. split; assumption.
Qed.

(** ** C3: replay of the filled orders *)

(** Claim C3 (amended).  The replay input, the user's FILLED non-cash
    orders, is in ascending creation-time order; the replayed entry of each
    instrument is the fold of the loop body [apply_order] over that
    instrument's orders from [(0, 0)] (BUY adds the size and
    [size × price]; SELL at quantity 0 is skipped; SELL otherwise subtracts
    the size and [size × (totalCost ÷ quantity)], all with Decimal.js
    operations rounded to 20 significant digits); the calculated positions
    are exactly the entries of positive quantity, each with the JavaScript
    number nearest to its replayed cost ([totalCost.toNumber()]) as
    [totalCost]; a partial sell keeps the
    average cost [totalCost ÷ quantity] whenever the three roundings of the
    sell step are exact; and BUY 10 at 100 then SELL 4 leaves quantity 6,
    cost 600 and average buy price 100. *)
Theorem calculatePositions_replay :
  (forall u s, Sorted older_first (stock_orders u s)) /\
  (forall orders i,
     lookup i (replay orders)
     = if existsb (fun o => o_instrumentId o =? i) orders
       then Some (instrument_fold i orders) else None) /\
  (forall orders c,
     In c (calculatePositions orders) <->
     exists T, lookup (pc_instrumentId c) (replay orders) = Some (pc_quantity c, T) /\
               pc_totalCost c = Double.to_number T /\ 0 < pc_quantity c) /\
  (forall o q T,
     o_side o = SELL -> q <> 0 -> q - o_size o <> 0 ->
     (Dec.dividedBy T (inject_Z q) == T / inject_Z q)%Q ->
     (Dec.times (inject_Z (o_size o)) (Dec.dividedBy T (inject_Z q))
      == inject_Z (o_size o) * Dec.dividedBy T (inject_Z q))%Q ->
     (Dec.minus T (Dec.times (inject_Z (o_size o)) (Dec.dividedBy T (inject_Z q)))
      == T - Dec.times (inject_Z (o_size o)) (Dec.dividedBy T (inject_Z q)))%Q ->
     fst (apply_order o (q, T)) = q - o_size o /\
     (snd (apply_order o (q, T)) / inject_Z (fst (apply_order o (q, T))) == T / inject_Z q)%Q) /\
  calculatePositions buy_then_sell = [mkCalc 47 6 600] /\
  map p_averageBuyPrice
    (enrichPositions [mkMarketData 47 150 145 1] [ggal] (calculatePositions buy_then_sell))
  = [100%Q].
Proof.
  split; [exact stock_orders_sorted|].
  split; [intros orders i; unfold replay; rewrite lookup_replay_acc; reflexivity|].
  split; [intros orders c; apply In_calculatePositions_iff|].
  split; [exact apply_order_sell_exact|].
  split; vm_compute; reflexivity.
Qed.

(** C3 at a sample input: the exactness conditions hold for a SELL of 4
    out of 10 shares bought for 1000. *)
Lemma calculatePositions_replay_witness :
  fst (apply_order (mkOrder 3 47 1 4 120 MARKET SELL FILLED 3) (10%Z, 1000%Q)) = 6 /\
  (snd (apply_order (mkOrder 3 47 1 4 120 MARKET SELL FILLED 3) (10%Z, 1000%Q)) / inject_Z 6
   == 1000 / inject_Z 10)%Q.
Proof.
  destruct calculatePositions_replay as (_ & _ & _ & H & _).
  destruct (H (mkOrder 3 47 1 4 120 MARKET SELL FILLED 3) 10 1000%Q eq_refl
              ltac:(lia) ltac:(simpl; lia)
              ltac:(vm_compute; reflexivity) ltac:(vm_compute; reflexivity)
              ltac:(vm_compute; reflexivity)) as [H1 H2].
  split; [exact H1|]. rewrite H1 in H2. exact H2.
Defined.

(** C3 as first stated fails: after BUY 1 at 1, BUY 1 at 1 and BUY 1 at 2
    (quantity 3, cost 4) a SELL of 1 leaves cost 2.6666666666666666667,
    since [4 ÷ 3] is rounded to 20 digits, so neither the exact nor the
    Decimal.js average per remaining share stays at its value before the
    sell; the position returned has [totalCost] 2.6666666666666665, the
    JavaScript number nearest to it. *)
Lemma replay_partial_sell_moves_average :
  lookup 47 (replay (firstn 3 thirds_history)) = Some (3, 4%Q) /\
  lookup 47 (replay thirds_history)
  = Some (2, (26666666666666666667 # 10000000000000000000)%Q) /\
  calculatePositions thirds_history
  = [mkCalc 47 2 (Qred (26666666666666665 # 10000000000000000))] /\
  ~ ((26666666666666666667 # 10000000000000000000) / inject_Z 2 == 4 / inject_Z 3)%Q /\
  ~ (Dec.dividedBy (26666666666666666667 # 10000000000000000000) (inject_Z 2)
     == Dec.dividedBy 4 (inject_Z 3))%Q.
Proof.
  split; [vm_compute; reflexivity|]. split; [vm_compute; reflexivity|].
  split; [vm_compute; reflexivity|].
  split; intros H; vm_compute in H; discriminate.
Qed.

(** * Further properties of the code *)

(** ** The instrument search pattern *)
Section LikeSearch.
Import InstrumentSearch.

Variable char : Type.
Variable char_eqb : char -> char -> bool.
Variables percent underscore backslash : char.
Variable upper_js : char -> list char.
Variable UPPER : list char -> list char.

Hypothesis char_eqb_spec : forall a b, char_eqb a b = true <-> a = b.
Hypothesis backslash_not_wildcard : backslash <> percent /\ backslash <> underscore.
(** JavaScript's upper case leaves [%], [_] and [\] as they are and
    produces none of them from another character. *)
Hypothesis upper_js_special :
  forall c, is_like_special char char_eqb percent underscore backslash c = true ->
  upper_js c = [c].
Hypothesis upper_js_plain :
  forall c d, is_like_special char char_eqb percent underscore backslash c = false ->
  In d (upper_js c) -> is_like_special char char_eqb percent underscore backslash d = false.

Local Abbreviation special := (is_like_special char char_eqb percent underscore backslash).
Local Abbreviation esc := (escape_like char char_eqb percent underscore backslash).
Local Abbreviation lk := (like char char_eqb percent underscore backslash).
Local Abbreviation up := (toUpperCase char upper_js).

Lemma char_eqb_refl (c : char) : char_eqb c c = true.
Proof. apply char_eqb_spec. reflexivity. Qed.

Lemma char_eqb_neq (a b : char) : a <> b -> char_eqb a b = false.
Proof.
  intros H. destruct (char_eqb a b) eqn:E; [|reflexivity].
  apply char_eqb_spec in E. contradiction.
Qed.

Lemma like_percent_step (p t : list char) :
  lk (percent :: p) t
  = lk p t || match t with [] => false | _ :: t' => lk (percent :: p) t' end.
Proof. destruct t; simpl; rewrite char_eqb_refl; reflexivity. Qed.

Lemma like_percent (p t : list char) :
  lk (percent :: p) t = true <-> exists a b, t = a ++ b /\ lk p b = true.
Proof.
  induction t as [|c t IH].
  - rewrite like_percent_step, orb_false_r. split.
    + intros H. exists [], []. auto.
    + intros (a & b & E & H). destruct a; [|discriminate]. simpl in E; subst; exact H.
  - rewrite like_percent_step, orb_true_iff, IH. split.
    + intros [H | (a & b & E & H)].
      * exists [], (c :: t). auto.
      * exists (c :: a), b. subst. auto.
    + intros (a & b & E & H). destruct a as [|c' a].
      * left. simpl in E. subst. exact H.
      * right. simpl in E. injection E as -> ->. exists a, b. auto.
Qed.

Lemma like_percent_all (t : list char) : lk [percent] t = true.
Proof.
  apply like_percent. exists t, []. split; [symmetry; apply app_nil_r|reflexivity].
Qed.

Lemma like_escaped (q r t : list char) :
  lk (esc q ++ r) t = true <-> exists t', t = q ++ t' /\ lk r t' = true.
Proof.
  destruct backslash_not_wildcard as [Hbp Hbu].
  revert t. induction q as [|c q IH]; intros t.
  - simpl. split; [intros H; exists t; auto | intros (t' & -> & H); exact H].
  - simpl. destruct (special c) eqn:Hs.
    + simpl. rewrite (char_eqb_neq _ _ Hbp), (char_eqb_neq _ _ Hbu), char_eqb_refl.
      destruct t as [|d t].
      * split; [discriminate | intros (t' & E & _); discriminate].
      * rewrite andb_true_iff, IH, char_eqb_spec. split.
        -- intros (-> & t' & -> & H). exists t'. auto.
        -- intros (t' & E & H). injection E as -> ->. split; [reflexivity|]. exists t'; auto.
    + unfold is_like_special in Hs. rewrite !orb_false_iff in Hs.
      destruct Hs as [[H1 H2] H3]. simpl. rewrite H1, H2, H3.
      destruct t as [|d t].
      * split; [discriminate | intros (t' & E & _); discriminate].
      * rewrite andb_true_iff, IH, char_eqb_spec. split.
        -- intros (-> & t' & -> & H). exists t'. auto.
        -- intros (t' & E & H). injection E as -> ->. split; [reflexivity|]. exists t'; auto.
Qed.

Lemma escape_plain (s : list char) :
  (forall d, In d s -> special d = false) -> esc s = s.
Proof.
  induction s as [|d s IH]; intros H; [reflexivity|]. simpl.
  rewrite (H d (or_introl eq_refl)), IH; [reflexivity|].
  intros x Hx. apply H. right. exact Hx.
Qed.

Lemma escape_app (a b : list char) : esc (a ++ b) = esc a ++ esc b.
Proof.
  induction a as [|c a IH]; [reflexivity|]. simpl.
  destruct (special c); simpl; rewrite IH; reflexivity.
Qed.

Lemma toUpperCase_escape (q : list char) : up (esc q) = esc (up q).
Proof.
  assert (Hb : special backslash = true).
  { unfold is_like_special. rewrite char_eqb_refl. apply orb_true_r. }
  induction q as [|c q IH]; [reflexivity|]. cbn [toUpperCase].
  rewrite escape_app, <- IH. cbn [escape_like].
  destruct (special c) eqn:Hs.
  - cbn [toUpperCase]. rewrite (upper_js_special c Hs), (upper_js_special _ Hb).
    simpl. rewrite Hs. reflexivity.
  - cbn [toUpperCase]. rewrite (escape_plain (upper_js c)); [reflexivity|].
    intros d Hd. exact (upper_js_plain c d Hs Hd).
Qed.

(** A column value matches the search pattern of a query exactly when the
    query upper-cased by JavaScript occurs in the value upper-cased by
    PostgreSQL: [%], [_] and [\] typed in the query only match themselves. *)
Theorem search_matches_substring (q column : list char) :
  column_matches char char_eqb percent underscore backslash upper_js UPPER q column = true <->
  exists before after, UPPER column = before ++ up q ++ after.
Proof.
  unfold column_matches, search_term.
  rewrite toUpperCase_escape, like_percent. split.
  - intros (a & b & E & H). apply like_escaped in H. destruct H as (t' & -> & _).
    exists a, t'. exact E.
  - intros (a & b & E). exists a, (up q ++ b).
    split; [exact E|]. apply like_escaped. exists b. split; [reflexivity|].
    apply like_percent_all.
Qed.

End LikeSearch.

Lemma search_matches_substring_witness :
  exists before after,
    map InstrumentSearch.upper_ascii (list_ascii_of_string "AB_C")
    = before ++ InstrumentSearch.toUpperCase ascii (fun c => [InstrumentSearch.upper_ascii c])
                  (list_ascii_of_string "b_c") ++ after.
Proof.
  apply (proj1 (search_matches_substring ascii Ascii.eqb "%"%char "_"%char "\"%char
    (fun c => [InstrumentSearch.upper_ascii c]) (map InstrumentSearch.upper_ascii)
    Ascii.eqb_eq ltac:(split; discriminate)
    ltac:(intros c Hc; destruct c as [[] [] [] [] [] [] [] []]; vm_compute in Hc |- *;
          first [reflexivity | discriminate])
    ltac:(intros c d Hc [<-|[]]; destruct c as [[] [] [] [] [] [] [] []];
          vm_compute in Hc |- *; first [reflexivity | discriminate])
    (list_ascii_of_string "b_c") (list_ascii_of_string "AB_C"))).
  vm_compute. reflexivity.
Defined.

(** ** The latest price snapshot *)

Lemma latest_of_some (b : MarketData) (rows : list MarketData) :
  Repo.latest_of (Some b) rows <> None.
Proof.
  revert b. induction rows as [|r rs IH]; intros b; simpl; [discriminate|].
  destruct (md_date b <? md_date r); apply IH.
Qed.

Lemma latest_of_spec (best : option MarketData) (rows : list MarketData) (md : MarketData) :
  Repo.latest_of best rows = Some md ->
  (best = Some md \/ In md rows) /\
  (forall b, best = Some b -> md_date b <= md_date md) /\
  (forall r, In r rows -> md_date r <= md_date md).
Proof.
  revert best. induction rows as [|r rs IH]; intros best H; simpl in H.
  - subst best. split; [left; reflexivity|]. split; [|intros r []].
    intros b E. injection E as ->. lia.
  - destruct best as [b|].
    + destruct (md_date b <? md_date r) eqn:Hlt; apply IH in H;
        destruct H as (H1 & H2 & H3); rewrite Z.ltb_lt in Hlt || rewrite Z.ltb_ge in Hlt.
      * specialize (H2 r eq_refl). split; [destruct H1 as [E|E]; [injection E as ->|]; simpl; auto|].
        split; [intros b' E; injection E as <-; lia|].
        intros x [<-|Hx]; [lia|auto].
      * specialize (H2 b eq_refl). split; [destruct H1 as [E|E]; [left; exact E|simpl; auto]|].
        split; [intros b' E; injection E as <-; lia|].
        intros x [<-|Hx]; [lia|auto].
    + apply IH in H. destruct H as (H1 & H2 & H3). specialize (H2 r eq_refl).
      split; [destruct H1 as [E|E]; [injection E as ->|]; simpl; auto|].
      split; [discriminate|]. intros x [<-|Hx]; [lia|auto].
Qed.

(** [getLatestMarketDataForInstrument] finds nothing exactly when the
    instrument has no snapshot; otherwise it returns one of the
    instrument's snapshots, and none of them has a later date. *)
Theorem latest_market_data_spec (rows : list MarketData) (i : Z) :
  (Repo.latest_market_data rows i = None <->
   forall r, In r rows -> md_instrumentId r <> i) /\
  (forall md, Repo.latest_market_data rows i = Some md ->
   In md rows /\ md_instrumentId md = i /\
   forall r, In r rows -> md_instrumentId r = i -> md_date r <= md_date md).
Proof.
  unfold Repo.latest_market_data. split.
  - destruct (filter (fun r => md_instrumentId r =? i) rows) as [|r rs] eqn:Hf.
    + split; [|reflexivity]. intros _ r Hr E.
      assert (Hin : In r (filter (fun r => md_instrumentId r =? i) rows))
        by (apply filter_In; split; [exact Hr|apply Z.eqb_eq; exact E]).
      rewrite Hf in Hin. destruct Hin.
    + split; [simpl; intros H; exfalso; exact (latest_of_some r rs H)|].
      intros H. assert (Hin : In r (filter (fun r => md_instrumentId r =? i) rows))
        by (rewrite Hf; left; reflexivity).
      apply filter_In in Hin. destruct Hin as [Hr E]. apply Z.eqb_eq in E.
      exfalso. exact (H r Hr E).
  - intros md H. apply latest_of_spec in H. destruct H as ([E|Hin] & _ & H3); [discriminate|].
    apply filter_In in Hin as Hin'. destruct Hin' as [Hr E]. apply Z.eqb_eq in E.
    split; [exact Hr|]. split; [exact E|].
    intros r Hr' Er. apply H3, filter_In. split; [exact Hr'|apply Z.eqb_eq; exact Er].
Qed.

Lemma latest_market_data_spec_witness :
  Repo.latest_market_data (db_marketdata oversold_db) 47 = Some (mkMarketData 47 150 145 1) /\
  In (mkMarketData 47 150 145 1) (db_marketdata oversold_db) /\
  md_instrumentId (mkMarketData 47 150 145 1) = 47.
Proof.
  assert (H : Repo.latest_market_data (db_marketdata oversold_db) 47
              = Some (mkMarketData 47 150 145 1)) by (vm_compute; reflexivity).
  destruct (latest_market_data_spec (db_marketdata oversold_db) 47) as [_ H2].
  destruct (H2 _ H) as (H3 & H4 & _). auto.
Defined.

(** ** What a successful [executeOrder] writes *)

Lemma executeOrder_unfold (input : CreateOrderInput) (s : DB) :
  executeOrder input s =
  if existsb (Z.eqb (in_userId input)) (db_users s) then
    match find (fun x => ins_id x =? in_instrumentId input) (db_instruments s) with
    | None => Raise (NotFoundError ("Instrument with ID " ++ Z_to_string (in_instrumentId input)
                                     ++ " not found"))
    | Some ins =>
        if OrderSide_beq (in_side input) CASH_IN || OrderSide_beq (in_side input) CASH_OUT
        then executeCashOperation input s
        else
          match in_type input with
          | MARKET =>
              match Repo.latest_market_data (db_marketdata s) (in_instrumentId input) with
              | None => Raise (BusinessRuleError ("No market data available for instrument "
                                                  ++ ins_ticker ins))
              | Some md => executeStockOrder input (PDec (md_close md)) s
              end
          | LIMIT => executeStockOrder input (price_text (in_price input)) s
          end
    end
  else Raise (NotFoundError ("User with ID " ++ Z_to_string (in_userId input) ++ " not found")).
Proof.
  unfold executeOrder, transaction, bind, ret, throw, Repo.findUserById,
    Repo.findInstrumentById, Repo.getLatestMarketDataForInstrument.
  destruct (existsb (Z.eqb (in_userId input)) (db_users s)); [|reflexivity]. cbn.
  destruct (find (fun x => ins_id x =? in_instrumentId input) (db_instruments s)); [|reflexivity].
  destruct (OrderSide_beq (in_side input) CASH_IN || OrderSide_beq (in_side input) CASH_OUT).
  - destruct (executeCashOperation input s); reflexivity.
  - destruct (in_type input).
    + destruct (Repo.latest_market_data (db_marketdata s) (in_instrumentId input)); [|reflexivity].
      destruct (executeStockOrder input _ s); reflexivity.
    + destruct (executeStockOrder input _ s); reflexivity.
Qed.

Lemma OrderSide_beq_true (a b : OrderSide) : OrderSide_beq a b = true -> a = b.
Proof. destruct a, b; simpl; congruence. Qed.

Lemma validateAndCreate_Done (input : CreateOrderInput) (n : Z) (p : Q) (s : DB)
  (resp : OrderResponse) (s' : DB) :
  in_side input = BUY \/ in_side input = SELL ->
  validateAndCreate input n (PDec p) s = Done resp s' ->
  exists st,
    resp = respond (inserted_row s (fields_of input n (PDec p) st) p) /\
    s' = after_insert s (inserted_row s (fields_of input n (PDec p) st) p) /\
    (st = REJECTED \/
     (st = status_after_validation (in_type input) /\
      (in_side input = SELL ->
       n <= Repo.position_of (in_userId input) (in_instrumentId input) (db_orders s)) /\
      (in_side input = BUY ->
       ~ (Repo.available_cash (in_userId input) ARS_INSTRUMENT_ID (db_orders s)
          < Dec.times (inject_Z n) p)%Q))).
Proof.
  intros Hside H.
  destruct (insert_fits n p) eqn:Hfit.
  2:{ rewrite (validateAndCreate_misfit input n p s Hside Hfit) in H. discriminate. }
  pose proof (validateAndCreate_PDec input n p s Hside) as E.
  cbv zeta in E. rewrite (E Hfit) in H. injection H as <- <-.
  destruct (match in_side input with
            | BUY => _ | _ => _ end) eqn:Hr.
  - exists REJECTED. auto.
  - eexists. split; [reflexivity|]. split; [reflexivity|]. right.
    split; [reflexivity|]. split.
    + intros Hs. rewrite Hs in Hr. apply Z.ltb_ge in Hr. exact Hr.
    + intros Hb Hlt. rewrite Hb in Hr. apply lessThan_iff in Hlt. congruence.
Qed.

Lemma executeStockOrder_Done (input : CreateOrderInput) (pt : PriceText) (s : DB)
  (resp : OrderResponse) (s' : DB) :
  in_side input = BUY \/ in_side input = SELL ->
  executeStockOrder input pt s = Done resp s' ->
  exists p n st,
    pt = PDec p /\ resolved_size input p = Some n /\
    resp = respond (inserted_row s (fields_of input n (PDec p) st) p) /\
    s' = after_insert s (inserted_row s (fields_of input n (PDec p) st) p) /\
    (st = REJECTED \/
     (st = status_after_validation (in_type input) /\
      (in_side input = SELL ->
       n <= Repo.position_of (in_userId input) (in_instrumentId input) (db_orders s)) /\
      (in_side input = BUY ->
       ~ (Repo.available_cash (in_userId input) ARS_INSTRUMENT_ID (db_orders s)
          < Dec.times (inject_Z n) p)%Q))).
Proof.
  intros Hside H. destruct pt as [p|].
  2:{ destruct (executeStockOrder_undefined input s Hside) as (e & E & _). congruence. }
  exists p. unfold executeStockOrder in H. unfold resolved_size.
  destruct (in_size input) as [n|] eqn:Hsz.
  - apply validateAndCreate_Done in H; [|exact Hside].
    destruct H as (st & H). exists n, st. auto.
  - destruct (in_amount input) as [a|] eqn:Ha; [|discriminate]. cbn in H.
    destruct (Qeq_bool p 0); [discriminate|].
    destruct (Dec.floor (Dec.dividedBy a p) =? 0) eqn:Hz.
    + unfold Repo.createOrder in H. cbn -[Repo.numeric_12_2_ok] in H.
      destruct (Repo.numeric_12_2_ok p); [|discriminate]. cbn in H. injection H as <- <-.
      apply Z.eqb_eq in Hz. exists 0, REJECTED. cbn. rewrite Hz.
      split; [reflexivity|]. split; [reflexivity|]. split; [reflexivity|]. split; [reflexivity|].
      left; reflexivity.
    + apply validateAndCreate_Done in H; [|exact Hside].
      destruct H as (st & H). exists (Dec.floor (Dec.dividedBy a p)), st. auto.
Qed.

Lemma executeCashOperation_Done (input : CreateOrderInput) (s : DB)
  (resp : OrderResponse) (s' : DB) :
  executeCashOperation input s = Done resp s' ->
  in_instrumentId input = ARS_INSTRUMENT_ID /\
  exists n rejected,
    resolved_size input 1 = Some n /\
    (rejected = true -> in_side input = CASH_OUT) /\
    (rejected = false ->
     in_side input = CASH_OUT ->
     ~ (Repo.available_cash (in_userId input) ARS_INSTRUMENT_ID (db_orders s)
        < Dec.times (inject_Z n) 1)%Q) /\
    let f :=
      if rejected
      then Repo.mkFields ARS_INSTRUMENT_ID (in_userId input) n (PDec 1) MARKET CASH_OUT REJECTED
      else Repo.mkFields (in_instrumentId input) (in_userId input) n (PDec 1) (in_type input)
             (in_side input) FILLED in
    resp = respond (inserted_row s f 1) /\ s' = after_insert s (inserted_row s f 1).
Proof.
  intros H.
  assert (Hars : in_instrumentId input = ARS_INSTRUMENT_ID).
  { unfold executeCashOperation in H.
    destruct (in_instrumentId input =? ARS_INSTRUMENT_ID) eqn:E; [|discriminate].
    apply Z.eqb_eq in E. exact E. }
  split; [exact Hars|].
  assert (Hn : exists n, resolved_size input 1 = Some n).
  { unfold resolved_size. destruct (in_size input) as [n|] eqn:Hs; [eauto|].
    destruct (in_amount input) as [a|] eqn:Ha; [simpl; eauto|].
    unfold executeCashOperation in H. rewrite Hars, Hs, Ha in H. discriminate. }
  destruct Hn as [n Hn].
  destruct (Repo.int4_ok n) eqn:Hfit.
  2:{ rewrite (executeCashOperation_ars_misfit input n s Hars Hn Hfit) in H. discriminate. }
  pose proof (executeCashOperation_ars input n s Hars Hn Hfit) as E. cbv zeta in E.
  rewrite E in H. injection H as <- <-.
  exists n, (OrderSide_beq (in_side input) CASH_OUT
             && Dec.lessThan (Repo.available_cash (in_userId input) ARS_INSTRUMENT_ID
                                (db_orders s)) (Dec.times (inject_Z n) 1)).
  split; [exact Hn|]. split.
  - intros Hr. apply andb_true_iff in Hr. apply OrderSide_beq_true. apply Hr.
  - split; [|split; reflexivity].
    intros Hr Hs Hlt. rewrite Hs in Hr. apply lessThan_iff in Hlt. simpl in Hr. congruence.
Qed.

Lemma existsb_In (u : Z) (us : list Z) : existsb (Z.eqb u) us = true -> In u us.
Proof.
  intros H. apply existsb_exists in H. destruct H as (x & Hx & E).
  apply Z.eqb_eq in E. subst. exact Hx.
Qed.

Lemma stock_row_facts (input : CreateOrderInput) (s : DB) (p : Q) (n : Z) (st : OrderStatus) :
  execution_price s input = Some p ->
  resolved_size input p = Some n ->
  (st = REJECTED \/
   (st = status_after_validation (in_type input) /\
    (in_side input = SELL ->
     n <= Repo.position_of (in_userId input) (in_instrumentId input) (db_orders s)) /\
    (in_side input = BUY ->
     ~ (Repo.available_cash (in_userId input) ARS_INSTRUMENT_ID (db_orders s)
        < Dec.times (inject_Z n) p)%Q))) ->
  let o := inserted_row s (fields_of input n (PDec p) st) p in
  o_id o = db_next_id s /\ o_datetime o = db_now s /\
  o_userId o = in_userId input /\ o_instrumentId o = in_instrumentId input /\
  o_side o = in_side input /\ o_status o <> CANCELLED /\
  (o_status o = FILLED -> o_side o = SELL ->
   o_size o <= Repo.position_of (in_userId input) (in_instrumentId input) (db_orders s)) /\
  (o_status o = FILLED -> o_side o = BUY ->
   exists p', execution_price s input = Some p' /\ resolved_size input p' = Some (o_size o)).
Proof.
  intros Hp Hn Hst. cbn.
  do 5 (split; [reflexivity|]).
  destruct Hst as [-> | (-> & Hsell & _)].
  - split; [discriminate|]. split; discriminate.
  - split; [destruct (in_type input); discriminate|].
    split; [intros _; exact Hsell|]. intros _ _. exists p. auto.
Qed.

Lemma executeOrder_Done (input : CreateOrderInput) (s : DB) (resp : OrderResponse) (s' : DB) :
  executeOrder input s = Done resp s' ->
  In (in_userId input) (db_users s) /\
  (exists ins, find (fun x => ins_id x =? in_instrumentId input) (db_instruments s) = Some ins) /\
  exists o,
    resp = respond o /\ s' = after_insert s o /\
    o_id o = db_next_id s /\ o_datetime o = db_now s /\
    o_userId o = in_userId input /\ o_instrumentId o = in_instrumentId input /\
    o_side o = in_side input /\ o_status o <> CANCELLED /\
    (o_status o = FILLED -> o_side o = SELL ->
     o_size o <= Repo.position_of (in_userId input) (in_instrumentId input) (db_orders s)) /\
    (o_status o = FILLED -> o_side o = BUY ->
     exists p, execution_price s input = Some p /\ resolved_size input p = Some (o_size o)).
Proof.
  intros H. rewrite executeOrder_unfold in H.
  destruct (existsb (Z.eqb (in_userId input)) (db_users s)) eqn:Hu; [|discriminate].
  destruct (find (fun x => ins_id x =? in_instrumentId input) (db_instruments s))
    as [ins|] eqn:Hf; [|discriminate].
  split; [apply existsb_In; exact Hu|]. split; [eauto|].
  destruct (OrderSide_beq (in_side input) CASH_IN || OrderSide_beq (in_side input) CASH_OUT)
    eqn:Hc.
  - assert (Hside : in_side input = CASH_IN \/ in_side input = CASH_OUT)
      by (destruct (in_side input); simpl in Hc; auto; discriminate).
    apply executeCashOperation_Done in H.
    destruct H as (Hars & n & rej & Hn & Hrej & _ & Hr & Hs).
    destruct rej.
    + specialize (Hrej eq_refl).
      eexists. split; [exact Hr|]. split; [exact Hs|]. cbn.
      do 3 (split; [reflexivity|]). split; [symmetry; exact Hars|].
      split; [symmetry; exact Hrej|]. split; [discriminate|]. split; discriminate.
    + eexists. split; [exact Hr|]. split; [exact Hs|]. cbn.
      do 5 (split; [reflexivity|]). split; [discriminate|].
      split; intros _ E; rewrite E in Hside; destruct Hside; discriminate.
  - assert (Hside : in_side input = BUY \/ in_side input = SELL)
      by (destruct (in_side input); simpl in Hc; auto; discriminate).
    destruct (in_type input) eqn:Ht.
    + destruct (Repo.latest_market_data (db_marketdata s) (in_instrumentId input))
        as [md|] eqn:Hl; [|discriminate].
      apply executeStockOrder_Done in H; [|exact Hside].
      destruct H as (p & n & st & Ep & Hn & Hr & Hs & Hst). injection Ep as Ep.
      assert (Hp : execution_price s input = Some p)
        by (unfold execution_price; rewrite Ht, Hl; simpl; congruence).
      eexists. split; [exact Hr|]. split; [exact Hs|].
      exact (stock_row_facts input s p n st Hp Hn Hst).
    + apply executeStockOrder_Done in H; [|exact Hside].
      destruct H as (p & n & st & Ep & Hn & Hr & Hs & Hst).
      assert (Hp : execution_price s input = Some p).
      { unfold execution_price. rewrite Ht. unfold price_text in Ep.
        destruct (in_price input); [congruence|discriminate]. }
      eexists. split; [exact Hr|]. split; [exact Hs|].
      exact (stock_row_facts input s p n st Hp Hn Hst).
Qed.

(** A successful [executeOrder] appends exactly one row to the ledger, with
    the next id of the sequence, the time of the transaction and the
    user, instrument and side of the request; the row is never CANCELLED,
    and no other row and no other table changes. *)
Theorem executeOrder_appends_one_row (input : CreateOrderInput) (s : DB)
  (resp : OrderResponse) (s' : DB) :
  executeOrder input s = Done resp s' ->
  db_orders s' = db_orders s ++ [r_order resp] /\
  db_next_id s' = db_next_id s + 1 /\
  db_users s' = db_users s /\ db_instruments s' = db_instruments s /\
  db_marketdata s' = db_marketdata s /\
  o_id (r_order resp) = db_next_id s /\ o_datetime (r_order resp) = db_now s /\
  o_userId (r_order resp) = in_userId input /\
  o_instrumentId (r_order resp) = in_instrumentId input /\
  o_side (r_order resp) = in_side input /\
  o_status (r_order resp) <> CANCELLED.
Proof.
  intros H. apply executeOrder_Done in H.
  destruct H as (_ & _ & o & -> & -> & H). cbn. tauto.
Qed.

Lemma executeOrder_appends_one_row_witness :
  executeOrder buy_by_amount sample_db
  = Done (respond (mkOrder 2 47 1 6 150 MARKET BUY FILLED 2))
      (after_insert sample_db (mkOrder 2 47 1 6 150 MARKET BUY FILLED 2)) /\
  o_id (mkOrder 2 47 1 6 150 MARKET BUY FILLED 2) = db_next_id sample_db.
Proof.
  assert (H : executeOrder buy_by_amount sample_db
              = Done (respond (mkOrder 2 47 1 6 150 MARKET BUY FILLED 2))
                  (after_insert sample_db (mkOrder 2 47 1 6 150 MARKET BUY FILLED 2)))
    by (vm_compute; reflexivity).
  split; [exact H|].
  exact (proj1 (proj2 (proj2 (proj2 (proj2 (proj2
           (executeOrder_appends_one_row _ _ _ _ H))))))).
Defined.

(** ** Reading back what was written *)

Lemma cancelOrder_Done (oid uid : Z) (s : DB) (r : CancelResponse) (s' : DB) :
  cancelOrder oid uid s = Done r s' ->
  exists o ins,
    find_order oid (db_orders s) = Some o /\ o_userId o = uid /\ o_status o = NEW /\
    find (fun x => ins_id x =? o_instrumentId o) (db_instruments s) = Some ins /\
    r = mkCancel "Order cancelled successfully" (with_status CANCELLED o)
          (ins_ticker ins) (ins_name ins) (totalAmount (with_status CANCELLED o)) /\
    s' = after_update s oid CANCELLED.
Proof.
  intros H. destruct (find_order oid (db_orders s)) as [o|] eqn:Hf.
  2:{ unfold cancelOrder, transaction, bind, get_db in H. rewrite Hf in H. discriminate. }
  destruct (o_userId o =? uid) eqn:Hu.
  2:{ unfold cancelOrder, transaction, bind, get_db in H. rewrite Hf, Hu in H. discriminate. }
  destruct (OrderStatus_beq (o_status o) NEW) eqn:Hn.
  2:{ unfold cancelOrder, transaction, bind, get_db in H. rewrite Hf, Hu, Hn in H.
      discriminate. }
  apply Z.eqb_eq in Hu. assert (Hn' : o_status o = NEW) by (destruct (o_status o); easy).
  rewrite (cancelOrder_owned_new oid uid s o Hf Hu Hn') in H.
  destruct (find (fun x => ins_id x =? o_instrumentId o) (db_instruments s)) as [ins|] eqn:Hi;
    [|discriminate].
  injection H as <- <-. exists o, ins. auto 7.
Qed.

Lemma NoDup_map_app_single {A B} (f : A -> B) (l : list A) (x : A) :
  NoDup (map f l) -> ~ In (f x) (map f l) -> NoDup (map f (l ++ [x])).
Proof.
  intros Hl Hx. rewrite map_app. simpl.
  apply NoDup_app; [exact Hl|constructor; [intros []|constructor]|].
  intros y Hy [<-|[]]. exact (Hx Hy).
Qed.

Lemma executeOrder_ids_fresh (input : CreateOrderInput) (s : DB) (resp : OrderResponse)
  (s' : DB) :
  ids_fresh s -> executeOrder input s = Done resp s' -> ids_fresh s'.
Proof.
  intros [Hnd Hlt] H. apply executeOrder_Done in H.
  destruct H as (_ & _ & o & _ & -> & Hid & _). unfold ids_fresh, after_insert; cbn.
  split.
  - apply NoDup_map_app_single; [exact Hnd|]. rewrite Hid. intros Hin.
    apply in_map_iff in Hin. destruct Hin as (x & Ex & Hx).
    rewrite Forall_forall in Hlt. specialize (Hlt x Hx). lia.
  - apply Forall_app. split.
    + eapply Forall_impl; [|exact Hlt]. intros x Hx. cbn in Hx. lia.
    + constructor; [lia|constructor].
Qed.

Lemma map_o_id_update (oid : Z) (st : OrderStatus) (l : list Order) :
  map o_id (map (fun o => if o_id o =? oid then with_status st o else o) l) = map o_id l.
Proof.
  induction l as [|x l IH]; [reflexivity|]. simpl. rewrite IH.
  destruct (o_id x =? oid); reflexivity.
Qed.

Lemma cancelOrder_ids_fresh (oid uid : Z) (s : DB) (r : CancelResponse) (s' : DB) :
  ids_fresh s -> cancelOrder oid uid s = Done r s' -> ids_fresh s'.
Proof.
  intros [Hnd Hlt] H. apply cancelOrder_Done in H.
  destruct H as (o & ins & _ & _ & _ & _ & _ & ->). unfold ids_fresh, after_update; cbn.
  rewrite map_o_id_update. split; [exact Hnd|].
  rewrite Forall_forall in *. intros x Hx. apply in_map_iff in Hx.
  destruct Hx as (y & <- & Hy). specialize (Hlt y Hy).
  destruct (o_id y =? oid); exact Hlt.
Qed.

(** Order ids stay unique and below the sequence: [executeOrder] and
    [cancelOrder] keep [ids_fresh]. *)
Theorem ledger_ids_stay_fresh (s : DB) :
  ids_fresh s ->
  (forall input resp s', executeOrder input s = Done resp s' -> ids_fresh s') /\
  (forall oid uid r s', cancelOrder oid uid s = Done r s' -> ids_fresh s').
Proof.
  intros H. split.
  - intros input resp s'. exact (executeOrder_ids_fresh input s resp s' H).
  - intros oid uid r s'. exact (cancelOrder_ids_fresh oid uid s r s' H).
Qed.

Lemma ledger_ids_stay_fresh_witness :
  ids_fresh sample_db /\
  ids_fresh (after_insert sample_db (mkOrder 2 47 1 6 150 MARKET BUY FILLED 2)).
Proof.
  assert (H0 : ids_fresh sample_db).
  { split; [constructor; [simpl; tauto|constructor]|].
    constructor; [simpl; lia|constructor]. }
  split; [exact H0|].
  apply (proj1 (ledger_ids_stay_fresh sample_db H0) buy_by_amount
           (respond (mkOrder 2 47 1 6 150 MARKET BUY FILLED 2))).
  vm_compute; reflexivity.
Defined.

Lemma join_first_find (oid : Z) (insts : list Instrument) (l : list Order) (o : Order)
  (ins : Instrument) :
  find_order oid l = Some o ->
  find (fun x => ins_id x =? o_instrumentId o) insts = Some ins ->
  OrderRead.join_first oid insts l = Some (o, ins).
Proof.
  induction l as [|x l IH]; intros Hf Hi; [discriminate|].
  unfold find_order in Hf. simpl in Hf. simpl.
  destruct (o_id x =? oid).
  - injection Hf as ->. rewrite Hi. reflexivity.
  - apply IH; assumption.
Qed.

Lemma find_order_app_fresh (oid : Z) (l : list Order) (o : Order) :
  Forall (fun x => o_id x < oid) l -> o_id o = oid -> find_order oid (l ++ [o]) = Some o.
Proof.
  intros Hl Ho. induction l as [|x l IH]; unfold find_order; simpl.
  - rewrite Ho, Z.eqb_refl. reflexivity.
  - inversion Hl as [|? ? Hx Hl']; subst.
    destruct (o_id x =? o_id o) eqn:E; [apply Z.eqb_eq in E; lia|]. apply IH. exact Hl'.
Qed.

(** After a successful [executeOrder], [getOrderById] of the new id returns
    the row the response carries, with the same [totalAmount] and the
    ticker and name of its instrument. *)
Theorem executeOrder_then_getOrderById (input : CreateOrderInput) (s : DB)
  (resp : OrderResponse) (s' : DB) :
  ids_fresh s ->
  executeOrder input s = Done resp s' ->
  exists ins,
    find (fun x => ins_id x =? in_instrumentId input) (db_instruments s) = Some ins /\
    OrderRead.getOrderById (o_id (r_order resp)) s'
    = Done (OrderRead.mkOrderView (r_order resp) (ins_ticker ins) (ins_name ins)
              (r_totalAmount resp)) s'.
Proof.
  intros [_ Hlt] H. apply executeOrder_Done in H.
  destruct H as (_ & (ins & Hi) & o & -> & -> & Hid & _ & _ & Hins & _).
  exists ins. split; [exact Hi|].
  unfold OrderRead.getOrderById, OrderRead.findOrderById, bind, ret. cbn.
  rewrite (join_first_find _ _ _ o ins).
  - reflexivity.
  - apply find_order_app_fresh; [|reflexivity]. rewrite Hid. exact Hlt.
  - rewrite Hins. exact Hi.
Qed.

Lemma executeOrder_then_getOrderById_witness :
  ids_fresh sample_db /\
  OrderRead.getOrderById 2
    (after_insert sample_db (mkOrder 2 47 1 6 150 MARKET BUY FILLED 2))
  = Done (OrderRead.mkOrderView (mkOrder 2 47 1 6 150 MARKET BUY FILLED 2) "GGAL"
            "Grupo Financiero Galicia" (totalAmount (mkOrder 2 47 1 6 150 MARKET BUY FILLED 2)))
      (after_insert sample_db (mkOrder 2 47 1 6 150 MARKET BUY FILLED 2)).
Proof.
  assert (H0 : ids_fresh sample_db).
  { split; [constructor; [simpl; tauto|constructor]|].
    constructor; [simpl; lia|constructor]. }
  split; [exact H0|].
  destruct (executeOrder_then_getOrderById buy_by_amount sample_db
              (respond (mkOrder 2 47 1 6 150 MARKET BUY FILLED 2))
              (after_insert sample_db (mkOrder 2 47 1 6 150 MARKET BUY FILLED 2)) H0
              ltac:(vm_compute; reflexivity)) as (ins & Hi & H).
  vm_compute in Hi. injection Hi as <-. exact H.
Defined.

Lemma find_order_update (oid : Z) (st : OrderStatus) (l : list Order) (o : Order) :
  find_order oid l = Some o ->
  find_order oid (map (fun x => if o_id x =? oid then with_status st x else x) l)
  = Some (with_status st o).
Proof.
  induction l as [|x l IH]; intros Hf; [discriminate|].
  unfold find_order in *. simpl in *.
  destruct (o_id x =? oid) eqn:E.
  - injection Hf as ->. simpl. rewrite E. reflexivity.
  - rewrite E. apply IH. exact Hf.
Qed.

(** After a successful [cancelOrder], [getOrderById] returns the cancelled
    row with the ticker, name and [totalAmount] of the response, and a second
    cancellation of the same order by the same user is refused. *)
Theorem cancelOrder_then_read_and_repeat (oid uid : Z) (s : DB) (r : CancelResponse)
  (s' : DB) :
  cancelOrder oid uid s = Done r s' ->
  o_status (c_order r) = CANCELLED /\
  OrderRead.getOrderById oid s'
  = Done (OrderRead.mkOrderView (c_order r) (c_ticker r) (c_name r) (c_totalAmount r)) s' /\
  cancelOrder oid uid s'
  = Raise (BusinessRuleError "Only NEW orders can be cancelled. Current status: CANCELLED").
Proof.
  intros H. apply cancelOrder_Done in H.
  destruct H as (o & ins & Hf & Hu & _ & Hi & -> & ->).
  assert (Hf' : find_order oid (db_orders (after_update s oid CANCELLED))
                = Some (with_status CANCELLED o))
    by (apply find_order_update; exact Hf).
  assert (Hj : OrderRead.join_first oid (db_instruments (after_update s oid CANCELLED))
                 (db_orders (after_update s oid CANCELLED))
               = Some (with_status CANCELLED o, ins))
    by (apply join_first_find; [exact Hf'|exact Hi]).
  split; [reflexivity|]. split.
  - unfold OrderRead.getOrderById, OrderRead.findOrderById, bind. rewrite Hj. reflexivity.
  - unfold cancelOrder, transaction, bind, get_db. rewrite Hf'. cbn.
    rewrite Hu, Z.eqb_refl. reflexivity.
Qed.

Lemma cancelOrder_then_read_and_repeat_witness :
  o_status (with_status CANCELLED (mkOrder 2 47 1 5 140 LIMIT BUY NEW 2)) = CANCELLED /\
  cancelOrder 2 1
    (after_update (after_insert sample_db (mkOrder 2 47 1 5 140 LIMIT BUY NEW 2)) 2 CANCELLED)
  = Raise (BusinessRuleError "Only NEW orders can be cancelled. Current status: CANCELLED").
Proof.
  destruct (cancelOrder_then_read_and_repeat 2 1
              (after_insert sample_db (mkOrder 2 47 1 5 140 LIMIT BUY NEW 2))
              (mkCancel "Order cancelled successfully"
                 (with_status CANCELLED (mkOrder 2 47 1 5 140 LIMIT BUY NEW 2))
                 "GGAL" "Grupo Financiero Galicia"
                 (totalAmount (with_status CANCELLED (mkOrder 2 47 1 5 140 LIMIT BUY NEW 2))))
              (after_update (after_insert sample_db (mkOrder 2 47 1 5 140 LIMIT BUY NEW 2))
                 2 CANCELLED)
              ltac:(vm_compute; reflexivity)) as (H1 & _ & H3).
  split; [exact H1|exact H3].
Defined.

(** ** Cancellation and balances *)

Lemma NoDup_map_inj {A B} (f : A -> B) (l : list A) (x y : A) :
  NoDup (map f l) -> In x l -> In y l -> f x = f y -> x = y.
Proof.
  induction l as [|a l IH]; intros Hnd Hx Hy E; [destruct Hx|].
  simpl in Hnd. inversion Hnd as [|? ? Ha Hl]; subst.
  destruct Hx as [<-|Hx], Hy as [<-|Hy]; auto.
  - exfalso. apply Ha. rewrite E. apply in_map. exact Hy.
  - exfalso. apply Ha. rewrite <- E. apply in_map. exact Hx.
Qed.

Lemma filter_update_same (h : Order -> bool) (oid : Z) (st : OrderStatus) (l : list Order) :
  (forall x, In x l -> o_id x = oid -> h x = false /\ h (with_status st x) = false) ->
  filter h (map (fun x => if o_id x =? oid then with_status st x else x) l) = filter h l.
Proof.
  induction l as [|x l IH]; intros H; [reflexivity|]. simpl.
  rewrite IH by (intros y Hy; apply H; right; exact Hy).
  destruct (o_id x =? oid) eqn:E; [|reflexivity].
  apply Z.eqb_eq in E. destruct (H x (or_introl eq_refl) E) as [H1 H2].
  rewrite H1, H2. reflexivity.
Qed.

Lemma cancel_rows_not_filled (oid uid : Z) (s : DB) (r : CancelResponse) (s' : DB) :
  NoDup (map o_id (db_orders s)) ->
  cancelOrder oid uid s = Done r s' ->
  s' = after_update s oid CANCELLED /\
  forall x, In x (db_orders s) -> o_id x = oid ->
    o_status x <> FILLED /\ o_status (with_status CANCELLED x) <> FILLED.
Proof.
  intros Hnd H. apply cancelOrder_Done in H.
  destruct H as (o & ins & Hf & _ & Hn & _ & _ & ->). split; [reflexivity|].
  intros x Hx Ex. apply find_some in Hf. destruct Hf as [Ho Eo]. apply Z.eqb_eq in Eo.
  assert (x = o) by (apply (NoDup_map_inj o_id (db_orders s)); auto; congruence).
  subst x. rewrite Hn. split; discriminate.
Qed.

Lemma filled_of_not_filled (u : Z) (x : Order) :
  o_status x <> FILLED -> Repo.filled_of u x = false.
Proof.
  intros H. unfold Repo.filled_of.
  destruct (o_status x); [| congruence | |]; apply andb_false_r.
Qed.

(** When order ids are unique, a successful [cancelOrder] changes no
    user's available cash or position, and every user's portfolio reads the
    same before and after it. *)
Theorem cancelOrder_keeps_balances (oid uid : Z) (s : DB) (r : CancelResponse) (s' : DB) :
  NoDup (map o_id (db_orders s)) ->
  cancelOrder oid uid s = Done r s' ->
  forall u,
    (forall ars, Repo.available_cash u ars (db_orders s') = Repo.available_cash u ars (db_orders s)) /\
    (forall i, Repo.position_of u i (db_orders s') = Repo.position_of u i (db_orders s)) /\
    PortfolioService.getUserPortfolio u s'
    = match PortfolioService.getUserPortfolio u s with
      | Done p _ => Done p s'
      | Raise e => Raise e
      end.
Proof.
  intros Hnd H u. apply cancel_rows_not_filled in H; [|exact Hnd]. destruct H as [Hs' Hx].
  assert (Hf : filter (Repo.filled_of u) (db_orders s') = filter (Repo.filled_of u) (db_orders s)).
  { rewrite Hs'. apply filter_update_same. intros x Hin E.
    destruct (Hx x Hin E) as [H1 H2]. split; apply filled_of_not_filled; assumption. }
  assert (Hu : db_users s' = db_users s) by (rewrite Hs'; reflexivity).
  assert (Hi : db_instruments s' = db_instruments s) by (rewrite Hs'; reflexivity).
  assert (Hm : db_marketdata s' = db_marketdata s) by (rewrite Hs'; reflexivity).
  split; [intros ars; unfold Repo.available_cash; rewrite Hf; reflexivity|]. split.
  - intros i. unfold Repo.position_of. f_equal. f_equal. rewrite Hs'.
    apply filter_update_same. intros x Hin E.
    destruct (Hx x Hin E) as [H1 H2].
    rewrite !filled_of_not_filled by assumption. split; reflexivity.
  - clear Hs' Hx. unfold PortfolioService.getUserPortfolio, bind, ret, throw, get_db,
      Repo.findUserById, Repo.getFilledOrdersByUserId, Repo.getUserAvailableCash,
      Repo.filled_orders, Repo.available_cash.
    rewrite Hu. destruct (existsb (Z.eqb u) (db_users s)); [|reflexivity].
    change (negb true) with false. cbv beta iota.
    rewrite Hf.
    destruct (PortfolioService.calculatePositions _); [reflexivity|]. cbv beta iota.
    rewrite Hi, Hm. reflexivity.
Qed.

Lemma cancelOrder_keeps_balances_witness :
  Repo.available_cash 1 66
    (db_orders (after_update (after_insert sample_db (mkOrder 2 47 1 5 140 LIMIT BUY NEW 2))
                  2 CANCELLED))
  = Repo.available_cash 1 66
      (db_orders (after_insert sample_db (mkOrder 2 47 1 5 140 LIMIT BUY NEW 2))).
Proof.
  destruct (cancelOrder_keeps_balances 2 1
              (after_insert sample_db (mkOrder 2 47 1 5 140 LIMIT BUY NEW 2))
              (mkCancel "Order cancelled successfully"
                 (with_status CANCELLED (mkOrder 2 47 1 5 140 LIMIT BUY NEW 2))
                 "GGAL" "Grupo Financiero Galicia"
                 (totalAmount (with_status CANCELLED (mkOrder 2 47 1 5 140 LIMIT BUY NEW 2))))
              (after_update (after_insert sample_db (mkOrder 2 47 1 5 140 LIMIT BUY NEW 2))
                 2 CANCELLED)
              ltac:(simpl; constructor; [simpl; lia|constructor; [simpl; tauto|constructor]])
              ltac:(vm_compute; reflexivity) 1) as (H1 & _ & _).
  apply H1.
Defined.

(** ** Errors of [POST /api/orders] *)

Lemma executeStockOrder_PDec_Raise (input : CreateOrderInput) (p : Q) (s : DB) (e : AppError) :
  in_side input = BUY \/ in_side input = SELL ->
  executeStockOrder input (PDec p) s = Raise e ->
  (exists n, insert_fits n p = false /\ e = insert_error n p) \/
  (in_size input = None /\
   ((in_amount input = None /\ e = DecimalError "[DecimalError] Invalid argument: undefined") \/
    (Qeq_bool p 0 = true /\ e = Repo.infinity_size_error))).
Proof.
  intros Hside H. unfold executeStockOrder in H.
  assert (Hvc : forall n, validateAndCreate input n (PDec p) s = Raise e ->
                  exists n, insert_fits n p = false /\ e = insert_error n p).
  { intros n Hn. exists n. destruct (insert_fits n p) eqn:Hfit.
    - pose proof (validateAndCreate_PDec input n p s Hside) as E. cbv zeta in E.
      rewrite (E Hfit) in Hn. discriminate.
    - rewrite (validateAndCreate_misfit input n p s Hside Hfit) in Hn.
      injection Hn as <-. auto. }
  destruct (in_size input) as [n|].
  - left. exact (Hvc n H).
  - destruct (in_amount input) as [a|].
    + cbn -[Repo.createOrder validateAndCreate] in H.
      destruct (Qeq_bool p 0); [injection H as <-; right; auto|].
      destruct (Dec.floor (Dec.dividedBy a p) =? 0); [|left; exact (Hvc _ H)].
      unfold bind in H.
      destruct (Repo.createOrder (fields_of input 0 (PDec p) REJECTED) s) eqn:Hc;
        [discriminate|]. injection H as <-.
      left. exists 0. destruct (insert_fits 0 p) eqn:Hfit.
      * rewrite createOrder_fits with (p := p) in Hc; [discriminate | reflexivity | exact Hfit].
      * rewrite createOrder_misfit with (p := p) in Hc; [| reflexivity | exact Hfit].
        injection Hc as <-. auto.
    + right. split; [reflexivity|]. left. cbn in H. injection H as <-. auto.
Qed.

Lemma executeCashOperation_Raise (input : CreateOrderInput) (s : DB) (e : AppError) :
  executeCashOperation input s = Raise e ->
  (exists msg, e = BusinessRuleError msg) \/ (in_size input = None /\ in_amount input = None) \/
  (exists n, resolved_size input 1 = Some n /\ Repo.int4_ok n = false).
Proof.
  intros H. destruct (in_instrumentId input =? ARS_INSTRUMENT_ID) eqn:Ha.
  2:{ left. unfold executeCashOperation in H. rewrite Ha in H. cbn in H.
      injection H as <-. eauto. }
  apply Z.eqb_eq in Ha. right.
  assert (Hsz : forall n, resolved_size input 1 = Some n ->
                  exists n, resolved_size input 1 = Some n /\ Repo.int4_ok n = false).
  { intros n Hn. exists n. split; [exact Hn|].
    destruct (Repo.int4_ok n) eqn:Hfit; [|reflexivity].
    pose proof (executeCashOperation_ars input n s Ha Hn Hfit) as E. cbv zeta in E. congruence. }
  destruct (in_size input) as [n|] eqn:Hs.
  - right. apply (Hsz n). unfold resolved_size; rewrite Hs; reflexivity.
  - destruct (in_amount input) as [a|] eqn:Ham; [|left; auto].
    right. apply (Hsz (Dec.floor (Dec.dividedBy a 1))).
    unfold resolved_size; rewrite Hs, Ham; reflexivity.
Qed.

(** [POST /api/orders] fails only in these ways: the body fails
    [createOrderSchema]; the user or the instrument is missing, the
    instrument of a cash operation is not ARS, or a MARKET order has no
    price snapshot (the engine's own checks); a MARKET order given by
    [amount] meets a latest close of 0; or the insertion of a BUY or SELL
    order fails because its size does not fit the INTEGER column or its
    price does not fit NUMERIC(12, 2).  In particular a request that passes
    validation never reaches the [undefined] price, and the size of a cash
    operation always fits. *)
Theorem createOrder_controller_errors (body : CreateOrderInput) (s : DB) (e : HttpError) :
  OrdersController.createOrder body s = inl e ->
  (OrderValidator.createOrderSchema body = false /\ e = ValidationError "Invalid order data") \/
  exists ae, e = ServiceError ae /\
    (rule_error ae \/
     (ae = Repo.infinity_size_error /\
      in_type body = MARKET /\ in_size body = None /\
      exists md, Repo.latest_market_data (db_marketdata s) (in_instrumentId body) = Some md /\
                 (md_close md == 0)%Q) \/
     ((in_side body = BUY \/ in_side body = SELL) /\
      exists n p, insert_fits n p = false /\ ae = insert_error n p)).
Proof.
  unfold OrdersController.createOrder.
  destruct (OrderValidator.createOrderSchema body) eqn:Hv.
  2:{ intros H. injection H as <-. left. auto. }
  intros E. right. pose proof (schema_facts body Hv) as (_ & _ & _ & _ & Hsa & Hlim & _).
  destruct (executeOrder body s) as [a s'|ae] eqn:H; [discriminate|].
  injection E as <-. exists ae. split; [reflexivity|].
  rewrite executeOrder_unfold in H.
  destruct (existsb (Z.eqb (in_userId body)) (db_users s));
    [|injection H as <-; left; eexists; left; reflexivity].
  destruct (find (fun x => ins_id x =? in_instrumentId body) (db_instruments s)) as [ins|];
    [|injection H as <-; left; eexists; left; reflexivity].
  destruct (OrderSide_beq (in_side body) CASH_IN || OrderSide_beq (in_side body) CASH_OUT)
    eqn:Hc.
  - apply executeCashOperation_Raise in H. destruct H as [(msg & ->)|[[Hs Ha]|(n & Hn & Hfit)]].
    + left. exists msg. right. reflexivity.
    + exfalso. destruct (Hsa Hs) as (a & Ea). congruence.
    + exfalso. rewrite (schema_cash_size_fits body n Hv Hn) in Hfit. discriminate.
  - assert (Hside : in_side body = BUY \/ in_side body = SELL)
      by (destruct (in_side body); simpl in Hc; auto; discriminate).
    destruct (in_type body) eqn:Ht.
    + destruct (Repo.latest_market_data (db_marketdata s) (in_instrumentId body)) as [md|] eqn:Hl;
        [|injection H as <-; left; eexists; right; reflexivity].
      apply executeStockOrder_PDec_Raise in H; [|exact Hside].
      destruct H as [(n & Hfit & ->)|[Hs [[Ha _]|[Hz ->]]]].
      * right. right. split; [exact Hside|]. eauto.
      * exfalso. destruct (Hsa Hs) as (a & Ea). congruence.
      * right. left. split; [reflexivity|]. split; [reflexivity|]. split; [exact Hs|].
        exists md. split; [reflexivity|]. apply Qeq_bool_iff. exact Hz.
    + destruct (Hlim eq_refl) as (p & Ep & Hp). rewrite Ep in H. simpl in H.
      apply executeStockOrder_PDec_Raise in H; [|exact Hside].
      destruct H as [(n & Hfit & ->)|[Hs [[Ha _]|[Hz _]]]].
      * right. right. split; [exact Hside|]. eauto.
      * exfalso. destruct (Hsa Hs) as (a & Ea). congruence.
      * exfalso. apply Qeq_bool_iff in Hz. rewrite Hz in Hp. discriminate.
Qed.

Lemma createOrder_controller_errors_witness :
  OrdersController.createOrder limit_sell_no_price sample_db
  = inl (ValidationError "Invalid order data") /\
  OrderValidator.createOrderSchema limit_sell_no_price = false.
Proof.
  assert (H : OrdersController.createOrder limit_sell_no_price sample_db
              = inl (ValidationError "Invalid order data")) by (vm_compute; reflexivity).
  split; [exact H|].
  destruct (createOrder_controller_errors _ _ _ H) as [[Hv _]|(ae & E & _)];
    [exact Hv|discriminate].
Defined.

(** ** Positions never go below zero *)

Lemma fold_sum_app (l1 l2 : list Z) :
  fold_right Z.add 0 (l1 ++ l2) = fold_right Z.add 0 l1 + fold_right Z.add 0 l2.
Proof. induction l1; simpl; lia. Qed.

Lemma position_of_app (u i : Z) (l : list Order) (o : Order) :
  Repo.position_of u i (l ++ [o]) =
  Repo.position_of u i l +
  (if Repo.filled_of u o && (o_instrumentId o =? i)
      && (OrderSide_beq (o_side o) BUY || OrderSide_beq (o_side o) SELL)
   then Repo.position_effect o else 0).
Proof.
  unfold Repo.position_of. rewrite filter_app, map_app, fold_sum_app. f_equal.
  simpl. destruct (_ && _); simpl; lia.
Qed.

Lemma execution_price_positive (s : DB) (input : CreateOrderInput) (p : Q) :
  OrderValidator.createOrderSchema input = true ->
  (forall md, In md (db_marketdata s) -> (0 < md_close md)%Q) ->
  execution_price s input = Some p -> (0 < p)%Q.
Proof.
  intros Hv Hmd Hp. pose proof (schema_facts input Hv) as (_ & _ & _ & _ & _ & Hlim & _).
  unfold execution_price in Hp. destruct (in_type input) eqn:Ht.
  - destruct (Repo.latest_market_data (db_marketdata s) (in_instrumentId input)) as [md|] eqn:Hl;
      [|discriminate].
    injection Hp as <-. unfold Repo.latest_market_data in Hl.
    apply latest_of_spec in Hl. destruct Hl as ([E|Hin] & _); [discriminate|].
    apply filter_In in Hin. apply Hmd. apply Hin.
  - destruct (Hlim eq_refl) as (q & Eq & Hq). congruence.
Qed.

(** For a request that passes [createOrderSchema], when every price
    snapshot has a positive close, a successful [executeOrder] keeps every
    user's position in every instrument (the sum [getUserPositionForInstrument]
    computes) non-negative: a FILLED SELL never exceeds the position, and a
    FILLED BUY never has a negative size. *)
Theorem executeOrder_keeps_positions_nonneg (input : CreateOrderInput) (s : DB)
  (resp : OrderResponse) (s' : DB) :
  OrderValidator.createOrderSchema input = true ->
  (forall md, In md (db_marketdata s) -> (0 < md_close md)%Q) ->
  (forall u i, 0 <= Repo.position_of u i (db_orders s)) ->
  executeOrder input s = Done resp s' ->
  forall u i, 0 <= Repo.position_of u i (db_orders s').
Proof.
  intros Hv Hmd Hpos H u i.
  pose proof (schema_facts input Hv) as (_ & _ & Hsz & Ham & _ & _ & _).
  apply executeOrder_Done in H.
  destruct H as (_ & _ & o & _ & -> & _ & _ & Hu & Hi & _ & _ & Hsell & Hbuy).
  unfold after_insert. cbn [db_orders]. rewrite position_of_app.
  specialize (Hpos u i).
  destruct (Repo.filled_of u o && (o_instrumentId o =? i)
            && (OrderSide_beq (o_side o) BUY || OrderSide_beq (o_side o) SELL)) eqn:Hc; [|lia].
  rewrite !andb_true_iff in Hc. destruct Hc as [[Hf Hinst] Hside].
  unfold Repo.filled_of in Hf. apply andb_true_iff in Hf. destruct Hf as [Hou Hst].
  apply Z.eqb_eq in Hou. apply Z.eqb_eq in Hinst.
  assert (Hst' : o_status o = FILLED) by (destruct (o_status o); easy).
  unfold Repo.position_effect. destruct (o_side o) eqn:Hs; try (simpl in Hside; discriminate).
  - destruct (Hbuy Hst' eq_refl) as (p & Hp & Hn).
    pose proof (execution_price_positive s input p Hv Hmd Hp) as Hp0.
    unfold resolved_size in Hn. destruct (in_size input) as [n|] eqn:E.
    + injection Hn as Hn. specialize (Hsz n eq_refl). lia.
    + destruct (in_amount input) as [a|] eqn:Ea; [|discriminate].
      injection Hn as Hn. rewrite <- Hn.
      pose proof (amount_size_nonneg a p (proj1 (Ham a eq_refl)) Hp0). lia.
  - specialize (Hsell Hst' eq_refl). rewrite <- Hu, <- Hi, Hou, Hinst in Hsell. lia.
Qed.

Lemma executeOrder_keeps_positions_nonneg_witness :
  OrderValidator.createOrderSchema buy_by_amount = true /\
  0 <= Repo.position_of 1 47
         (db_orders (after_insert sample_db (mkOrder 2 47 1 6 150 MARKET BUY FILLED 2))).
Proof.
  split; [vm_compute; reflexivity|].
  apply (executeOrder_keeps_positions_nonneg buy_by_amount sample_db
           (respond (mkOrder 2 47 1 6 150 MARKET BUY FILLED 2))
           (after_insert sample_db (mkOrder 2 47 1 6 150 MARKET BUY FILLED 2))).
  - vm_compute; reflexivity.
  - intros md [<-|[]]. vm_compute. reflexivity.
  - intros u i. unfold Repo.position_of. simpl. rewrite andb_false_r. simpl. lia.
  - vm_compute; reflexivity.
Defined.

(** ** The positions of a portfolio *)

Lemma insert_by_value_sorted (x : Position) (l : list Position) :
  Sorted value_first l -> Sorted value_first (insert_by_value x l).
Proof.
  induction l as [|y l IH]; intros H; simpl; [repeat constructor|].
  destruct (Dec.lessThan (p_marketValue y) (p_marketValue x)) eqn:E.
  - apply lessThan_iff in E. constructor; [exact H|constructor].
    unfold value_first. apply Qlt_le_weak. exact E.
  - assert (E' : (p_marketValue x <= p_marketValue y)%Q).
    { apply Qnot_lt_le. intros Hlt. apply lessThan_iff in Hlt. congruence. }
    inversion H as [|? ? Hs Hhd]; subst.
    constructor; [apply IH, Hs|].
    destruct l as [|z l]; simpl.
    + constructor. exact E'.
    + inversion Hhd; subst.
      destruct (Dec.lessThan (p_marketValue z) (p_marketValue x)); constructor; assumption.
Qed.

Lemma sort_by_value_sorted_acc (l acc : list Position) :
  Sorted value_first acc ->
  Sorted value_first (fold_left (fun acc x => insert_by_value x acc) l acc).
Proof.
  revert acc. induction l as [|x l IH]; intros acc H; simpl; [exact H|].
  apply IH, insert_by_value_sorted, H.
Qed.

Lemma insert_by_value_perm (x : Position) (l : list Position) :
  Permutation (x :: l) (insert_by_value x l).
Proof.
  induction l as [|y l IH]; simpl; [reflexivity|].
  destruct (Dec.lessThan (p_marketValue y) (p_marketValue x)); [reflexivity|].
  rewrite perm_swap. constructor. exact IH.
Qed.

Lemma sort_by_value_perm_acc (l acc : list Position) :
  Permutation (l ++ acc) (fold_left (fun acc x => insert_by_value x acc) l acc).
Proof.
  revert acc. induction l as [|x l IH]; intros acc; simpl; [reflexivity|].
  rewrite <- IH. rewrite <- insert_by_value_perm.
  apply Permutation_middle.
Qed.

Lemma enrich_one_id (md : list MarketData) (ins : list Instrument) (c : PositionCalculation)
  (p : Position) :
  enrich_one md ins c = Some p -> p_instrumentId p = pc_instrumentId c.
Proof.
  unfold enrich_one. destruct (Repo.latest_market_data md (pc_instrumentId c)); [|discriminate].
  destruct (find _ ins); [|discriminate]. intros H. injection H as <-. reflexivity.
Qed.

Lemma enrich_fold_nodup (md : list MarketData) (ins : list Instrument)
  (cs : list PositionCalculation) :
  NoDup (map pc_instrumentId cs) ->
  NoDup (map p_instrumentId
           (fold_right (fun c acc => match enrich_one md ins c with
                                     | Some p => p :: acc
                                     | None => acc
                                     end) [] cs)) /\
  (forall q, In q (fold_right (fun c acc => match enrich_one md ins c with
                                            | Some p => p :: acc
                                            | None => acc
                                            end) [] cs) ->
             In (p_instrumentId q) (map pc_instrumentId cs)).
Proof.
  induction cs as [|c cs IH]; intros H; simpl; [split; [constructor|intros q []]|].
  inversion H as [|? ? Hc Hcs]; subst. destruct (IH Hcs) as [IH1 IH2].
  destruct (enrich_one md ins c) as [p|] eqn:E.
  - apply enrich_one_id in E. simpl. split.
    + constructor; [|exact IH1]. rewrite E. intros Hin.
      apply in_map_iff in Hin. destruct Hin as (q & Eq & Hq).
      apply Hc. rewrite <- Eq. apply IH2. exact Hq.
    + intros q [<-|Hq]; [left; symmetry; exact E|right; apply IH2; exact Hq].
  - split; [exact IH1|]. intros q Hq. right. apply IH2. exact Hq.
Qed.

Lemma NoDup_map_filter {A B} (f : A -> B) (g : A -> bool) (l : list A) :
  NoDup (map f l) -> NoDup (map f (filter g l)).
Proof.
  induction l as [|x l IH]; intros H; simpl; [constructor|].
  inversion H as [|? ? Hx Hl]; subst. destruct (g x); [|apply IH, Hl].
  simpl. constructor; [|apply IH, Hl]. intros Hin. apply Hx.
  apply in_map_iff in Hin. destruct Hin as (y & Ey & Hy). rewrite <- Ey.
  apply in_map. apply filter_In in Hy. apply Hy.
Qed.

Lemma calculatePositions_nodup (orders : list Order) :
  NoDup (map pc_instrumentId (calculatePositions orders)).
Proof.
  unfold calculatePositions. rewrite map_map. simpl.
  apply NoDup_map_filter. apply replay_nodup.
Qed.

(** The positions of a portfolio come largest market value first. *)
Theorem getUserPortfolio_sorted_by_value (u : Z) (s s' : DB) (pf : Portfolio) :
  getUserPortfolio u s = Done pf s' -> Sorted value_first (pf_positions pf).
Proof.
  intros H. destruct (getUserPortfolio_positions u s s' pf H) as [-> | ->]; [constructor|].
  unfold enrichPositions, sort_by_value. apply sort_by_value_sorted_acc. constructor.
Qed.

Lemma getUserPortfolio_sorted_by_value_witness :
  match getUserPortfolio 1
          (mkDB [1] [ars_instrument; ggal; ypf]
             [mkMarketData 47 150 145 1; mkMarketData 48 60 50 1]
             [mkOrder 1 66 1 10000 1 MARKET CASH_IN FILLED 1;
              mkOrder 2 48 1 3 50 MARKET BUY FILLED 2;
              mkOrder 3 47 1 5 100 MARKET BUY FILLED 3] 4 4) with
  | Done pf _ => Sorted value_first (pf_positions pf) /\
                 map p_instrumentId (pf_positions pf) = [47; 48]
  | Raise _ => False
  end.
Proof.
  destruct (getUserPortfolio 1 _) as [pf s'|e] eqn:E.
  - split; [exact (getUserPortfolio_sorted_by_value _ _ _ _ E)|].
    vm_compute in E. injection E as <- _. reflexivity.
  - vm_compute in E. discriminate.
Defined.

(** No instrument appears twice among the positions of a portfolio. *)
Theorem getUserPortfolio_distinct_instruments (u : Z) (s s' : DB) (pf : Portfolio) :
  getUserPortfolio u s = Done pf s' -> NoDup (map p_instrumentId (pf_positions pf)).
Proof.
  intros H. destruct (getUserPortfolio_positions u s s' pf H) as [-> | ->]; [constructor|].
  unfold enrichPositions, sort_by_value.
  eapply Permutation_NoDup.
  { apply Permutation_map. rewrite <- (app_nil_r (fold_right _ [] _)) at 1.
    apply sort_by_value_perm_acc. }
  rewrite !app_nil_r. apply enrich_fold_nodup, calculatePositions_nodup.
Qed.

Lemma getUserPortfolio_distinct_instruments_witness :
  match getUserPortfolio 1
          (mkDB [1] [ars_instrument; ggal; ypf]
             [mkMarketData 47 150 145 1; mkMarketData 48 60 50 1]
             [mkOrder 1 66 1 10000 1 MARKET CASH_IN FILLED 1;
              mkOrder 2 48 1 3 50 MARKET BUY FILLED 2;
              mkOrder 3 47 1 5 100 MARKET BUY FILLED 3;
              mkOrder 4 48 1 1 55 MARKET BUY FILLED 4] 5 5) with
  | Done pf _ => NoDup (map p_instrumentId (pf_positions pf)) /\
                 map p_instrumentId (pf_positions pf) = [47; 48]
  | Raise _ => False
  end.
Proof.
  destruct (getUserPortfolio 1 _) as [pf s'|e] eqn:E.
  - split; [exact (getUserPortfolio_distinct_instruments _ _ _ _ E)|].
    vm_compute in E. injection E as <- _. reflexivity.
  - vm_compute in E. discriminate.
Defined.

(** ** Listing a user's orders *)

Lemma In_removelast {A} (x : A) (l : list A) : In x (removelast l) -> In x l.
Proof.
  induction l as [|y l IH]; simpl; [tauto|].
  destruct l as [|z l]; [intros []|]. intros [<-|H]; [left; reflexivity|right; apply IH, H].
Qed.

Lemma In_firstn_l {A} (n : nat) (x : A) (l : list A) : In x (firstn n l) -> In x l.
Proof.
  intros H. rewrite <- (firstn_skipn n l). apply in_or_app. left. exact H.
Qed.

Lemma length_removelast_le {A} (l : list A) :
  List.length (removelast l) = (List.length l - 1)%nat.
Proof.
  induction l as [|y l IH]; [reflexivity|]. destruct l as [|z l]; [reflexivity|].
  change (removelast (y :: z :: l)) with (y :: removelast (z :: l)).
  simpl List.length in *. rewrite IH. lia.
Qed.

(** [GET /api/users/:userId/orders] answers only for a positive id of an
    existing user and a limit, when given, between 1 and 200; it then
    changes nothing, returns at most [limit] orders (50 by default), all of
    them rows of that user, each with its own [totalAmount]. *)
Theorem getUserOrders_controller_page (u : Z) (limit cursor : option Z) (s : DB)
  (r : OrderRead.UserOrders) (s' : DB) :
  UsersController.getUserOrders u limit cursor s = inr (r, s') ->
  s' = s /\ 0 < u /\ In u (db_users s) /\
  (forall l, limit = Some l -> 1 <= l <= 200) /\
  Z.of_nat (List.length (OrderRead.uo_orders r))
  <= match limit with Some l => l | None => 50 end /\
  (forall o q, In (o, q) (OrderRead.uo_orders r) ->
   o_userId o = u /\ In o (db_orders s) /\ q = totalAmount o).
Proof.
  unfold UsersController.getUserOrders.
  destruct (u <=? 0) eqn:Hu; [discriminate|]. apply Z.leb_gt in Hu.
  destruct (match limit with Some l => (l <=? 0) || (200 <? l) | None => false end) eqn:Hl;
    [discriminate|].
  assert (Hl' : forall l, limit = Some l -> 1 <= l <= 200).
  { intros l ->. apply orb_false_iff in Hl. destruct Hl as [H1 H2].
    apply Z.leb_gt in H1. apply Z.ltb_ge in H2. lia. }
  unfold lift, OrderRead.getUserOrders, bind, ret, throw, Repo.findUserById.
  destruct (existsb (Z.eqb u) (db_users s)) eqn:Hex; [|discriminate]. simpl negb.
  cbv beta iota. unfold Repo.getOrdersByUserId.
  set (sl := Z.min (match limit with Some l => l | None => 50 end) 200).
  assert (Hsl : 1 <= sl <= match limit with Some l => l | None => 50 end).
  { subst sl. destruct limit as [l|]; [specialize (Hl' l eq_refl)|]; lia. }
  destruct (sl + 1 <? 0) eqn:Hneg; [apply Z.ltb_lt in Hneg; lia|].
  intros H. injection H as <- <-. cbn [OrderRead.uo_orders].
  split; [reflexivity|]. split; [exact Hu|]. split; [apply existsb_In; exact Hex|].
  split; [exact Hl'|].
  set (rows := Repo.select_page (db_orders s) u cursor (sl + 1)).
  assert (Hlen : (List.length rows <= Z.to_nat (sl + 1))%nat)
    by (subst rows; unfold Repo.select_page; apply firstn_le_length).
  assert (Hin : forall o, In o rows -> o_userId o = u /\ In o (db_orders s)).
  { intros o Ho. subst rows. unfold Repo.select_page in Ho. apply In_firstn_l in Ho.
    apply (Permutation_in _ (Permutation_sym (sort_desc_perm _))) in Ho.
    apply filter_In in Ho. destruct Ho as [Ho E]. apply andb_true_iff in E.
    destruct E as [E _]. apply Z.eqb_eq in E. auto. }
  split.
  - rewrite length_map. destruct (sl <? Z.of_nat (List.length rows)) eqn:Hm.
    + rewrite length_removelast_le. apply Z.ltb_lt in Hm. lia.
    + apply Z.ltb_ge in Hm. lia.
  - intros o q Hoq. apply in_map_iff in Hoq. destruct Hoq as (o' & E & Ho).
    injection E as <- <-.
    assert (Ho' : In o' rows) by (destruct (sl <? _); [apply In_removelast|]; exact Ho).
    destruct (Hin o' Ho') as [H1 H2]. auto.
Qed.

Lemma getUserOrders_controller_page_witness :
  UsersController.getUserOrders 1 (Some 2) None paged_db
  = inr (OrderRead.mkUserOrders
           [(mkOrder 3 47 1 2 150 MARKET SELL FILLED 3,
             totalAmount (mkOrder 3 47 1 2 150 MARKET SELL FILLED 3));
            (mkOrder 2 47 1 5 150 MARKET BUY FILLED 2,
             totalAmount (mkOrder 2 47 1 5 150 MARKET BUY FILLED 2))]
           (Some 2) true, paged_db) /\
  0 < 1.
Proof.
  assert (H : UsersController.getUserOrders 1 (Some 2) None paged_db
              = inr (OrderRead.mkUserOrders
                       [(mkOrder 3 47 1 2 150 MARKET SELL FILLED 3,
                         totalAmount (mkOrder 3 47 1 2 150 MARKET SELL FILLED 3));
                        (mkOrder 2 47 1 5 150 MARKET BUY FILLED 2,
                         totalAmount (mkOrder 2 47 1 5 150 MARKET BUY FILLED 2))]
                       (Some 2) true, paged_db)) by (vm_compute; reflexivity).
  split; [exact H|]. exact (proj1 (proj2 (getUserOrders_controller_page _ _ _ _ _ _ H))).
Defined.

(** ** Whose balances an order moves *)

Lemma filter_app_single_false {A} (h : A -> bool) (l : list A) (x : A) :
  h x = false -> filter h (l ++ [x]) = filter h l.
Proof. intros H. rewrite filter_app. simpl. rewrite H, app_nil_r. reflexivity. Qed.

(** A successful [executeOrder] changes the available cash, the positions
    and the portfolio only of the user who placed it, and of that user only
    when the row it writes is FILLED: a REJECTED row or a LIMIT order
    waiting as NEW moves no balance. *)
Theorem executeOrder_balance_scope (input : CreateOrderInput) (s : DB)
  (resp : OrderResponse) (s' : DB) :
  executeOrder input s = Done resp s' ->
  forall u, u <> in_userId input \/ o_status (r_order resp) <> FILLED ->
    (forall ars, Repo.available_cash u ars (db_orders s') = Repo.available_cash u ars (db_orders s)) /\
    (forall i, Repo.position_of u i (db_orders s') = Repo.position_of u i (db_orders s)) /\
    getUserPortfolio u s'
    = match getUserPortfolio u s with
      | Done p _ => Done p s'
      | Raise e => Raise e
      end.
Proof.
  intros H u Hu. apply executeOrder_Done in H.
  destruct H as (_ & _ & o & -> & -> & _ & _ & Ho & _). cbn [r_order respond] in Hu.
  assert (Hf : Repo.filled_of u o = false).
  { destruct Hu as [Hu|Hu]; [|apply filled_of_not_filled; exact Hu].
    unfold Repo.filled_of. rewrite Ho.
    destruct (in_userId input =? u) eqn:E; [|reflexivity].
    apply Z.eqb_eq in E. congruence. }
  assert (Hfl : filter (Repo.filled_of u) (db_orders (after_insert s o))
                = filter (Repo.filled_of u) (db_orders s))
    by (apply filter_app_single_false; exact Hf).
  split; [intros ars; unfold Repo.available_cash; rewrite Hfl; reflexivity|]. split.
  - intros i. unfold after_insert. cbn [db_orders]. rewrite position_of_app, Hf. simpl. lia.
  - unfold getUserPortfolio, bind, ret, throw, get_db,
      Repo.findUserById, Repo.getFilledOrdersByUserId, Repo.getUserAvailableCash,
      Repo.filled_orders, Repo.available_cash.
    change (db_users (after_insert s o)) with (db_users s).
    destruct (existsb (Z.eqb u) (db_users s)); [|reflexivity].
    change (negb true) with false. cbv beta iota. rewrite Hfl.
    destruct (calculatePositions _); reflexivity.
Qed.

Lemma executeOrder_balance_scope_witness :
  Repo.available_cash 1 66
    (db_orders (after_insert sample_db (mkOrder 2 47 1 5 140 LIMIT BUY NEW 2)))
  = Repo.available_cash 1 66 (db_orders sample_db).
Proof.
  destruct (executeOrder_balance_scope (mkInput 1 47 BUY LIMIT (Some 5) None (Some 140%Q))
              sample_db (respond (mkOrder 2 47 1 5 140 LIMIT BUY NEW 2))
              (after_insert sample_db (mkOrder 2 47 1 5 140 LIMIT BUY NEW 2))
              ltac:(vm_compute; reflexivity) 1 ltac:(right; simpl; discriminate))
    as (H1 & _ & _).
  apply H1.
Defined.

(** ** Reading one order *)

Lemma join_first_spec (oid : Z) (insts : list Instrument) (l : list Order) :
  (OrderRead.join_first oid insts l = None <->
   forall o, In o l -> o_id o = oid -> find (fun x => ins_id x =? o_instrumentId o) insts = None) /\
  (forall o ins, OrderRead.join_first oid insts l = Some (o, ins) ->
   In o l /\ o_id o = oid /\ find (fun x => ins_id x =? o_instrumentId o) insts = Some ins).
Proof.
  induction l as [|x l [IH1 IH2]]; simpl.
  - split; [split; [intros _ o []|reflexivity]|discriminate].
  - destruct (o_id x =? oid) eqn:E.
    + apply Z.eqb_eq in E.
      destruct (find (fun y => ins_id y =? o_instrumentId x) insts) as [i|] eqn:Hi.
      * split; [split; [discriminate|intros H; rewrite (H x (or_introl eq_refl) E) in Hi;
                                      discriminate]|].
        intros o ins H. injection H as <- <-. auto.
      * split.
        -- rewrite IH1. split.
           ++ intros H o [<-|Ho] Eo; [exact Hi|apply H; assumption].
           ++ intros H o Ho Eo. apply H; [right|]; assumption.
        -- intros o ins H. destruct (IH2 o ins H) as (H1 & H2 & H3). auto.
    + apply Z.eqb_neq in E. split.
      * rewrite IH1. split.
        -- intros H o [<-|Ho] Eo; [congruence|apply H; assumption].
        -- intros H o Ho Eo. apply H; [right|]; assumption.
      * intros o ins H. destruct (IH2 o ins H) as (H1 & H2 & H3). auto.
Qed.

(** [getOrderById] fails, with the NotFoundError of the id, exactly when
    no ledger row with that id has its instrument in [instruments] (the
    JOIN drops a row whose instrument is missing); otherwise it returns such
    a row with its instrument's ticker and name and its [totalAmount], and
    changes nothing. *)
Theorem getOrderById_spec (oid : Z) (s : DB) :
  (OrderRead.getOrderById oid s
   = Raise (NotFoundError ("Order with ID " ++ Z_to_string oid ++ " not found")) <->
   forall o, In o (db_orders s) -> o_id o = oid ->
   find (fun x => ins_id x =? o_instrumentId o) (db_instruments s) = None) /\
  (forall v s', OrderRead.getOrderById oid s = Done v s' ->
   s' = s /\ In (OrderRead.ov_order v) (db_orders s) /\ o_id (OrderRead.ov_order v) = oid /\
   OrderRead.ov_totalAmount v = totalAmount (OrderRead.ov_order v) /\
   exists ins,
     find (fun x => ins_id x =? o_instrumentId (OrderRead.ov_order v)) (db_instruments s)
     = Some ins /\
     OrderRead.ov_ticker v = ins_ticker ins /\ OrderRead.ov_name v = ins_name ins).
Proof.
  destruct (join_first_spec oid (db_instruments s) (db_orders s)) as [J1 J2].
  unfold OrderRead.getOrderById, OrderRead.findOrderById, bind, ret, throw.
  destruct (OrderRead.join_first oid (db_instruments s) (db_orders s)) as [[o ins]|] eqn:E.
  - split.
    + split; [discriminate|]. intros H. apply J1 in H. discriminate.
    + intros v s' H. injection H as <- <-. simpl.
      destruct (J2 o ins eq_refl) as (H1 & H2 & H3). repeat split; auto. eauto.
  - split; [split; [intros _; apply J1; reflexivity|reflexivity]|discriminate].
Qed.

Lemma getOrderById_spec_witness :
  OrderRead.getOrderById 7 (mkDB [1] [ars_instrument] [] [mkOrder 7 47 1 5 140 LIMIT BUY NEW 2] 8 3)
  = Raise (NotFoundError ("Order with ID " ++ Z_to_string 7 ++ " not found")) /\
  In (mkOrder 7 47 1 5 140 LIMIT BUY NEW 2) [mkOrder 7 47 1 5 140 LIMIT BUY NEW 2].
Proof.
  split; [|left; reflexivity].
  apply (proj1 (getOrderById_spec 7
                  (mkDB [1] [ars_instrument] [] [mkOrder 7 47 1 5 140 LIMIT BUY NEW 2] 8 3))).
  intros o [<-|[]] _. vm_compute. reflexivity.
Defined.

(** ** [Number] conversion

    [x.toNumber()] is the shortest decimal that rounds to the double
    nearest [x]; a whole number of cents stays one. *)

Lemma pow_Qpower (b : Z) (e : Z) :
  0 < b ->
  (if 0 <=? e then inject_Z (b ^ e) else 1 # Z.to_pos (b ^ (- e)))%Q == (inject_Z b ^ e)%Q.
Proof.
  intros Hb. destruct (0 <=? e) eqn:E.
  - apply Zpower_Qpower. lia.
  - apply Z.leb_gt in E.
    replace e with (- (- e)) at 2 by lia. rewrite Qpower_opp.
    rewrite <- Zpower_Qpower by lia.
    assert (Hp : 0 < b ^ (- e)) by (apply Z.pow_pos_nonneg; lia).
    destruct (b ^ (- e)) eqn:Eb; try lia. reflexivity.
Qed.

Lemma pow2_Qpower (e : Z) : Double.pow2 e == (inject_Z 2 ^ e)%Q.
Proof. apply pow_Qpower. lia. Qed.

Lemma pow10_Qpower (e : Z) : Double.pow10 e == (inject_Z 10 ^ e)%Q.
Proof. apply pow_Qpower. lia. Qed.

Lemma pow2_pos (e : Z) : (0 < Double.pow2 e)%Q.
Proof. rewrite pow2_Qpower. apply Qpower_0_lt. reflexivity. Qed.

Lemma pow10_pos (e : Z) : (0 < Double.pow10 e)%Q.
Proof. rewrite pow10_Qpower. apply Qpower_0_lt. reflexivity. Qed.

Lemma pow2_add (a b : Z) : Double.pow2 (a + b) == (Double.pow2 a * Double.pow2 b)%Q.
Proof. rewrite !pow2_Qpower. apply Qpower_plus. discriminate. Qed.

Lemma pow10_add (a b : Z) : Double.pow10 (a + b) == (Double.pow10 a * Double.pow10 b)%Q.
Proof. rewrite !pow10_Qpower. apply Qpower_plus. discriminate. Qed.

Lemma pow2_nat (k : Z) : 0 <= k -> Double.pow2 k == inject_Z (2 ^ k).
Proof. intros Hk. unfold Double.pow2. destruct (0 <=? k) eqn:E; [reflexivity|lia]. Qed.

Lemma pow10_nat (k : Z) : 0 <= k -> Double.pow10 k == inject_Z (10 ^ k).
Proof. intros Hk. unfold Double.pow10. destruct (0 <=? k) eqn:E; [reflexivity|lia]. Qed.

Lemma pow2_neg (k : Z) : 0 <= k -> (Double.pow2 (- k) * inject_Z (2 ^ k) == 1)%Q.
Proof.
  intros Hk. rewrite <- pow2_nat by exact Hk. rewrite <- pow2_add.
  replace (- k + k) with 0 by lia. reflexivity.
Qed.

Lemma pow10_neg (k : Z) : 0 <= k -> (Double.pow10 (- k) * inject_Z (10 ^ k) == 1)%Q.
Proof.
  intros Hk. rewrite <- pow10_nat by exact Hk. rewrite <- pow10_add.
  replace (- k + k) with 0 by lia. reflexivity.
Qed.

Lemma inject_Z_pos (z : Z) : 0 < z -> (0 < inject_Z z)%Q.
Proof. intros H. change 0%Q with (inject_Z 0). rewrite <- Zlt_Qlt. exact H. Qed.

Lemma round_half_even_spec (n d : Z) :
  0 < d ->
  let m := Double.round_half_even n d in
  - d <= 2 * n - 2 * m * d <= d /\
  (Z.even m = false -> - d < 2 * n - 2 * m * d < d).
Proof.
  intros Hd. unfold Double.round_half_even.
  pose proof (Z.div_mod n d ltac:(lia)) as Hdm.
  pose proof (Z.mod_pos_bound n d Hd) as Hb.
  set (q := n / d) in *. set (r := n mod d) in *.
  destruct (2 * r <? d) eqn:E1; [apply Z.ltb_lt in E1; lia|apply Z.ltb_ge in E1].
  destruct (d <? 2 * r) eqn:E2; [apply Z.ltb_lt in E2; lia|apply Z.ltb_ge in E2].
  destruct (Z.even q) eqn:E3.
  - split; [lia|]. intros H. congruence.
  - split; [lia|]. intros H. rewrite Z.even_add, E3 in H. discriminate.
Qed.

Lemma log2_floor_lower (n d : Z) :
  1 <= n -> 1 <= d ->
  let t := Double.log2_floor n d in
  d * 2 ^ Z.max t 0 <= n * 2 ^ Z.max (- t) 0.
Proof.
  intros Hn Hd. unfold Double.log2_floor.
  destruct (Z.log2_spec n ltac:(lia)) as [Ha1 Ha2].
  destruct (Z.log2_spec d ltac:(lia)) as [Hb1 Hb2].
  pose proof (Z.log2_nonneg n). pose proof (Z.log2_nonneg d).
  set (a := Z.log2 n) in *. set (b := Z.log2 d) in *.
  rewrite Z.pow_succ_r in Ha2, Hb2 by lia.
  destruct (0 <=? a - b) eqn:E0; [apply Z.leb_le in E0|apply Z.leb_gt in E0].
  - destruct (d * 2 ^ (a - b) <=? n) eqn:E1; [apply Z.leb_le in E1|apply Z.leb_gt in E1].
    + rewrite Z.max_l, Z.max_r by lia. simpl. lia.
    + destruct (Z.eq_dec a b) as [Eab|Nab].
      * rewrite Z.max_r, Z.max_l by lia. rewrite Eab, Z.sub_diag. simpl.
        rewrite Eab in Ha1. lia.
      * rewrite Z.max_l, Z.max_r by lia.
        assert (Hs : 2 ^ a = 2 * 2 ^ b * 2 ^ (a - b - 1)).
        { rewrite <- Z.mul_assoc, <- Z.pow_add_r, <- Z.pow_succ_r by lia. f_equal. lia. }
        pose proof (Z.pow_pos_nonneg 2 (a - b - 1) ltac:(lia) ltac:(lia)).
        nia.
  - destruct (d <=? n * 2 ^ (- (a - b))) eqn:E1; [apply Z.leb_le in E1|apply Z.leb_gt in E1].
    + rewrite Z.max_r, Z.max_l by lia. simpl. lia.
    + rewrite Z.max_r, Z.max_l by lia. simpl.
      assert (Hs : 2 ^ (- (a - b - 1)) * 2 ^ a = 2 * 2 ^ b).
      { rewrite <- Z.pow_add_r, <- Z.pow_succ_r by lia. f_equal. lia. }
      pose proof (Z.pow_pos_nonneg 2 (- (a - b - 1)) ltac:(lia) ltac:(lia)).
      nia.
Qed.

Lemma log10_floor_upper (n d : Z) :
  1 <= n -> 1 <= d ->
  let t := Double.log10_floor n d in
  n * 10 ^ Z.max (- (t + 1)) 0 < d * 10 ^ Z.max (t + 1) 0.
Proof.
  intros Hn Hd. unfold Double.log10_floor.
  destruct (log10_spec n Hn) as (Ha0 & Ha1 & Ha2).
  destruct (log10_spec d Hd) as (Hb0 & Hb1 & Hb2).
  set (a := Dec.log10 n) in *. set (b := Dec.log10 d) in *.
  destruct (0 <=? a - b) eqn:E0; [apply Z.leb_le in E0|apply Z.leb_gt in E0].
  - destruct (d * 10 ^ (a - b) <=? n) eqn:E1; [apply Z.leb_le in E1|apply Z.leb_gt in E1].
    + rewrite Z.max_r, Z.max_l by lia. simpl.
      assert (Hs : 10 ^ (a + 1) = 10 ^ b * 10 ^ (a - b + 1)).
      { rewrite <- Z.pow_add_r by lia. f_equal. lia. }
      pose proof (Z.pow_pos_nonneg 10 (a - b + 1) ltac:(lia) ltac:(lia)).
      nia.
    + rewrite Z.max_r, Z.max_l by lia. replace (a - b - 1 + 1) with (a - b) by lia. lia.
  - destruct (d <=? n * 10 ^ (- (a - b))) eqn:E1; [apply Z.leb_le in E1|apply Z.leb_gt in E1].
    + rewrite Z.max_l, Z.max_r by lia. simpl.
      assert (Hs : 10 ^ (- (a - b + 1)) * 10 ^ (a + 1) = 10 ^ b).
      { rewrite <- Z.pow_add_r by lia. f_equal. lia. }
      pose proof (Z.pow_pos_nonneg 10 (- (a - b + 1)) ltac:(lia) ltac:(lia)).
      nia.
    + rewrite Z.max_l, Z.max_r by lia. replace (- (a - b - 1 + 1)) with (- (a - b)) by lia. lia.
Qed.

Lemma in_interval_iff (m e : Z) (c : Q) :
  Double.in_interval m e c = true <->
  (let v := Double.value m e in
   let lo := (v - (if (m =? 2 ^ 52) && (-1074 <? e) then Double.pow2 (e - 2)
                   else Double.pow2 (e - 1)))%Q in
   let hi := (v + Double.pow2 (e - 1))%Q in
   if Z.even m then (lo <= c /\ c <= hi)%Q else (lo < c /\ c < hi)%Q).
Proof.
  unfold Double.in_interval. cbv zeta.
  destruct (Z.even m).
  - rewrite andb_true_iff, !Qle_bool_iff. tauto.
  - rewrite andb_true_iff, !negb_true_iff.
    split.
    + intros [H1 H2]. split; apply Qnot_le_lt; intros H;
        apply Qle_bool_iff in H; congruence.
    + intros [H1 H2]. split; apply not_true_iff_false; rewrite Qle_bool_iff;
        apply Qlt_not_le; assumption.
Qed.

Lemma scaled_round (x w : Q) (N D : Z) :
  (0 < w)%Q -> 0 < D -> (inject_Z D * x == inject_Z N * w)%Q ->
  let m := Double.round_half_even N D in
  (inject_Z m * w - w * (1 # 2) <= x /\ x <= inject_Z m * w + w * (1 # 2))%Q /\
  (Z.even m = false ->
   inject_Z m * w - w * (1 # 2) < x /\ x < inject_Z m * w + w * (1 # 2))%Q.
Proof.
  intros Hw HD Hx. cbv zeta.
  destruct (round_half_even_spec N D HD) as [[H1 H2] H3].
  set (m := Double.round_half_even N D) in *.
  assert (HDq : (0 < inject_Z D)%Q) by (apply inject_Z_pos; exact HD).
  assert (Q1 : (- inject_Z D <= 2 * inject_Z N - 2 * inject_Z m * inject_Z D)%Q).
  { replace (- inject_Z D)%Q with (inject_Z (- D)) by reflexivity.
    setoid_replace (2 * inject_Z N - 2 * inject_Z m * inject_Z D)%Q
      with (inject_Z (2 * N - 2 * m * D)).
    - rewrite <- Zle_Qle. exact H1.
    - unfold Z.sub. rewrite inject_Z_plus, inject_Z_opp, !inject_Z_mult. ring. }
  assert (Q2 : (2 * inject_Z N - 2 * inject_Z m * inject_Z D <= inject_Z D)%Q).
  { setoid_replace (2 * inject_Z N - 2 * inject_Z m * inject_Z D)%Q
      with (inject_Z (2 * N - 2 * m * D)).
    - rewrite <- Zle_Qle. exact H2.
    - unfold Z.sub. rewrite inject_Z_plus, inject_Z_opp, !inject_Z_mult. ring. }
  split; [split; nra|].
  intros Hodd. destruct (H3 Hodd) as [H4 H5].
  assert (Q3 : (- inject_Z D < 2 * inject_Z N - 2 * inject_Z m * inject_Z D)%Q).
  { replace (- inject_Z D)%Q with (inject_Z (- D)) by reflexivity.
    setoid_replace (2 * inject_Z N - 2 * inject_Z m * inject_Z D)%Q
      with (inject_Z (2 * N - 2 * m * D)).
    - rewrite <- Zlt_Qlt. exact H4.
    - unfold Z.sub. rewrite inject_Z_plus, inject_Z_opp, !inject_Z_mult. ring. }
  assert (Q4 : (2 * inject_Z N - 2 * inject_Z m * inject_Z D < inject_Z D)%Q).
  { setoid_replace (2 * inject_Z N - 2 * inject_Z m * inject_Z D)%Q
      with (inject_Z (2 * N - 2 * m * D)).
    - rewrite <- Zlt_Qlt. exact H5.
    - unfold Z.sub. rewrite inject_Z_plus, inject_Z_opp, !inject_Z_mult. ring. }
  split; nra.
Qed.

Lemma pow2_le_of_log2_floor (n d : Z) :
  1 <= n -> 1 <= d ->
  (Double.pow2 (Double.log2_floor n d) <= inject_Z n / inject_Z d)%Q.
Proof.
  intros Hn Hd. pose proof (log2_floor_lower n d Hn Hd) as H. cbv zeta in H.
  set (t := Double.log2_floor n d) in *.
  assert (E : (Double.pow2 t * inject_Z (2 ^ Z.max (- t) 0) == inject_Z (2 ^ Z.max t 0))%Q).
  { rewrite <- !pow2_nat by lia. rewrite <- pow2_add. replace (t + Z.max (- t) 0) with (Z.max t 0) by lia.
    reflexivity. }
  assert (HK : (0 < inject_Z (2 ^ Z.max (- t) 0))%Q).
  { apply inject_Z_pos. apply Z.pow_pos_nonneg; lia. }
  assert (HdQ : (0 < inject_Z d)%Q) by (apply inject_Z_pos; lia).
  assert (HQ : (inject_Z d * inject_Z (2 ^ Z.max t 0) <= inject_Z n * inject_Z (2 ^ Z.max (- t) 0))%Q).
  { rewrite <- !inject_Z_mult, <- Zle_Qle. exact H. }
  rewrite <- E in HQ. apply Qle_shift_div_l; [exact HdQ|].
  pose proof (pow2_pos t). nra.
Qed.

Lemma pow2_pred (e : Z) : (Double.pow2 (e - 1) == Double.pow2 e * (1 # 2))%Q.
Proof. unfold Z.sub. rewrite pow2_add. reflexivity. Qed.

Lemma pow2_pred2 (e : Z) : (Double.pow2 (e - 2) == Double.pow2 e * (1 # 4))%Q.
Proof. unfold Z.sub. rewrite pow2_add. reflexivity. Qed.

Lemma round_pos_spec (n d m e : Z) :
  1 <= n -> 1 <= d -> Double.round_pos n d = (m, e) ->
  Double.in_interval m e (inject_Z n / inject_Z d) = true /\
  (e <= -1073 \/ (Double.pow2 (e + 51) <= inject_Z n / inject_Z d)%Q).
Proof.
  intros Hn Hd Hr. unfold Double.round_pos in Hr. cbv zeta in Hr.
  set (x := (inject_Z n / inject_Z d)%Q).
  assert (HdQ : (0 < inject_Z d)%Q) by (apply inject_Z_pos; lia).
  assert (Hx : (inject_Z d * x == inject_Z n)%Q).
  { unfold x. field. intros H. rewrite H in HdQ. discriminate. }
  set (t := Double.log2_floor n d) in *.
  set (e0 := Z.max (-1074) (t - 52)) in *.
  set (w := Double.pow2 e0).
  assert (Hw : (0 < w)%Q) by apply pow2_pos.
  assert (HB : let m0 := if 0 <=? e0 then Double.round_half_even n (d * 2 ^ e0)
                         else Double.round_half_even (n * 2 ^ (- e0)) d in
    (inject_Z m0 * w - w * (1 # 2) <= x /\ x <= inject_Z m0 * w + w * (1 # 2))%Q /\
    (Z.even m0 = false ->
     inject_Z m0 * w - w * (1 # 2) < x /\ x < inject_Z m0 * w + w * (1 # 2))%Q).
  { cbv zeta. destruct (0 <=? e0) eqn:E0.
    - apply Z.leb_le in E0. apply scaled_round; [exact Hw| |].
      + apply Z.mul_pos_pos; [lia|]. apply Z.pow_pos_nonneg; lia.
      + unfold w. rewrite pow2_nat by exact E0. rewrite inject_Z_mult, <- Hx. ring.
    - apply Z.leb_gt in E0. apply scaled_round; [exact Hw|lia|].
      rewrite inject_Z_mult, Hx.
      pose proof (pow2_neg (- e0) ltac:(lia)) as HK. rewrite Z.opp_involutive in HK.
      fold w in HK. rewrite <- Qmult_assoc, (Qmult_comm (inject_Z (2 ^ (- e0))) w), HK. ring. }
  assert (HU : e0 = t - 52 -> (inject_Z (2 ^ 52) * w <= x)%Q).
  { intros Et. pose proof (pow2_le_of_log2_floor n d Hn Hd) as Hp. fold t x in Hp.
    unfold w. rewrite Et. replace t with (52 + (t - 52)) in Hp at 1 by lia.
    rewrite pow2_add in Hp. exact Hp. }
  cbv zeta in HB.
  set (m0 := if 0 <=? e0 then Double.round_half_even n (d * 2 ^ e0)
             else Double.round_half_even (n * 2 ^ (- e0)) d) in *.
  destruct HB as [[HB1 HB2] HB3].
  destruct (m0 =? 2 ^ 53) eqn:Ec.
  - apply Z.eqb_eq in Ec. injection Hr as <- <-.
    change (Z.pow_pos 2 52) with (2 ^ 52). split.
    + apply in_interval_iff. cbv zeta.
      replace ((2 ^ 52 =? 2 ^ 52) && (-1074 <? e0 + 1)) with true
        by (symmetry; apply andb_true_iff; split; [apply Z.eqb_refl|apply Z.ltb_lt; lia]).
      replace (e0 + 1 - 2) with (e0 - 1) by lia. replace (e0 + 1 - 1) with e0 by lia.
      change (Z.even (2 ^ 52)) with true. cbv iota.
      rewrite pow2_pred. fold w. unfold Double.value. rewrite pow2_add. fold w.
      rewrite Ec in HB1, HB2.
      change (inject_Z (2 ^ 53)) with (inject_Z (2 ^ 52) * Double.pow2 1)%Q in HB1, HB2.
      split; nra.
    + destruct (Z.eq_dec e0 (-1074)) as [E|E]; [left; lia|right].
      assert (Et : e0 = t - 52) by lia.
      replace (e0 + 1 + 51) with (52 + e0) by lia. rewrite pow2_add. fold w.
      specialize (HU Et). exact HU.
  - injection Hr as <- <-. split.
    + apply in_interval_iff. cbv zeta. unfold Double.value. fold w.
      destruct ((m0 =? 2 ^ 52) && (-1074 <? e0)) eqn:Es.
      * apply andb_true_iff in Es. destruct Es as [E1 E2].
        apply Z.eqb_eq in E1. apply Z.ltb_lt in E2.
        assert (Et : e0 = t - 52) by lia. specialize (HU Et).
        rewrite E1 in *. change (Z.even (2 ^ 52)) with true. cbv iota.
        rewrite pow2_pred, pow2_pred2. fold w. split; nra.
      * destruct (Z.even m0) eqn:Ev.
        -- rewrite pow2_pred. fold w. split; nra.
        -- destruct (HB3 eq_refl). rewrite pow2_pred. fold w. split; nra.
    + destruct (Z.eq_dec e0 (-1074)) as [E|E]; [left; lia|right].
      assert (Et : e0 = t - 52) by lia.
      replace (e0 + 51) with (51 + e0) by lia. rewrite pow2_add. fold w.
      specialize (HU Et).
      change (Double.pow2 51) with (inject_Z (2 ^ 51)).
      assert (inject_Z (2 ^ 51) * w <= inject_Z (2 ^ 52) * w)%Q.
      { apply Qmult_le_r; [exact Hw|]. rewrite <- Zle_Qle. lia. }
      eapply Qle_trans; eassumption.
Qed.

Lemma value_in_interval (m e : Z) : Double.in_interval m e (Double.value m e) = true.
Proof.
  apply in_interval_iff. cbv zeta.
  pose proof (pow2_pos (e - 1)). pose proof (pow2_pos (e - 2)).
  destruct ((m =? 2 ^ 52) && (-1074 <? e)), (Z.even m); split; lra.
Qed.

Lemma in_interval_convex (m e : Z) (c1 c c2 : Q) :
  Double.in_interval m e c1 = true -> Double.in_interval m e c2 = true ->
  (c1 <= c)%Q -> (c <= c2)%Q -> Double.in_interval m e c = true.
Proof.
  rewrite !in_interval_iff. cbv zeta.
  destruct ((m =? 2 ^ 52) && (-1074 <? e)), (Z.even m); intros [H1 H2] [H3 H4] H5 H6;
    split; lra.
Qed.

Lemma lo_ge (m e : Z) (c : Q) :
  Double.in_interval m e c = true ->
  (Double.value m e - Double.pow2 (e - 1) <= c /\ c <= Double.value m e + Double.pow2 (e - 1))%Q.
Proof.
  rewrite in_interval_iff. cbv zeta.
  pose proof (pow2_pos e). pose proof (pow2_pred e). pose proof (pow2_pred2 e).
  destruct ((m =? 2 ^ 52) && (-1074 <? e)), (Z.even m); intros [Hl Hh]; split; lra.
Qed.

Lemma pow2_mono (a b : Z) : a <= b -> (Double.pow2 a <= Double.pow2 b)%Q.
Proof.
  intros H. replace b with (a + (b - a)) by lia. rewrite pow2_add, (pow2_nat (b - a)) by lia.
  pose proof (pow2_pos a).
  assert (1 <= inject_Z (2 ^ (b - a)))%Q.
  { change 1%Q with (inject_Z 1). rewrite <- Zle_Qle.
    pose proof (Z.pow_pos_nonneg 2 (b - a) ltac:(lia) ltac:(lia)). lia. }
  nra.
Qed.

Lemma pow10_mono (a b : Z) : a <= b -> (Double.pow10 a <= Double.pow10 b)%Q.
Proof.
  intros H. replace b with (a + (b - a)) by lia. rewrite pow10_add, (pow10_nat (b - a)) by lia.
  pose proof (pow10_pos a).
  assert (1 <= inject_Z (10 ^ (b - a)))%Q.
  { change 1%Q with (inject_Z 1). rewrite <- Zle_Qle.
    pose proof (Z.pow_pos_nonneg 10 (b - a) ltac:(lia) ltac:(lia)). lia. }
  nra.
Qed.

Lemma log10_floor_upper_Q (n d : Z) :
  1 <= n -> 1 <= d ->
  (inject_Z n / inject_Z d < Double.pow10 (Double.log10_floor n d + 1))%Q.
Proof.
  intros Hn Hd. pose proof (log10_floor_upper n d Hn Hd) as H. cbv zeta in H.
  set (t := Double.log10_floor n d + 1) in *.
  assert (E : (Double.pow10 t * inject_Z (10 ^ Z.max (- t) 0) == inject_Z (10 ^ Z.max t 0))%Q).
  { rewrite <- !pow10_nat by lia. rewrite <- pow10_add.
    replace (t + Z.max (- t) 0) with (Z.max t 0) by lia. reflexivity. }
  assert (HK : (0 < inject_Z (10 ^ Z.max (- t) 0))%Q).
  { apply inject_Z_pos. apply Z.pow_pos_nonneg; lia. }
  assert (HdQ : (0 < inject_Z d)%Q) by (apply inject_Z_pos; lia).
  assert (HQ : (inject_Z n * inject_Z (10 ^ Z.max (- t) 0) < inject_Z d * inject_Z (10 ^ Z.max t 0))%Q).
  { rewrite <- !inject_Z_mult, <- Zlt_Qlt. exact H. }
  rewrite <- E in HQ. apply Qlt_shift_div_r; [exact HdQ|].
  pose proof (pow10_pos t). nra.
Qed.

Lemma search_step (f : nat) (m e j : Z) :
  let v := Double.value m e in
  let a := Qfloor (v / Double.pow10 j)%Q in
  let ok_a := (0 <? a) && Double.in_interval m e (inject_Z a * Double.pow10 j)%Q in
  let ok_b := Double.in_interval m e (inject_Z (a + 1) * Double.pow10 j)%Q in
  (ok_a || ok_b = true -> snd (Double.search (S f) m e j) = j) /\
  (ok_a || ok_b = false -> Double.search (S f) m e j = Double.search f m e (j - 1)) /\
  (ok_a = false -> ok_b = true -> Double.search (S f) m e j = (a + 1, j)).
Proof.
  cbv zeta. cbn [Double.search]. cbv zeta.
  destruct ((0 <? Qfloor (Double.value m e / Double.pow10 j)) &&
            Double.in_interval m e
              (inject_Z (Qfloor (Double.value m e / Double.pow10 j)) * Double.pow10 j)),
           (Double.in_interval m e
              (inject_Z (Qfloor (Double.value m e / Double.pow10 j) + 1) * Double.pow10 j));
    cbn [andb orb]; (split; [|split]); intros; try discriminate; try reflexivity.
  destruct (Qcompare _ _); try destruct (Z.even _); reflexivity.
Qed.

Lemma search_floor (fuel : nat) (m e j : Z) :
  Z.min (j - Z.of_nat fuel + 1) (Z.min e 0) <= snd (Double.search fuel m e j).
Proof.
  revert j. induction fuel as [|f IH]; intros j.
  - cbn [Double.search]. destruct (0 <=? e) eqn:E; simpl; lia.
  - destruct (search_step f m e j) as (H1 & H2 & _). cbv zeta in H1, H2.
    destruct (_ || _).
    + rewrite H1 by reflexivity. lia.
    + rewrite H2 by reflexivity. specialize (IH (j - 1)). lia.
Qed.

Lemma search_reach (fuel : nat) (m e j : Z) :
  (let v := Double.value m e in
   let a := Qfloor (v / Double.pow10 (-2))%Q in
   ((0 <? a) && Double.in_interval m e (inject_Z a * Double.pow10 (-2))%Q) ||
   Double.in_interval m e (inject_Z (a + 1) * Double.pow10 (-2))%Q = true) ->
  -2 <= j -> j + 3 <= Z.of_nat fuel -> -2 <= snd (Double.search fuel m e j).
Proof.
  intros Hacc. revert j. induction fuel as [|f IH]; intros j Hj Hf; [lia|].
  destruct (search_step f m e j) as (H1 & H2 & _). cbv zeta in H1, H2, Hacc.
  destruct (Z.eq_dec j (-2)) as [->|Hne].
  - rewrite H1 by exact Hacc. lia.
  - clear Hacc. destruct (_ || _).
    + rewrite H1 by reflexivity. lia.
    + rewrite H2 by reflexivity. apply IH; lia.
Qed.

Lemma accept_at (m e j z : Z) (c : Q) :
  1 <= z -> (c == inject_Z z * Double.pow10 j)%Q -> Double.in_interval m e c = true ->
  let v := Double.value m e in
  let a := Qfloor (v / Double.pow10 j)%Q in
  ((0 <? a) && Double.in_interval m e (inject_Z a * Double.pow10 j)%Q) ||
  Double.in_interval m e (inject_Z (a + 1) * Double.pow10 j)%Q = true.
Proof.
  intros Hz Hc Hin. cbv zeta.
  set (v := Double.value m e). set (p := Double.pow10 j).
  assert (Hp : (0 < p)%Q) by apply pow10_pos.
  set (a := Qfloor (v / p)).
  pose proof (Qfloor_le (v / p)) as Ha1. pose proof (Qlt_floor (v / p)) as Ha2. fold a in Ha1, Ha2.
  assert (Hvp : (v / p * p == v)%Q) by (field; intros E; rewrite E in Hp; discriminate).
  assert (Hlo : (inject_Z a * p <= v)%Q).
  { rewrite <- Hvp. apply Qmult_le_r; assumption. }
  assert (Hhi : (v < inject_Z (a + 1) * p)%Q).
  { rewrite <- Hvp. apply Qmult_lt_r; assumption. }
  pose proof (value_in_interval m e) as Hv. fold v in Hv.
  destruct (Z.le_gt_cases z a) as [Hza|Hza].
  - apply orb_true_iff. left. apply andb_true_iff. split; [apply Z.ltb_lt; lia|].
    apply (in_interval_convex m e c _ v Hin Hv); [|exact Hlo].
    rewrite Hc. apply Qmult_le_r; [exact Hp|]. rewrite <- Zle_Qle. exact Hza.
  - apply orb_true_iff. right.
    apply (in_interval_convex m e v _ c Hv Hin); [apply Qlt_le_weak; exact Hhi|].
    rewrite Hc. apply Qmult_le_r; [exact Hp|]. rewrite <- Zle_Qle. lia.
Qed.

Lemma to_number_cents (x : Q) : in_cents x -> in_cents (Double.to_number x).
Proof.
  unfold in_cents. intros [z Hz]. destruct x as [n d].
  unfold Double.to_number, Double.digits. cbn [Qnum Qden].
  destruct (n =? 0) eqn:En; [exists 0; reflexivity|]. apply Z.eqb_neq in En.
  destruct (Double.round_pos (Z.abs n) (Zpos d)) as [m e] eqn:Hr.
  set (X := (inject_Z (Z.abs n) / inject_Z (Zpos d))%Q).
  assert (Hz0 : 1 <= Z.abs z).
  { destruct (Z.eq_dec z 0) as [->|Hz0]; [|lia].
    exfalso. unfold Qeq in Hz. simpl in Hz. lia. }
  assert (HX : (X == inject_Z (Z.abs z) * Double.pow10 (-2))%Q).
  { unfold X. rewrite <- Qmake_Qdiv. change (Z.abs n # d)%Q with (Qabs (n # d)).
    rewrite Hz. change (Double.pow10 (-2)) with (1 # 100)%Q.
    unfold Qeq, Qabs, Qdiv, Qmult, Qinv, inject_Z. simpl. lia. }
  destruct (round_pos_spec (Z.abs n) (Zpos d) m e ltac:(lia) ltac:(lia) Hr) as [Hin Hbig].
  fold X in Hin, Hbig.
  set (Z' := Z.abs z) in *.
  assert (HZ' : (1 <= inject_Z Z')%Q) by (change 1%Q with (inject_Z 1); rewrite <- Zle_Qle; lia).
  change (Double.pow10 (-2)) with (1 # 100)%Q in HX.
  assert (HXlow : (1 # 100 <= X)%Q) by lra.
  pose proof (pow2_pos (e - 1)) as Hw0.
  assert (Hw : (Double.pow2 (e - 1) <= X * (1 # 1000))%Q).
  { destruct Hbig as [He|Hb].
    - pose proof (pow2_mono (e - 1) (-1074) ltac:(lia)) as H1.
      assert (H2 : (Double.pow2 (-1074) <= 1 # 100000)%Q)
        by (apply Qle_bool_iff; vm_compute; reflexivity).
      lra.
    - assert (E : (Double.pow2 (e + 51) == Double.pow2 (e - 1) * (4503599627370496 # 1))%Q).
      { replace (e + 51) with ((e - 1) + 52) by lia. rewrite pow2_add. reflexivity. }
      lra. }
  destruct (lo_ge m e X Hin) as [Hlo Hhi].
  set (v := Double.value m e) in *.
  assert (Hv : (999 # 100000 <= v)%Q) by lra.
  assert (Hm : 1 <= m).
  { destruct (Z.le_gt_cases 1 m) as [H|H]; [exact H|]. exfalso.
    assert (H0 : (inject_Z m <= 0)%Q) by (change 0%Q with (inject_Z 0); rewrite <- Zle_Qle; lia).
    pose proof (pow2_pos e). unfold v, Double.value in Hv. nra. }
  unfold Double.shortest.
  set (p := if 0 <=? e then Double.log10_floor (m * 2 ^ e) 1
            else Double.log10_floor m (2 ^ (- e))).
  assert (Hp : (v < Double.pow10 (p + 1))%Q).
  { unfold p. destruct (0 <=? e) eqn:Ee.
    - apply Z.leb_le in Ee.
      assert (E : (v == inject_Z (m * 2 ^ e) / inject_Z 1)%Q).
      { unfold v, Double.value. rewrite pow2_nat by exact Ee. rewrite inject_Z_mult.
        field. }
      rewrite E. apply log10_floor_upper_Q; [|lia].
      pose proof (Z.pow_pos_nonneg 2 e ltac:(lia) Ee). nia.
    - apply Z.leb_gt in Ee.
      pose proof (pow2_neg (- e) ltac:(lia)) as HK. rewrite Z.opp_involutive in HK.
      assert (HKp : 0 < 2 ^ (- e)) by (apply Z.pow_pos_nonneg; lia).
      assert (E : (v == inject_Z m / inject_Z (2 ^ (- e)))%Q).
      { unfold v, Double.value.
        assert (HK0 : ~ (inject_Z (2 ^ (- e)) == 0)%Q).
        { intros H0. pose proof (inject_Z_pos _ HKp). rewrite H0 in H. discriminate. }
        apply (Qmult_inj_r _ _ (inject_Z (2 ^ (- e)))); [exact HK0|].
        rewrite <- Qmult_assoc, HK. field; exact HK0. }
      rewrite E. apply log10_floor_upper_Q; lia. }
  assert (Hp3 : -3 <= p).
  { destruct (Z.le_gt_cases (-3) p) as [H|H]; [exact H|]. exfalso.
    pose proof (pow10_mono (p + 1) (-3) ltac:(lia)) as H1.
    change (Double.pow10 (-3)) with (1 # 1000)%Q in H1. lra. }
  assert (Hres : let '(s, j) := Double.search (Z.to_nat (p - Z.min e 0 + 1)) m e p in
                 -2 <= j \/ (s = 10 /\ j = -3)).
  { destruct (Z.le_gt_cases (-2) p) as [Hp2|Hp2].
    - destruct (Z.le_gt_cases (Z.min e 0) (-2)) as [Hmin|Hmin].
      + assert (Hacc := accept_at m e (-2) Z' X Hz0
                          ltac:(rewrite HX; reflexivity) Hin).
        pose proof (search_reach (Z.to_nat (p - Z.min e 0 + 1)) m e p Hacc Hp2
                      ltac:(lia)) as H.
        destruct (Double.search _ _ _ _). left. exact H.
      + pose proof (search_floor (Z.to_nat (p - Z.min e 0 + 1)) m e p) as H.
        destruct (Double.search _ _ _ _). left. cbn [snd] in H. lia.
    - assert (Ep : p = -3) by lia. rewrite Ep in Hp |- *.
      destruct (Z.le_gt_cases (-2) (Z.min e 0)) as [Hmin|Hmin].
      + pose proof (search_floor (Z.to_nat (-3 - Z.min e 0 + 1)) m e (-3)) as H.
        destruct (Double.search _ _ _ _). left. cbn [snd] in H. lia.
      + destruct (Z.to_nat (-3 - Z.min e 0 + 1)) as [|f] eqn:Ef; [lia|].
        destruct (search_step f m e (-3)) as (_ & _ & H3). cbv zeta in H3. fold v in H3.
        change (Double.pow10 (-3)) with (1 # 1000)%Q in H3.
        change (Double.pow10 (-3 + 1)) with (1 # 100)%Q in Hp.
        set (a := Qfloor (v / (1 # 1000))) in H3.
        pose proof (Qfloor_le (v / (1 # 1000))) as Ha1.
        pose proof (Qlt_floor (v / (1 # 1000))) as Ha2. fold a in Ha1, Ha2.
        assert (Ev : (v / (1 # 1000) == v * 1000)%Q) by field.
        rewrite Ev in Ha1, Ha2. rewrite inject_Z_plus in Ha2.
        assert (Ha : a = 9).
        { assert (A1 : (inject_Z a < inject_Z 10)%Q) by (change (inject_Z 10) with (10 # 1)%Q; lra).
          assert (A2 : (inject_Z 8 < inject_Z a)%Q) by (change (inject_Z 8) with (8 # 1)%Q;
                                                         change (inject_Z 1) with (1 # 1)%Q in Ha2; lra).
          rewrite <- Zlt_Qlt in A1, A2. lia. }
        rewrite Ha in H3. rewrite H3.
        * right. split; reflexivity.
        * apply andb_false_iff. right.
          destruct (Double.in_interval m e (inject_Z 9 * (1 # 1000))) eqn:Ei; [|reflexivity].
          exfalso. destruct (lo_ge m e _ Ei) as [L _]. fold v in L.
          change (inject_Z 9 * (1 # 1000))%Q with (9 # 1000)%Q in L. lra.
        * assert (HZ1 : Z' = 1).
          { assert (inject_Z Z' < inject_Z 2)%Q by (change (inject_Z 2) with (2 # 1)%Q; lra).
            rewrite <- Zlt_Qlt in H. lia. }
          rewrite HZ1 in HX.
          apply (in_interval_convex m e X _ X Hin Hin); rewrite HX; apply Qle_bool_iff;
            vm_compute; reflexivity. }
  destruct (Double.search _ _ _ _) as [s j].
  destruct (s mod 10 =? 0) eqn:Em.
  - exists (Z.sgn n * (s / 10) * 10 ^ (j + 1 + 2)).
    assert (Hj : -2 <= j + 1).
    { destruct Hres as [H|[H1 H2]]; lia. }
    rewrite Qred_correct. replace (j + 1) with ((j + 1 + 2) + (-2)) at 1 by lia.
    rewrite pow10_add, pow10_nat by lia. rewrite !inject_Z_mult.
    change (Double.pow10 (-2)) with (1 # 100)%Q. field.
  - exists (Z.sgn n * s * 10 ^ (j + 2)).
    assert (Hj : -2 <= j).
    { destruct Hres as [H|[H1 H2]]; [exact H|]. subst s. discriminate. }
    rewrite Qred_correct. replace j with ((j + 2) + (-2)) at 1 by lia.
    rewrite pow10_add, pow10_nat by lia. rewrite !inject_Z_mult.
    change (Double.pow10 (-2)) with (1 # 100)%Q. field.
Qed.


(** ** Amounts in cents *)

Lemma toDecimalPlaces_2_cents (x : Q) : in_cents (Dec.toDecimalPlaces 2 x).
Proof.
  unfold in_cents, Dec.toDecimalPlaces, Dec.of_scaled.
  exists (Z.sgn (Qnum x) * Dec.round_half_up_pos (Z.abs (Qnum x) * 10 ^ 2) (QDen x)).
  change (0 <=? 2) with true. cbv iota. rewrite Qred_correct.
  unfold Qeq, Qdiv, Qmult, Qinv. simpl. lia.
Qed.

Lemma zero_cents : in_cents 0.
Proof. exists 0. reflexivity. Qed.

Lemma executeOrder_Done_row (input : CreateOrderInput) (s : DB) (resp : OrderResponse)
  (s' : DB) :
  executeOrder input s = Done resp s' -> exists f p, resp = respond (inserted_row s f p).
Proof.
  intros H. rewrite executeOrder_unfold in H.
  destruct (existsb _ _); [|discriminate].
  destruct (find _ _) as [ins|]; [|discriminate].
  destruct (OrderSide_beq (in_side input) CASH_IN || OrderSide_beq (in_side input) CASH_OUT)
    eqn:Hc.
  - apply executeCashOperation_Done in H. destruct H as (_ & n & rej & _ & _ & _ & Hr & _).
    eauto.
  - assert (Hside : in_side input = BUY \/ in_side input = SELL)
      by (destruct (in_side input); simpl in Hc; auto; discriminate).
    destruct (in_type input).
    + destruct (Repo.latest_market_data _ _); [|discriminate].
      apply executeStockOrder_Done in H; [|exact Hside].
      destruct H as (p & n & st & _ & _ & Hr & _). eauto.
    + apply executeStockOrder_Done in H; [|exact Hside].
      destruct H as (p & n & st & _ & _ & Hr & _). eauto.
Qed.

Lemma In_enrich_fold (p : Position) (md : list MarketData) (ins : list Instrument)
  (cs : list PositionCalculation) :
  In p (fold_right (fun c acc => match enrich_one md ins c with
                                 | Some p => p :: acc
                                 | None => acc
                                 end) [] cs) ->
  exists c, enrich_one md ins c = Some p.
Proof.
  induction cs as [|c cs IH]; simpl; [intros []|].
  destruct (enrich_one md ins c) eqn:E; [|exact IH].
  intros [<-|H]; [eauto|exact (IH H)].
Qed.

Lemma enrich_one_cents (md : list MarketData) (ins : list Instrument) (c : PositionCalculation)
  (p : Position) :
  enrich_one md ins c = Some p ->
  in_cents (p_averageBuyPrice p) /\ in_cents (p_currentPrice p) /\
  in_cents (p_marketValue p) /\ in_cents (p_totalReturn p) /\ in_cents (p_dailyReturn p).
Proof.
  unfold enrich_one. destruct (Repo.latest_market_data md (pc_instrumentId c)); [|discriminate].
  destruct (find _ ins); [|discriminate]. intros H. injection H as <-. cbn [p_averageBuyPrice
    p_currentPrice p_marketValue p_totalReturn p_dailyReturn].
  split; [apply to_number_cents, toDecimalPlaces_2_cents|].
  split; [apply to_number_cents, toDecimalPlaces_2_cents|].
  split; [apply to_number_cents, toDecimalPlaces_2_cents|].
  split; destruct (Dec.greaterThan _ _);
    (apply to_number_cents, toDecimalPlaces_2_cents || apply zero_cents).
Qed.

(** Every [totalAmount] the service returns (for a new order, a
    cancellation, one order or a page of orders), the stored price of a new
    order, and the average buy price, current price, market value and the
    two returns of every position are whole numbers of cents. *)
Theorem response_amounts_in_cents :
  (forall input s resp s', executeOrder input s = Done resp s' ->
   in_cents (r_totalAmount resp) /\ in_cents (o_price (r_order resp))) /\
  (forall oid uid s r s', cancelOrder oid uid s = Done r s' -> in_cents (c_totalAmount r)) /\
  (forall oid s v s', OrderRead.getOrderById oid s = Done v s' ->
   in_cents (OrderRead.ov_totalAmount v)) /\
  (forall u limit cursor s r s', OrderRead.getUserOrders u limit cursor s = Done r s' ->
   forall o q, In (o, q) (OrderRead.uo_orders r) -> in_cents q) /\
  (forall u s pf s', getUserPortfolio u s = Done pf s' ->
   forall p, In p (pf_positions pf) ->
   in_cents (p_averageBuyPrice p) /\ in_cents (p_currentPrice p) /\
   in_cents (p_marketValue p) /\ in_cents (p_totalReturn p) /\ in_cents (p_dailyReturn p)).
Proof.
  split; [|split; [|split; [|split]]].
  - intros input s resp s' H. apply executeOrder_Done_row in H.
    destruct H as (f & p & ->). split; [apply toDecimalPlaces_2_cents|].
    simpl. apply toDecimalPlaces_2_cents.
  - intros oid uid s r s' H. apply cancelOrder_Done in H.
    destruct H as (o & ins & _ & _ & _ & _ & -> & _). apply toDecimalPlaces_2_cents.
  - intros oid s v s' H. unfold OrderRead.getOrderById, OrderRead.findOrderById, bind, ret,
      throw in H.
    destruct (OrderRead.join_first _ _ _) as [[o ins]|]; [|discriminate].
    injection H as <- _. apply toDecimalPlaces_2_cents.
  - intros u limit cursor s r s' H.
    unfold OrderRead.getUserOrders, bind, ret, throw, Repo.findUserById in H.
    destruct (existsb (Z.eqb u) (db_users s)); [|discriminate].
    change (negb true) with false in H. cbv beta iota in H.
    unfold Repo.getOrdersByUserId in H. destruct (_ <? 0); [discriminate|].
    injection H as <- _. intros o q Hin. apply in_map_iff in Hin.
    destruct Hin as (o' & E & _). injection E as _ <-. apply toDecimalPlaces_2_cents.
  - intros u s pf s' H p Hp.
    destruct (getUserPortfolio_positions u s s' pf H) as [E|E]; rewrite E in Hp; [destruct Hp|].
    unfold enrichPositions, sort_by_value in Hp. apply In_sort_by_value_acc in Hp.
    destruct Hp as [Hp|[]]. apply In_enrich_fold in Hp. destruct Hp as (c & Hc).
    exact (enrich_one_cents _ _ _ _ Hc).
Qed.

Lemma response_amounts_in_cents_witness :
  in_cents (r_totalAmount (respond (mkOrder 2 47 1 6 150 MARKET BUY FILLED 2))).
Proof.
  apply (proj1 (proj1 response_amounts_in_cents buy_by_amount sample_db
                  (respond (mkOrder 2 47 1 6 150 MARKET BUY FILLED 2))
                  (after_insert sample_db (mkOrder 2 47 1 6 150 MARKET BUY FILLED 2))
                  ltac:(vm_compute; reflexivity))).
Defined.
